(** * Pronoun pro-drop annotation app: a model of [app.py]

    The development embeds the persistence, review and export functions of
    [app.py] and proves the properties its specification lists.

    Conventions of the embedding.
    - A Python [str] is a [string], one [ascii] per character, which covers
      the strs whose code points lie below 256; an [int] is a [Z]; a [bool]
      is a [bool].
    - An annotation record is a Python [dict] whose keys are fixed by the
      app.  It is a record of [option]s: [None] is an absent key, [Some v] a
      key bound to [v], and [v] has the type the app gives that key.
    - [d[k]] is [getitem], which raises [KeyError] on an absent key;
      [d.get(k, x)] is [default x].
    - Code that talks to the remote store, to the session or to the page
      runs in the monad [M], a state monad over [world] with exceptions. *)

From stdpp Require Import base option list strings gmap pretty.
From Stdlib Require Import ZArith Ascii.

Local Open Scope Z_scope.

(** ** Exceptions and results *)

(** [RerunException] is what [st.rerun()] raises to restart the script; it
    derives from [BaseException], so [except Exception] lets it through. *)
Inductive exn : Type :=
| KeyError (key : string)
| APIError (msg : string)
| RuntimeError (msg : string)
| RerunException.

Definition is_Exception (e : exn) : bool :=
  match e with
  | RerunException => false
  | _ => true
  end.

(** [str(e)], as the f-strings of the handlers format it. *)
Definition exn_str (e : exn) : string :=
  match e with
  | KeyError key => "'" +:+ key +:+ "'"
  | APIError msg => msg
  | RuntimeError msg => msg
  | RerunException => ""
  end.

Inductive result (A : Type) : Type :=
| Ok (a : A)
| Raise (e : exn).
Arguments Ok {A} a.
Arguments Raise {A} e.

Global Instance result_ret : MRet result := λ A a, Ok a.
Global Instance result_bind : MBind result := λ A B f r,
  match r with
  | Ok a => f a
  | Raise e => Raise e
  end.

Definition getitem {A} (key : string) (v : option A) : result A :=
  match v with
  | Some x => Ok x
  | None => Raise (KeyError key)
  end.

(** ** Records *)

(** An annotation as the session holds it. *)
Record annot : Type := mk_annot {
  a_ID : option string;
  a_sentence_id : option Z;
  a_no_pronoun : option bool;
  a_pronoun : option string;
  a_lemma : option string;
  a_person : option string;
  a_number : option string;
  a_is_dropped : option bool;
  a_position : option Z;
  a_uk_match_pos : option string;
  a_gender : option string;
  a_case : option string;
  a_en_reference : option string
}.

(** The six columns that only a pronoun row carries. *)
Record pronoun_cols : Type := mk_cols {
  c_pronoun : string;
  c_lemma : string;
  c_person : string;
  c_number : string;
  c_is_dropped : bool;
  c_position : Z
}.

(** A row of the table [annotations].  [r_cols] is [None] when the insert
    left the six pronoun columns out. *)
Record arow : Type := mk_arow {
  r_annotator_id : string;
  r_poem_id : string;
  r_sentence_id : Z;
  r_no_pronoun : bool;
  r_cols : option pronoun_cols
}.

(** A row of the table [poem_perspectives], without its key columns. *)
Record prow : Type := mk_prow {
  p_perspective_primary : string;
  p_perspective_secondary : string;
  p_author : string;
  p_poem_date : string
}.

(** The [data] dict of a perspective, as [main] builds it and as
    [load_poem_perspectives] returns it. *)
Record persp : Type := mk_persp {
  d_perspective_primary : option string;
  d_perspective_secondary : option string;
  d_author : option string;
  d_date : option string
}.

(** A row of the sentence table read from the CSV.  [s_sentence_id] is
    [None] for a NaN cell; [s_Language] and [s_Theme] are [None] when the
    table has no such column. *)
Record sentence : Type := mk_sentence {
  s_ID : string;
  s_author : string;
  s_date : string;
  s_Language : option string;
  s_context : string;
  s_Theme : option string;
  s_sentence_id : option Z;
  s_sentence : string
}.

Abbreviation sent_key := (string * Z)%type.
Abbreviation row_key := (string * string * Z)%type.

(** ** The world: remote store, session state and page *)

Inductive message : Type :=
| st_error (text : string)
| st_warning (text : string)
| st_success (text : string).

Record session_state : Type := mk_session {
  annotations : list annot;
  poem_perspectives : gmap string persp;
  current_pronouns : list annot;
  current_sent_key : option sent_key;
  force_nav_idx : option Z
}.

(** Modelled from the spec: the two tables of [supabase_schema.sql], which
    is not among the sources.  [annotations] is a bag of rows in insertion
    order with no uniqueness constraint (a sentence holds several pronoun
    rows); [poem_perspectives] is keyed by (annotator, poem), the conflict
    target of the upsert.

    [secrets] is the [supabase] entry of [st.secrets].  [faults] schedules
    the coming requests to the store: each [execute()] consumes one entry,
    [Some msg] makes that request fail with [msg] and leave the tables as
    they are, [None] (or an exhausted schedule) lets it through. *)
Record world : Type := mk_world {
  secrets : option (string * string);
  faults : list (option string);
  annotations_tbl : list arow;
  perspectives_tbl : gmap (string * string) prow;
  session : session_state;
  page : list message
}.

Definition set_faults (fs : list (option string)) (w : world) : world :=
  mk_world (secrets w) fs (annotations_tbl w) (perspectives_tbl w)
           (session w) (page w).
Definition set_annotations_tbl (t : list arow) (w : world) : world :=
  mk_world (secrets w) (faults w) t (perspectives_tbl w) (session w) (page w).
Definition set_perspectives_tbl (t : gmap (string * string) prow) (w : world)
  : world :=
  mk_world (secrets w) (faults w) (annotations_tbl w) t (session w) (page w).
Definition set_session (s : session_state) (w : world) : world :=
  mk_world (secrets w) (faults w) (annotations_tbl w) (perspectives_tbl w)
           s (page w).
Definition show (m : message) (w : world) : world :=
  mk_world (secrets w) (faults w) (annotations_tbl w) (perspectives_tbl w)
           (session w) (page w ++ [m]).

(** ** The monad *)

Definition M (A : Type) : Type := world → result A * world.

Global Instance M_ret : MRet M := λ A a w, (Ok a, w).
Global Instance M_bind : MBind M := λ A B f m w,
  match m w with
  | (Ok a, w') => f a w'
  | (Raise e, w') => (Raise e, w')
  end.

Definition lift {A} (r : result A) : M A := λ w, (r, w).
Definition raise {A} (e : exn) : M A := λ w, (Raise e, w).
Definition modify (f : world → world) : M unit := λ w, (Ok tt, f w).
Definition gets {A} (f : world → A) : M A := λ w, (Ok (f w), w).

(** [try: body / except Exception as e: handler e]. *)
Definition try_except {A} (body : M A) (handler : exn → M A) : M A := λ w,
  match body w with
  | (Raise e, w') => if is_Exception e then handler e w' else (Raise e, w')
  | finished => finished
  end.

(** [for x in l: f x]. *)
Fixpoint for_each {A} (f : A → M unit) (l : list A) : M unit :=
  match l with
  | [] => mret tt
  | x :: l' => f x ;; for_each f l'
  end.

(** ** The Supabase client *)

(** [get_supabase]: reads [st.secrets["supabase"]]. *)
Definition get_supabase : M (string * string) := λ w,
  (getitem "supabase" (secrets w), w).

(** [request.execute()]: one round trip to the store. *)
Definition execute {A} (request : world → A * world) : M A := λ w,
  match faults w with
  | Some msg :: fs => (Raise (APIError msg), set_faults fs w)
  | None :: fs => let (a, w') := request (set_faults fs w) in (Ok a, w')
  | [] => let (a, w') := request w in (Ok a, w')
  end.

Definition key_of (r : arow) : row_key :=
  (r_annotator_id r, r_poem_id r, r_sentence_id r).

(** [table("annotations").select("*").eq("annotator_id", a)]. *)
Definition select_annotations (annotator_id : string) : M (list arow) :=
  execute (λ w,
    (filter (λ r, r_annotator_id r = annotator_id) (annotations_tbl w), w)).

(** [table("annotations").delete().eq(..).eq(..).eq(..)]. *)
Definition delete_annotations (k : row_key) : M unit :=
  execute (λ w,
    (tt, set_annotations_tbl (filter (λ r, key_of r ≠ k) (annotations_tbl w)) w)).

(** [table("annotations").insert(row)]. *)
Definition insert_annotation (row : arow) : M unit :=
  execute (λ w, (tt, set_annotations_tbl (annotations_tbl w ++ [row]) w)).

(** [table("poem_perspectives").select("*").eq("annotator_id", a)]: the
    rows of the annotator, by poem. *)
Definition select_perspectives (annotator_id : string)
  : M (list (string * prow)) :=
  execute (λ w,
    (omap (λ kv, if decide (kv.1.1 = annotator_id) then Some (kv.1.2, kv.2)
                 else None)
          (map_to_list (perspectives_tbl w)), w)).

(** [table("poem_perspectives").upsert(row, on_conflict="annotator_id,poem_id")]. *)
Definition upsert_perspective (annotator_id poem_id : string) (row : prow)
  : M unit :=
  execute (λ w,
    (tt, set_perspectives_tbl
           (<[(annotator_id, poem_id) := row]> (perspectives_tbl w)) w)).

(** ** Persistence functions of [app.py] *)

(** The row dict that the loop of [save_annotations_for_sentence] builds
    from one record. *)
Definition annotation_row (annotator_id : string) (a : annot) : result arow :=
  ID ← getitem "ID" (a_ID a);
  mret {| r_annotator_id := annotator_id;
          r_poem_id := ID;
          r_sentence_id := default 0 (a_sentence_id a);
          r_no_pronoun := default false (a_no_pronoun a);
          r_cols :=
            if negb (default false (a_no_pronoun a)) then
              Some {| c_pronoun := default "" (a_pronoun a);
                      c_lemma := default (default "" (a_pronoun a)) (a_lemma a);
                      c_person := default "" (a_person a);
                      c_number := default "" (a_number a);
                      c_is_dropped := default true (a_is_dropped a);
                      c_position :=
                        default (default 0 (a_sentence_id a)) (a_position a) |}
            else None |}.

(** The body of that loop. *)
Definition insert_record (annotator_id : string) (a : annot) : M unit :=
  row ← lift (annotation_row annotator_id a);
  insert_annotation row.

Definition save_annotations_for_sentence
    (annotator_id poem_id : string) (sentence_id : Z) (records : list annot)
  : M unit :=
  try_except
    (sb ← get_supabase;
     delete_annotations (annotator_id, poem_id, sentence_id);;
     for_each (insert_record annotator_id) records)
    (λ e, raise (RuntimeError ("Failed to save annotations: " +:+ exn_str e))).

(** The record [load_annotations] builds from one row of the answer.  A row
    is read back with the columns it was inserted with, so a pronoun column
    the insert left out takes the default of its [row.get]. *)
Definition loaded_record (row : arow) : annot :=
  let rec := {| a_ID := Some (r_poem_id row);
                a_sentence_id := Some (r_sentence_id row);
                a_no_pronoun := Some (r_no_pronoun row);
                a_pronoun := None; a_lemma := None; a_person := None;
                a_number := None; a_is_dropped := None; a_position := None;
                a_uk_match_pos := None; a_gender := None; a_case := None;
                a_en_reference := None |} in
  if negb (r_no_pronoun row) then
    {| a_ID := a_ID rec;
       a_sentence_id := a_sentence_id rec;
       a_no_pronoun := a_no_pronoun rec;
       a_pronoun := Some (default "" (c_pronoun <$> r_cols row));
       a_lemma := Some (default "" (c_lemma <$> r_cols row));
       a_person := Some (default "" (c_person <$> r_cols row));
       a_number := Some (default "" (c_number <$> r_cols row));
       a_is_dropped := Some (default true (c_is_dropped <$> r_cols row));
       a_position := Some (default 0 (c_position <$> r_cols row));
       a_uk_match_pos := None; a_gender := None; a_case := None;
       a_en_reference := None |}
  else rec.

Definition load_annotations_body (annotator_id : string) : M (list annot) :=
  sb ← get_supabase;
  rows ← select_annotations annotator_id;
  mret (loaded_record <$> rows).

Definition load_annotations (annotator_id : string) : M (list annot) :=
  try_except
    (load_annotations_body annotator_id)
    (λ e, modify (show (st_error ("Failed to load annotations: " +:+ exn_str e)));;
          mret []).

(** [{(str(a["ID"]), int(a.get("sentence_id", 0))) for a in annotations}]. *)
Fixpoint get_reviewed_sentences (annotations : list annot)
  : result (gset sent_key) :=
  match annotations with
  | [] => mret ∅
  | a :: rest =>
      ID ← getitem "ID" (a_ID a);
      reviewed ← get_reviewed_sentences rest;
      mret ({[ (ID, default 0 (a_sentence_id a)) ]} ∪ reviewed)
  end.

Definition loaded_perspective (row : prow) : persp :=
  {| d_perspective_primary := Some (p_perspective_primary row);
     d_perspective_secondary := Some (p_perspective_secondary row);
     d_author := Some (p_author row);
     d_date := Some (p_poem_date row) |}.

Definition load_poem_perspectives_body (annotator_id : string)
  : M (gmap string persp) :=
  sb ← get_supabase;
  rows ← select_perspectives annotator_id;
  mret (foldl (λ out row, <[row.1 := loaded_perspective row.2]> out) ∅ rows).

Definition load_poem_perspectives (annotator_id : string)
  : M (gmap string persp) :=
  try_except
    (load_poem_perspectives_body annotator_id)
    (λ e, modify (show (st_error
                    ("Failed to load poem perspectives: " +:+ exn_str e)));;
          mret ∅).

Definition save_poem_perspective (annotator_id poem_id : string) (data : persp)
  : M unit :=
  try_except
    (sb ← get_supabase;
     let row := {| p_perspective_primary := default "" (d_perspective_primary data);
                   p_perspective_secondary := default "" (d_perspective_secondary data);
                   p_author := default "" (d_author data);
                   p_poem_date := default "" (d_date data) |} in
     upsert_perspective annotator_id poem_id row)
    (λ e, raise (RuntimeError ("Failed to save poem perspective: " +:+ exn_str e))).

(** ** Review status *)

(** [(str(r["ID"]), int(r["sentence_id"]) if pd.notna(r["sentence_id"]) else 0)]. *)
Definition sentence_key (r : sentence) : sent_key :=
  (s_ID r, default 0 (s_sentence_id r)).

(** The loop of [is_poem_fully_annotated], with its early return. *)
Fixpoint all_reviewed (poem_sents : list sentence) (reviewed : gset sent_key)
  : bool :=
  match poem_sents with
  | [] => true
  | r :: rest =>
      if decide (sentence_key r ∉ reviewed) then false
      else all_reviewed rest reviewed
  end.

Definition is_poem_fully_annotated
    (poem_id : string) (display_df : list sentence) (reviewed : gset sent_key)
  : bool :=
  let poem_sents := filter (λ r, s_ID r = poem_id) display_df in
  match poem_sents with
  | [] => false
  | _ => all_reviewed poem_sents reviewed
  end.

(** ** Export *)

Definition OUTPUT_COLUMNS : list string :=
  [ "ID"; "author"; "date"; "Language"; "text"; "Theme";
    "pronoun"; "lemma"; "uk_match_pos"; "position"; "context";
    "person"; "number"; "gender"; "case"; "is_dropped"; "en_reference";
    "shakespeare_text"; "gpt_annotations" ].

(** A value of an exported row. *)
Inductive cell : Type :=
| CStr (s : string)
| CInt (z : Z)
| CBool (b : bool).

(** A dict with string keys, in insertion order. *)
Abbreviation dict := (list (string * cell)).

Definition pronoun_row_to_output (row : annot) (sentence_row : sentence)
  : result dict :=
  pronoun ← getitem "pronoun" (a_pronoun row);
  lemma_default ← getitem "pronoun" (a_pronoun row);
  mret [ ("ID", CStr (s_ID sentence_row));
         ("author", CStr (s_author sentence_row));
         ("date", CStr (s_date sentence_row));
         ("Language", CStr (default "Ukrainian" (s_Language sentence_row)));
         ("text", CStr (s_context sentence_row));
         ("Theme", CStr (default "" (s_Theme sentence_row)));
         ("pronoun", CStr pronoun);
         ("lemma", CStr (default lemma_default (a_lemma row)));
         ("uk_match_pos", CStr (default "" (a_uk_match_pos row)));
         ("position",
           match a_position row, a_sentence_id row with
           | Some p, _ => CInt p
           | None, Some i => CInt i
           | None, None => CStr ""
           end);
         ("context", CStr (s_sentence sentence_row));
         ("person", CStr (default "" (a_person row)));
         ("number", CStr (default "" (a_number row)));
         ("gender", CStr (default "" (a_gender row)));
         ("case", CStr (default "" (a_case row)));
         ("is_dropped", CBool (default true (a_is_dropped row)));
         ("en_reference", CStr (default "" (a_en_reference row)));
         ("shakespeare_text", CStr "");
         ("gpt_annotations", CStr "") ].

(** *** The data frame of the export

    A frame is its column labels and its rows; a row binds labels to cells
    and an unbound label is a missing value. *)
Record DataFrame : Type := mk_frame {
  columns : list string;
  frame_rows : list dict
}.

Fixpoint dict_get (d : dict) (key : string) : option cell :=
  match d with
  | [] => None
  | (k, v) :: d' => if decide (k = key) then Some v else dict_get d' key
  end.

(** [pd.DataFrame(rows)]: the labels are the keys of the dicts, in order of
    first appearance. *)
Definition frame_of_dicts (rows : list dict) : DataFrame :=
  {| columns :=
       foldl (λ cols d, cols ++ filter (λ k, k ∉ cols) (d.*1)) [] rows;
     frame_rows := rows |}.

(** [df[c] = v] for a label [c] the frame does not have yet. *)
Definition add_column (c : string) (v : cell) (df : DataFrame) : DataFrame :=
  {| columns := columns df ++ [c];
     frame_rows := (λ d, d ++ [(c, v)]) <$> frame_rows df |}.

(** [df[cols]]: raises [KeyError] on a label the frame does not have. *)
Definition select_columns (cols : list string) (df : DataFrame)
  : result DataFrame :=
  match filter (λ c, c ∉ columns df) cols with
  | [] => Ok {| columns := cols; frame_rows := frame_rows df |}
  | c :: _ => Raise (KeyError c)
  end.

(** *** [to_csv]

    The writer of [df.to_csv(index=False, encoding="utf-8-sig")] called
    without a path, which returns the text as a [str] (the encoding plays no
    part then).  Fields are separated by commas; each line, the header
    included, ends with the line separator of the platform, a line feed
    where the app is deployed; a field is quoted when it holds a comma, a
    quote or a line break, and a quote inside a quoted field is doubled; a
    missing value is written as the empty field. *)
Definition quote_char : ascii := ascii_of_nat 34.
Definition LF : ascii := ascii_of_nat 10.
Definition CR : ascii := ascii_of_nat 13.

Fixpoint needs_quoting (s : string) : bool :=
  match s with
  | EmptyString => false
  | String c s' =>
      bool_decide (c = ","%char) || bool_decide (c = quote_char) ||
      bool_decide (c = LF) || bool_decide (c = CR) || needs_quoting s'
  end.

Fixpoint double_quotes (s : string) : string :=
  match s with
  | EmptyString => EmptyString
  | String c s' =>
      if decide (c = quote_char) then String c (String c (double_quotes s'))
      else String c (double_quotes s')
  end.

Definition csv_field (s : string) : string :=
  if needs_quoting s
  then String quote_char (double_quotes s +:+ String quote_char EmptyString)
  else s.

Definition cell_str (v : option cell) : string :=
  match v with
  | Some (CStr s) => s
  | Some (CInt z) => pretty z
  | Some (CBool true) => "True"
  | Some (CBool false) => "False"
  | None => ""
  end.

Fixpoint join (sep : string) (fields : list string) : string :=
  match fields with
  | [] => ""
  | [f] => f
  | f :: rest => f +:+ sep +:+ join sep rest
  end.

Definition csv_line (fields : list string) : string :=
  join "," (csv_field <$> fields) +:+ String LF EmptyString.

Definition to_csv (df : DataFrame) : string :=
  csv_line (columns df) +:+
  String.concat "" ((λ d, csv_line ((λ c, cell_str (dict_get d c)) <$> columns df))
                      <$> frame_rows df).

(** *** [build_export_csv] *)

(** [not a.get("no_pronoun")]. *)
Definition is_pronoun_annot (a : annot) : bool :=
  negb (default false (a_no_pronoun a)).

(** The boolean mask of
    [(sentences_df["ID"] == a["ID"]) & (sentences_df["sentence_id"] == a["sentence_id"])]. *)
Definition sentence_matches (ID : string) (sid : Z) (s : sentence) : bool :=
  bool_decide (s_ID s = ID) && bool_decide (s_sentence_id s = Some sid).

(** The loop of [build_export_csv] that collects the rows. *)
Fixpoint export_rows (pronoun_annots : list annot) (sentences_df : list sentence)
  : result (list dict) :=
  match pronoun_annots with
  | [] => mret []
  | a :: rest =>
      ID ← getitem "ID" (a_ID a);
      sid ← getitem "sentence_id" (a_sentence_id a);
      match List.filter (sentence_matches ID sid) sentences_df with
      | [] => export_rows rest sentences_df
      | sent0 :: _ =>
          out ← pronoun_row_to_output a sent0;
          rows ← export_rows rest sentences_df;
          mret (out :: rows)
      end
  end.

Definition fill_missing_columns (df : DataFrame) : DataFrame :=
  foldl (λ df c, if decide (c ∉ columns df) then add_column c (CStr "") df
                 else df)
        df OUTPUT_COLUMNS.

Definition build_export_csv (annotations : list annot) (sentences_df : list sentence)
  : result string :=
  let pronoun_annots := List.filter is_pronoun_annot annotations in
  match pronoun_annots with
  | [] => mret ""
  | _ =>
      rows ← export_rows pronoun_annots sentences_df;
      let df := fill_missing_columns (frame_of_dicts rows) in
      df ← select_columns OUTPUT_COLUMNS df;
      mret (to_csv df)
  end.

(** ** The save buttons of [main] *)

(** [str.isspace] on the characters of the model (code points below 256). *)
Definition is_space (c : ascii) : bool :=
  let n := nat_of_ascii c in
  ((9 <=? n) && (n <=? 13) || (28 <=? n) && (n <=? 32) ||
   (n =? 133) || (n =? 160))%nat.

Fixpoint lstrip_list (l : list ascii) : list ascii :=
  match l with
  | c :: l' => if is_space c then lstrip_list l' else l
  | [] => []
  end.

Definition rstrip_list (l : list ascii) : list ascii :=
  reverse (lstrip_list (reverse l)).

(** [s.strip()]. *)
Definition strip (s : string) : string :=
  String.string_of_list_ascii
    (rstrip_list (lstrip_list (String.list_ascii_of_string s))).

(** Truth value of a [str]. *)
Definition nonempty (s : string) : bool :=
  match s with
  | EmptyString => false
  | _ => true
  end.

(** What the closures [_do_save] and [_do_save_no_pronoun] capture from
    [main]: the annotator, the sentence on display and the cursor. *)
Record view : Type := mk_view {
  annotator_id : string;
  row : sentence;
  idx : Z;
  total : Z
}.

Definition set_annotations (l : list annot) (s : session_state) : session_state :=
  mk_session l (poem_perspectives s) (current_pronouns s)
             (current_sent_key s) (force_nav_idx s).
Definition set_current_pronouns (l : list annot) (s : session_state)
  : session_state :=
  mk_session (annotations s) (poem_perspectives s) l
             (current_sent_key s) (force_nav_idx s).
Definition set_current_sent_key (k : option sent_key) (s : session_state)
  : session_state :=
  mk_session (annotations s) (poem_perspectives s) (current_pronouns s)
             k (force_nav_idx s).
Definition set_force_nav_idx (i : option Z) (s : session_state)
  : session_state :=
  mk_session (annotations s) (poem_perspectives s) (current_pronouns s)
             (current_sent_key s) i.

Definition update_session (f : session_state → session_state) : M unit :=
  modify (λ w, set_session (f (session w)) w).

Definition st_rerun {A} : M A := raise RerunException.

(** [int(row["sentence_id"]) if pd.notna(row["sentence_id"]) else 0]. *)
Definition sentence_id_of (r : sentence) : Z := default 0 (s_sentence_id r).

Definition _save_sentence_and_reload (v : view) (records : list annot) : M unit :=
  save_annotations_for_sentence
    (annotator_id v) (s_ID (row v)) (sentence_id_of (row v)) records;;
  loaded ← load_annotations (annotator_id v);
  update_session (set_annotations loaded).

(** The tail shared by the two closures, after the save. *)
Definition finish_save (v : view) (and_next : bool) : M unit :=
  update_session (set_current_pronouns []);;
  update_session (set_current_sent_key None);;
  (if and_next
   then update_session (set_force_nav_idx (Some (Z.min (idx v + 1) (total v - 1))))
   else mret tt);;
  st_rerun.

(** [p.get("pronoun", "").strip()] taken as a condition. *)
Definition has_pronoun_text (p : annot) : bool :=
  nonempty (strip (default "" (a_pronoun p))).

(** The record [_do_save] appends for an entry [p] with pronoun text. *)
Definition entry_record (v : view) (p : annot) : result annot :=
  pronoun ← getitem "pronoun" (a_pronoun p);
  lemma_default ← getitem "pronoun" (a_pronoun p);
  mret {| a_ID := Some (s_ID (row v));
          a_sentence_id := Some (sentence_id_of (row v));
          a_no_pronoun := None;
          a_pronoun := Some (strip pronoun);
          a_lemma := Some (strip (default lemma_default (a_lemma p)));
          a_person := Some (default "" (a_person p));
          a_number := Some (default "" (a_number p));
          a_is_dropped := Some (default true (a_is_dropped p));
          a_position := Some (sentence_id_of (row v));
          a_uk_match_pos := None; a_gender := None; a_case := None;
          a_en_reference := None |}.

Fixpoint entry_records (v : view) (pronouns : list annot)
  : result (list annot) :=
  match pronouns with
  | [] => mret []
  | p :: rest =>
      if has_pronoun_text p then
        r ← entry_record v p;
        records ← entry_records v rest;
        mret (r :: records)
      else entry_records v rest
  end.

Definition _do_save (v : view) (and_next : bool) : M unit :=
  pronouns ← gets (λ w, current_pronouns (session w));
  let has_valid := existsb has_pronoun_text pronouns in
  if negb has_valid && negb (bool_decide (pronouns = [])) then
    modify (show (st_warning "Enter at least one pronoun or select 'No'"))
  else
    records ← lift (entry_records v pronouns);
    _save_sentence_and_reload v records;;
    finish_save v and_next.

Definition no_pronoun_record (v : view) : annot :=
  {| a_ID := Some (s_ID (row v));
     a_sentence_id := Some (sentence_id_of (row v));
     a_no_pronoun := Some true;
     a_pronoun := None; a_lemma := None; a_person := None; a_number := None;
     a_is_dropped := None; a_position := None;
     a_uk_match_pos := None; a_gender := None; a_case := None;
     a_en_reference := None |}.

Definition _do_save_no_pronoun (v : view) (and_next : bool) : M unit :=
  _save_sentence_and_reload v [no_pronoun_record v];;
  finish_save v and_next.

(** A click on one of the four save buttons:
    [try: save(and_next) / except Exception as e: st.error(...)]. *)
Definition on_click (save : M unit) : M unit :=
  try_except save
    (λ e, modify (show (st_error ("Save failed: " +:+ exn_str e)))).

(** ** Vocabulary of the statements *)

(** The stored rows of one (annotator, poem, sentence) key, and the rest. *)
Definition rows_for (k : row_key) (tbl : list arow) : list arow :=
  filter (λ r, key_of r = k) tbl.
Definition rows_off (k : row_key) (tbl : list arow) : list arow :=
  filter (λ r, key_of r ≠ k) tbl.

(** The rows built from a list of records, in order. *)
Fixpoint annotation_rows (annotator_id : string) (records : list annot)
  : result (list arow) :=
  match records with
  | [] => mret []
  | a :: rest =>
      row ← annotation_row annotator_id a;
      rows ← annotation_rows annotator_id rest;
      mret (row :: rows)
  end.

(** A record names the poem and the sentence it is saved under. *)
Definition carries_key (poem_id : string) (sentence_id : Z) (a : annot) : Prop :=
  a_ID a = Some poem_id ∧ default 0 (a_sentence_id a) = sentence_id.

(** Everything of the world but the annotations table and the schedule of
    faults. *)
Definition same_surroundings (w w' : world) : Prop :=
  secrets w' = secrets w ∧ perspectives_tbl w' = perspectives_tbl w ∧
  session w' = session w ∧ page w' = page w.

(** The key under which the closures of a view save. *)
Definition view_key (v : view) : row_key :=
  (annotator_id v, s_ID (row v), sentence_id_of (row v)).

(** The states of a sentence that the data model allows: no row, one
    marker row, or one or more pronoun rows. *)
Definition sentence_state (rows : list arow) : Prop :=
  rows = []
  ∨ (∃ r, rows = [r] ∧ r_no_pronoun r = true)
  ∨ (rows ≠ [] ∧ Forall (λ r, r_no_pronoun r = false) rows).

(** The record [_do_save] makes of an entry that has pronoun text. *)
Definition saved_entry (v : view) (p : annot) : annot :=
  {| a_ID := Some (s_ID (row v));
     a_sentence_id := Some (sentence_id_of (row v));
     a_no_pronoun := None;
     a_pronoun := Some (strip (default "" (a_pronoun p)));
     a_lemma := Some (strip (default (default "" (a_pronoun p)) (a_lemma p)));
     a_person := Some (default "" (a_person p));
     a_number := Some (default "" (a_number p));
     a_is_dropped := Some (default true (a_is_dropped p));
     a_position := Some (sentence_id_of (row v));
     a_uk_match_pos := None; a_gender := None; a_case := None;
     a_en_reference := None |}.

(** One step of a session: a click on a save button of the Yes form or of
    the No form, whatever its outcome, or anything else that leaves the
    annotations table as it is (edits of the form, reruns, a change of the
    schedule of faults, the save of a perspective). *)
Inductive session_step : world → world → Prop :=
| step_do_save v and_next w :
    session_step w (_do_save v and_next w).2
| step_do_save_no_pronoun v and_next w :
    session_step w (_do_save_no_pronoun v and_next w).2
| step_elsewhere w w' :
    annotations_tbl w' = annotations_tbl w → session_step w w'.

(** A stored pronoun row whose surface text is stripped and not empty. *)
Definition has_stripped_pronoun (r : arow) : Prop :=
  r_no_pronoun r = false ∧
  ∃ c, r_cols r = Some c ∧ c_pronoun c ≠ "" ∧ strip (c_pronoun c) = c_pronoun c.

(** The first line of an export and the line of one exported row. *)
Definition header_line : string := csv_line OUTPUT_COLUMNS.
Definition export_line (d : dict) : string :=
  csv_line ((λ c, cell_str (dict_get d c)) <$> OUTPUT_COLUMNS).

(** The sentence an annotation is exported with: the first row of the
    table with the poem ID and the sentence_id of the annotation. *)
Definition first_match (sentences_df : list sentence) (a : annot)
  : option sentence :=
  ID ← a_ID a;
  sid ← a_sentence_id a;
  head (List.filter (sentence_matches ID sid) sentences_df).

(** The annotations that have such a sentence, each with its sentence. *)
Definition matched (sentences_df : list sentence) (l : list annot)
  : list (annot * sentence) :=
  omap (λ a, s ← first_match sentences_df a; Some (a, s)) l.

(** ** Sample data *)

Definition sample_session : session_state := mk_session [] ∅ [] None None.

Definition sample_world (fs : list (option string)) (tbl : list arow) : world :=
  mk_world (Some ("https://project.supabase.co", "anon-key")) fs tbl ∅
           sample_session [].

Definition pronoun_record (ID : string) (sid : Z) (pronoun : string) : annot :=
  {| a_ID := Some ID; a_sentence_id := Some sid; a_no_pronoun := None;
     a_pronoun := Some pronoun; a_lemma := Some pronoun;
     a_person := Some "1st"; a_number := Some "Singular";
     a_is_dropped := Some true; a_position := Some sid;
     a_uk_match_pos := None; a_gender := None; a_case := None;
     a_en_reference := None |}.

Definition marker_record (ID : string) (sid : Z) : annot :=
  {| a_ID := Some ID; a_sentence_id := Some sid; a_no_pronoun := Some true;
     a_pronoun := None; a_lemma := None; a_person := None; a_number := None;
     a_is_dropped := None; a_position := None;
     a_uk_match_pos := None; a_gender := None; a_case := None;
     a_en_reference := None |}.

Definition pronoun_row (annotator ID : string) (sid : Z) (pronoun : string)
  : arow :=
  {| r_annotator_id := annotator; r_poem_id := ID; r_sentence_id := sid;
     r_no_pronoun := false;
     r_cols := Some {| c_pronoun := pronoun; c_lemma := pronoun;
                       c_person := "1st"; c_number := "Singular";
                       c_is_dropped := true; c_position := sid |} |}.

Definition marker_row (annotator ID : string) (sid : Z) : arow :=
  {| r_annotator_id := annotator; r_poem_id := ID; r_sentence_id := sid;
     r_no_pronoun := true; r_cols := None |}.

Definition sample_sentence (ID : string) (sid : Z) (text : string) : sentence :=
  {| s_ID := ID; s_author := "Lesya Ukrainka"; s_date := "1893";
     s_Language := Some "Ukrainian"; s_context := "Contra spem spero";
     s_Theme := Some "hope"; s_sentence_id := Some sid; s_sentence := text |}.

(** A world whose [st.secrets] has no [supabase] entry. *)
Definition offline_world : world :=
  mk_world None [] [] ∅ sample_session [].

Definition sample_view : view :=
  {| annotator_id := "olena"; row := sample_sentence "p1" 3 "third";
     idx := 2; total := 5 |}.

(** An entry of the form, as the ➕ button adds it and the text input
    fills it. *)
Definition sample_entry (text : string) : annot :=
  {| a_ID := None; a_sentence_id := None; a_no_pronoun := None;
     a_pronoun := Some text; a_lemma := None;
     a_person := Some "1st"; a_number := Some "Singular";
     a_is_dropped := Some true; a_position := None;
     a_uk_match_pos := None; a_gender := None; a_case := None;
     a_en_reference := None |}.

(** A world in which the form holds the entries [pronouns]. *)
Definition editing_world (pronouns : list annot) (tbl : list arow) : world :=
  mk_world (Some ("https://project.supabase.co", "anon-key")) [] tbl ∅
           (mk_session [] ∅ pronouns (Some ("p1", 3)) None) [].

(** The text of a result, or the empty text when the call raised. *)
Definition text_of (r : result string) : string :=
  match r with
  | Ok s => s
  | Raise _ => ""
  end.

(** ** More of [app.py]: the perspective export *)

(** The [perspectives] dict of [build_perspectives_csv]: poem IDs bound to
    perspectives, in insertion order. *)
Abbreviation persp_items := (list (string * persp)).

(** The row dict that the loop of [build_perspectives_csv] appends for one
    item of the dict. *)
Definition perspective_row
    (sentences_df : list sentence) (poem_id : string) (data : persp) : dict :=
  let meta := List.filter (λ s, bool_decide (s_ID s = poem_id)) sentences_df in
  let context := match meta with
                 | s :: _ => s_context s
                 | [] => ""
                 end in
  [ ("ID", CStr poem_id);
    ("author", CStr (default "" (d_author data)));
    ("date", CStr (default "" (d_date data)));
    ("perspective_primary", CStr (default "" (d_perspective_primary data)));
    ("perspective_secondary", CStr (default "" (d_perspective_secondary data)));
    ("text", CStr context) ].

Definition build_perspectives_csv
    (perspectives : persp_items) (sentences_df : list sentence) : string :=
  match perspectives with
  | [] => ""
  | _ =>
      let rows := (λ item, perspective_row sentences_df item.1 item.2)
                    <$> perspectives in
      to_csv (frame_of_dicts rows)
  end.

(** ** More of [main]: the perspective button, the sidebar, the cursor *)

Definition set_poem_perspectives (m : gmap string persp) (s : session_state)
  : session_state :=
  mk_session (annotations s) m (current_pronouns s)
             (current_sent_key s) (force_nav_idx s).

(** The [data] dict of the button "Save poem perspective". *)
Definition perspective_data (v : view) (new_primary new_secondary : string)
  : persp :=
  {| d_perspective_primary := Some new_primary;
     d_perspective_secondary :=
       Some (if decide (new_secondary ≠ "None") then new_secondary else "");
     d_author := Some (s_author (row v));
     d_date := Some (s_date (row v)) |}.

(** A click on "Save poem perspective", with the values of the two select
    boxes. *)
Definition save_perspective_click
    (v : view) (new_primary new_secondary : string) : M unit :=
  try_except
    (let data := perspective_data v new_primary new_secondary in
     save_poem_perspective (annotator_id v) (s_ID (row v)) data;;
     update_session
       (λ s, set_poem_perspectives (<[s_ID (row v) := data]> (poem_perspectives s)) s);;
     modify (show (st_success "Saved")))
    (λ e, modify (show (st_error ("Save failed: " +:+ exn_str e)))).

(** A click on "Next →" in the sidebar. *)
Definition next_click (v : view) : M unit :=
  update_session (set_force_nav_idx (Some (Z.min (idx v + 1) (total v - 1))));;
  st_rerun.

(** [display_df["ID"].unique()]: the values in order of first appearance. *)
Fixpoint unique_from (seen : list string) (l : list string) : list string :=
  match l with
  | [] => []
  | x :: l' =>
      if decide (x ∈ seen) then unique_from seen l'
      else x :: unique_from (x :: seen) l'
  end.
Definition unique (l : list string) : list string := unique_from [] l.

(** [(r["ID"], r["sentence_id"]) in reviewed], the test of the metric
    "Annotated": a NaN sentence_id is in no key of the set. *)
Definition counts_as_done (reviewed : gset sent_key) (r : sentence) : bool :=
  match s_sentence_id r with
  | Some i => bool_decide ((s_ID r, i) ∈ reviewed)
  | None => false
  end.

(** The numbers of the sidebar: [total], [done], [pronoun_count],
    [poems_in_view] and [poems_done]. *)
Definition total_count (display_df : list sentence) : nat := length display_df.
Definition done_count (display_df : list sentence) (reviewed : gset sent_key)
  : nat :=
  length (List.filter (counts_as_done reviewed) display_df).
Definition pronoun_count (annotations : list annot) : nat :=
  length (List.filter is_pronoun_annot annotations).
Definition poems_in_view (display_df : list sentence) : nat :=
  length (unique (s_ID <$> display_df)).
Definition poems_done (display_df : list sentence) (reviewed : gset sent_key)
  : nat :=
  length (List.filter (λ pid, is_poem_fully_annotated pid display_df reviewed)
                      (unique (s_ID <$> display_df))).

(** The annotator of a run of [main]: the name typed in the sidebar,
    stripped.  [None] is the branch that shows the warning and stops the
    script. *)
Definition annotator_of_name (annotator_name : string) : option string :=
  if negb (nonempty annotator_name) || negb (nonempty (strip annotator_name))
  then None
  else Some (strip annotator_name).

(** ** Vocabulary of the further statements *)

Global Instance carries_key_dec poem_id sentence_id a :
  Decision (carries_key poem_id sentence_id a).
Proof. unfold carries_key. apply _. Defined.

(** The requests of the world go through: the secrets are in place and no
    fault is scheduled. *)
Definition store_reachable (w : world) : Prop :=
  is_Some (secrets w) ∧ Forall (λ f, f = None) (faults w).

(** A record as [load_annotations] gives it back after
    [save_annotations_for_sentence] stored it. *)
Definition reloaded (a : annot) : annot :=
  if default false (a_no_pronoun a) then
    {| a_ID := a_ID a;
       a_sentence_id := Some (default 0 (a_sentence_id a));
       a_no_pronoun := Some true;
       a_pronoun := None; a_lemma := None; a_person := None; a_number := None;
       a_is_dropped := None; a_position := None;
       a_uk_match_pos := None; a_gender := None; a_case := None;
       a_en_reference := None |}
  else
    {| a_ID := a_ID a;
       a_sentence_id := Some (default 0 (a_sentence_id a));
       a_no_pronoun := Some false;
       a_pronoun := Some (default "" (a_pronoun a));
       a_lemma := Some (default (default "" (a_pronoun a)) (a_lemma a));
       a_person := Some (default "" (a_person a));
       a_number := Some (default "" (a_number a));
       a_is_dropped := Some (default true (a_is_dropped a));
       a_position := Some (default (default 0 (a_sentence_id a)) (a_position a));
       a_uk_match_pos := None; a_gender := None; a_case := None;
       a_en_reference := None |}.

(** The header of the perspective export. *)
Definition PERSPECTIVE_COLUMNS : list string :=
  [ "ID"; "author"; "date"; "perspective_primary"; "perspective_secondary";
    "text" ].

Definition perspective_line (d : dict) : string :=
  csv_line ((λ c, cell_str (dict_get d c)) <$> PERSPECTIVE_COLUMNS).

(** A row with the defaults of [save_poem_perspective] filled in. *)
Definition stored_perspective (data : persp) : prow :=
  {| p_perspective_primary := default "" (d_perspective_primary data);
     p_perspective_secondary := default "" (d_perspective_secondary data);
     p_author := default "" (d_author data);
     p_poem_date := default "" (d_date data) |}.

(** A world in which requests go through, with a table of perspectives. *)
Definition perspective_world (tbl : gmap (string * string) prow) : world :=
  mk_world (Some ("https://project.supabase.co", "anon-key")) [] [] tbl
           sample_session [].

(** A record with its ["no_pronoun"] key bound to [b]. *)
Definition with_no_pronoun (b : bool) (a : annot) : annot :=
  {| a_ID := a_ID a; a_sentence_id := a_sentence_id a;
     a_no_pronoun := Some b;
     a_pronoun := a_pronoun a; a_lemma := a_lemma a; a_person := a_person a;
     a_number := a_number a; a_is_dropped := a_is_dropped a;
     a_position := a_position a; a_uk_match_pos := a_uk_match_pos a;
     a_gender := a_gender a; a_case := a_case a;
     a_en_reference := a_en_reference a |}.

(** The session after a completed save of a view: the annotations loaded
    afresh, the form emptied, the cursor forced on when asked. *)
Definition session_after_save
    (v : view) (and_next : bool) (loaded : list annot) (s : session_state)
  : session_state :=
  {| annotations := loaded;
     poem_perspectives := poem_perspectives s;
     current_pronouns := [];
     current_sent_key := None;
     force_nav_idx :=
       if and_next then Some (Z.min (idx v + 1) (total v - 1))
       else force_nav_idx s |}.

(** Everything of the world but the perspectives table and the schedule of
    faults. *)
Definition same_surroundings_but_perspectives (w w' : world) : Prop :=
  secrets w' = secrets w ∧ annotations_tbl w' = annotations_tbl w ∧
  session w' = session w ∧ page w' = page w.

Definition sample_perspectives : gmap (string * string) prow :=
  {[ ("olena", "p1") := mk_prow "Mixed" "" "Lesya Ukrainka" "1893";
     ("taras", "p2") := mk_prow "Other" "" "Taras Shevchenko" "1840" ]}.

(** * Properties *)

(** ** The monad and the client *)

Lemma bind_unfold {A B} (m : M A) (f : A → M B) (w : world) :
  (m ≫= f) w =
  match m w with
  | (Ok a, w') => f a w'
  | (Raise e, w') => (Raise e, w')
  end.
Proof. reflexivity. Qed.

Lemma bind_inv {A B} (m : M A) (f : A → M B) w o w' :
  (m ≫= f) w = (o, w') →
  (∃ a w1, m w = (Ok a, w1) ∧ f a w1 = (o, w'))
  ∨ (∃ e, m w = (Raise e, w') ∧ o = Raise e).
Proof.
  rewrite bind_unfold. destruct (m w) as [[a|e] w1].
  - intros H. left. by exists a, w1.
  - intros [= <- <-]. right. by exists e.
Qed.

Lemma try_except_inv {A} (body : M A) (handler : exn → M A) w o w' :
  try_except body handler w = (o, w') →
  (∃ a, body w = (Ok a, w') ∧ o = Ok a)
  ∨ (∃ e w1, body w = (Raise e, w1) ∧ is_Exception e = true ∧
             handler e w1 = (o, w'))
  ∨ (∃ e, body w = (Raise e, w') ∧ is_Exception e = false ∧ o = Raise e).
Proof.
  unfold try_except. destruct (body w) as [[a|e] w1].
  - intros [= <- <-]. left. by exists a.
  - destruct (is_Exception e) eqn:He.
    + intros H. right. left. by exists e, w1.
    + intros [= <- <-]. right. right. by exists e.
Qed.

Lemma for_each_cons {A} (f : A → M unit) x l w :
  for_each f (x :: l) w =
  match f x w with
  | (Ok _, w') => for_each f l w'
  | (Raise e, w') => (Raise e, w')
  end.
Proof. reflexivity. Qed.

Lemma same_surroundings_refl w : same_surroundings w w.
Proof. by repeat split. Qed.

Lemma same_surroundings_trans w1 w2 w3 :
  same_surroundings w1 w2 → same_surroundings w2 w3 → same_surroundings w1 w3.
Proof.
  intros (? & ? & ? & ?) (? & ? & ? & ?).
  repeat split; congruence.
Qed.

Lemma execute_inv {A} (request : world → A * world) w o w' :
  execute request w = (o, w') →
  (∃ msg, o = Raise (APIError msg) ∧ same_surroundings w w' ∧
          annotations_tbl w' = annotations_tbl w ∧
          perspectives_tbl w' = perspectives_tbl w)
  ∨ (∃ fs, o = Ok (request (set_faults fs w)).1 ∧
           w' = (request (set_faults fs w)).2).
Proof.
  unfold execute. intros H.
  destruct (faults w) as [|[msg|] fs] eqn:Hf.
  - right. exists []. replace (set_faults [] w) with w
      by (destruct w; simpl in *; by subst).
    destruct (request w); by simplify_eq.
  - left. exists msg. simplify_eq. by repeat split.
  - right. exists fs. destruct (request _); by simplify_eq.
Qed.

Lemma insert_annotation_inv row w o w' :
  insert_annotation row w = (o, w') →
  same_surroundings w w' ∧
  ((o = Ok tt ∧ annotations_tbl w' = annotations_tbl w ++ [row])
   ∨ (∃ msg, o = Raise (APIError msg) ∧ annotations_tbl w' = annotations_tbl w)).
Proof.
  intros [(msg & -> & ? & ? & ?)|(fs & -> & ->)]%execute_inv.
  - split; [done|]. right. by exists msg.
  - split; [by repeat split|]. by left.
Qed.

Lemma delete_annotations_inv k w o w' :
  delete_annotations k w = (o, w') →
  same_surroundings w w' ∧
  ((o = Ok tt ∧ annotations_tbl w' = rows_off k (annotations_tbl w))
   ∨ (∃ msg, o = Raise (APIError msg) ∧ annotations_tbl w' = annotations_tbl w)).
Proof.
  intros [(msg & -> & ? & ? & ?)|(fs & -> & ->)]%execute_inv.
  - split; [done|]. right. by exists msg.
  - split; [by repeat split|]. by left.
Qed.

Lemma get_supabase_inv w o w' :
  get_supabase w = (o, w') →
  w' = w ∧ ((∃ sb, o = Ok sb ∧ secrets w = Some sb)
            ∨ (o = Raise (KeyError "supabase") ∧ secrets w = None)).
Proof.
  unfold get_supabase. destruct (secrets w) as [sb|]; intros; simplify_eq/=.
  - split; [done|]. left. by exists sb.
  - split; [done|]. by right.
Qed.

(** ** [save_annotations_for_sentence] *)

Lemma annotation_row_key annotator a row :
  annotation_row annotator a = Ok row →
  ∃ ID, a_ID a = Some ID ∧ key_of row = (annotator, ID, default 0 (a_sentence_id a)).
Proof.
  unfold annotation_row. destruct (a_ID a) as [ID|]; [|done].
  intros [= <-]. by exists ID.
Qed.

Lemma annotation_rows_app annotator l1 l2 rows1 rows2 :
  annotation_rows annotator l1 = Ok rows1 →
  annotation_rows annotator l2 = Ok rows2 →
  annotation_rows annotator (l1 ++ l2) = Ok (rows1 ++ rows2).
Proof.
  revert rows1. induction l1 as [|a l1 IH]; intros rows1; simpl.
  - by intros [= <-].
  - destruct (annotation_row annotator a) as [row|]; [|done]. simpl.
    destruct (annotation_rows annotator l1) as [rows|] eqn:E; [|done]. simpl.
    intros [= <-] H2. by rewrite (IH rows eq_refl H2).
Qed.

Lemma insert_record_unfold annotator a w :
  insert_record annotator a w =
  match annotation_row annotator a with
  | Ok row => insert_annotation row w
  | Raise e => (Raise e, w)
  end.
Proof.
  unfold insert_record. rewrite bind_unfold. unfold lift.
  by destruct (annotation_row annotator a).
Qed.

(** The loop of inserts either appends the rows of all records, or stops
    with an exception after the rows of a proper prefix. *)
Lemma insert_loop_inv annotator records : ∀ w o w',
  for_each (insert_record annotator) records w = (o, w') →
  same_surroundings w w' ∧
  ((o = Ok tt ∧ ∃ rows, annotation_rows annotator records = Ok rows ∧
                        annotations_tbl w' = annotations_tbl w ++ rows)
   ∨ (∃ e j rows, o = Raise e ∧ is_Exception e = true ∧
        (j < length records)%nat ∧
        annotation_rows annotator (take j records) = Ok rows ∧
        annotations_tbl w' = annotations_tbl w ++ rows)).
Proof.
  induction records as [|a records IH]; intros w o w'.
  - intros [= <- <-]. split; [apply same_surroundings_refl|].
    left. split; [done|]. exists []. by rewrite app_nil_r.
  - rewrite for_each_cons, insert_record_unfold.
    destruct (annotation_row annotator a) as [row|e] eqn:Hrow.
    + destruct (insert_annotation row w) as [[[]|e] w1] eqn:Hins.
      * apply insert_annotation_inv in Hins as (Hs & [[_ Ht]|(? & ? & _)]); [|done].
        intros (Hs' & Hcases)%IH.
        split; [by eapply same_surroundings_trans|].
        destruct Hcases as [(-> & rows & Hrows & Ht')|
                            (e & j & rows & -> & He & Hj & Hrows & Ht')].
        -- left. split; [done|]. exists (row :: rows). simpl.
           rewrite Hrow, Hrows. simpl.
           by rewrite Ht', Ht, <-app_assoc.
        -- right. exists e, (S j), (row :: rows). simpl.
           rewrite Hrow, Hrows. simpl.
           repeat split; [done|lia|]. by rewrite Ht', Ht, <-app_assoc.
      * apply insert_annotation_inv in Hins as (Hs & [[? _]|(msg & -> & Ht)]); [done|].
        intros [= <- <-]. split; [done|].
        right. exists (APIError msg), 0%nat, []. simpl.
        repeat split; [lia|]. by rewrite Ht, app_nil_r.
    + intros [= <- <-]. split; [apply same_surroundings_refl|].
      right. exists e, 0%nat, []. simpl.
      repeat split; [|lia|by rewrite app_nil_r].
      unfold annotation_row in Hrow. by destruct (a_ID a); simplify_eq/=.
Qed.

Lemma save_annotations_inv annotator poem sid records w o w' :
  save_annotations_for_sentence annotator poem sid records w = (o, w') →
  same_surroundings w w' ∧
  ((o = Ok tt ∧ ∃ rows, annotation_rows annotator records = Ok rows ∧
        annotations_tbl w' = rows_off (annotator, poem, sid) (annotations_tbl w) ++ rows)
   ∨ (∃ msg, o = Raise (RuntimeError msg) ∧
        (annotations_tbl w' = annotations_tbl w
         ∨ ∃ j rows, (j < length records)%nat ∧
             annotation_rows annotator (take j records) = Ok rows ∧
             annotations_tbl w' =
               rows_off (annotator, poem, sid) (annotations_tbl w) ++ rows))).
Proof.
  unfold save_annotations_for_sentence.
  intros [(a & Hbody & ->)|[(e & w1 & Hbody & He & Hh)|(e & Hbody & He & ->)]]
    %try_except_inv.
  - apply bind_inv in Hbody as [(sb & w1 & [-> _]%get_supabase_inv & Hbody)|
                                (? & _ & ?)]; [|done].
    apply bind_inv in Hbody as [([] & w1 & (Hs1 & Ht1)%delete_annotations_inv & Hloop)|
                                (? & _ & ?)]; [|done].
    destruct Ht1 as [[_ Ht1]|(? & ? & _)]; [|done].
    apply insert_loop_inv in Hloop as (Hs2 & [(_ & rows & Hrows & Ht2)|
                                             (? & ? & ? & ? & _)]); [|done].
    split; [by eapply same_surroundings_trans|].
    left. destruct a. split; [done|]. exists rows. by rewrite Ht2, Ht1.
  - unfold raise in Hh. injection Hh as <- <-.
    apply bind_inv in Hbody as [(sb & w2 & [-> _]%get_supabase_inv & Hbody)|
                                (? & [-> _]%get_supabase_inv & _)].
    2:{ split; [apply same_surroundings_refl|].
        right. eexists. split; [done|]. by left. }
    apply bind_inv in Hbody as [([] & w2 & (Hs1 & Ht1)%delete_annotations_inv & Hloop)|
                                (? & (Hs1 & Ht1)%delete_annotations_inv & _)].
    2:{ destruct Ht1 as [[? _]|(msg & _ & Ht1)]; [done|].
        split; [done|]. right. eexists. split; [done|]. by left. }
    destruct Ht1 as [[_ Ht1]|(? & ? & _)]; [|done].
    apply insert_loop_inv in Hloop as (Hs2 & [(? & _)|
        (e' & j & rows & _ & _ & Hj & Hrows & Ht2)]); [done|].
    split; [by eapply same_surroundings_trans|].
    right. eexists. split; [done|]. right. exists j, rows.
    by rewrite Ht2, Ht1.
  - exfalso.
    apply bind_inv in Hbody as [(sb & w2 & [-> _]%get_supabase_inv & Hbody)|
                                (e0 & [-> Hsb]%get_supabase_inv & [= ->])].
    2:{ by destruct Hsb as [(? & ? & _)|[[= ->] _]]. }
    apply bind_inv in Hbody as [([] & w2 & (Hs1 & Ht1)%delete_annotations_inv & Hloop)|
                                (e0 & (Hs1 & Ht1)%delete_annotations_inv & [= ->])].
    2:{ by destruct Ht1 as [[? _]|(msg & [= ->] & _)]. }
    apply insert_loop_inv in Hloop as (_ & [(? & _)|
        (e' & _ & _ & [= <-] & He' & _)]); [done|congruence].
Qed.

Lemma rows_for_app k tbl1 tbl2 :
  rows_for k (tbl1 ++ tbl2) = rows_for k tbl1 ++ rows_for k tbl2.
Proof. apply filter_app. Qed.

Lemma rows_for_rows_off k tbl : rows_for k (rows_off k tbl) = [].
Proof.
  unfold rows_for, rows_off. induction tbl as [|r tbl IH]; [done|].
  rewrite (filter_cons (λ r, key_of r ≠ k)).
  destruct (decide (key_of r ≠ k)) as [Hne|Heq]; [|done].
  by rewrite filter_cons_False.
Qed.

Lemma rows_for_rows_off_ne k k' tbl :
  k' ≠ k → rows_for k' (rows_off k tbl) = rows_for k' tbl.
Proof.
  intros Hne. unfold rows_for, rows_off.
  induction tbl as [|r tbl IH]; [done|].
  rewrite (filter_cons (λ r, key_of r ≠ k)), (filter_cons _ r tbl).
  destruct (decide (key_of r ≠ k)) as [Hr|Hr].
  - rewrite filter_cons. by rewrite IH.
  - destruct (decide (key_of r = k')) as [Hr'|Hr']; [|done].
    destruct Hr. congruence.
Qed.

Lemma rows_for_all k rows :
  Forall (λ r, key_of r = k) rows → rows_for k rows = rows.
Proof.
  unfold rows_for. induction 1 as [|r rows Hr _ IH]; [done|].
  by rewrite filter_cons_True, IH.
Qed.

Lemma rows_for_none k k' rows :
  k' ≠ k → Forall (λ r, key_of r = k) rows → rows_for k' rows = [].
Proof.
  intros Hne. unfold rows_for. induction 1 as [|r rows Hr _ IH]; [done|].
  rewrite filter_cons_False; [done|congruence].
Qed.

Lemma annotation_rows_keys annotator poem sid records rows :
  Forall (carries_key poem sid) records →
  annotation_rows annotator records = Ok rows →
  Forall (λ r, key_of r = (annotator, poem, sid)) rows.
Proof.
  intros Hall. revert rows.
  induction Hall as [|a records [HID Hsid] _ IH]; intros rows; simpl.
  - by intros [= <-].
  - destruct (annotation_row annotator a) as [row|] eqn:Hrow; [|done]. simpl.
    destruct (annotation_rows annotator records) as [rows'|]; [|done]. simpl.
    intros [= <-]. constructor; [|by apply IH].
    apply annotation_row_key in Hrow as (ID & HID' & ->). congruence.
Qed.

Lemma annotation_rows_total annotator records :
  Forall (λ a, is_Some (a_ID a)) records →
  ∃ rows, annotation_rows annotator records = Ok rows.
Proof.
  induction 1 as [|a records [ID HID] _ [rows IH]]; [by exists []|].
  simpl. unfold annotation_row at 1. rewrite HID. simpl. rewrite IH. simpl.
  by eexists.
Qed.

(** With the secrets in place and no fault scheduled, the requests go
    through. *)
Lemma execute_no_fault {A} (request : world → A * world) w :
  Forall (λ f, f = None) (faults w) →
  (∀ w0, faults (request w0).2 = faults w0) →
  ∃ w', execute request w = (Ok (request w').1, (request w').2) ∧
        Forall (λ f, f = None) (faults (request w').2) ∧
        secrets w' = secrets w.
Proof.
  intros Hf Hreq. unfold execute.
  destruct (faults w) as [|f fs] eqn:E.
  - exists w. destruct (request w) eqn:Er. simpl.
    split; [done|]. split; [|done].
    specialize (Hreq w). rewrite Er in Hreq. simpl in Hreq. rewrite Hreq, E.
    constructor.
  - apply Forall_cons in Hf as [-> Hfs].
    exists (set_faults fs w). destruct (request _) eqn:Er. simpl.
    split; [done|]. split; [|done].
    specialize (Hreq (set_faults fs w)). rewrite Er in Hreq. simpl in Hreq.
    by rewrite Hreq.
Qed.

Lemma insert_annotation_no_fault row w :
  Forall (λ f, f = None) (faults w) →
  ∃ w', insert_annotation row w = (Ok tt, w') ∧
        Forall (λ f, f = None) (faults w').
Proof.
  intros Hf. unfold insert_annotation.
  destruct (execute_no_fault
    (λ w, (tt, set_annotations_tbl (annotations_tbl w ++ [row]) w)) w Hf)
    as (w1 & -> & Hf1 & _); [done|].
  by eexists.
Qed.

Lemma delete_annotations_no_fault k w :
  Forall (λ f, f = None) (faults w) →
  ∃ w', delete_annotations k w = (Ok tt, w') ∧
        Forall (λ f, f = None) (faults w').
Proof.
  intros Hf. unfold delete_annotations.
  destruct (execute_no_fault
    (λ w, (tt, set_annotations_tbl
                 (filter (λ r, key_of r ≠ k) (annotations_tbl w)) w)) w Hf)
    as (w1 & -> & Hf1 & _); [done|].
  by eexists.
Qed.

Lemma annotation_row_total annotator a :
  is_Some (a_ID a) → ∃ row, annotation_row annotator a = Ok row.
Proof. intros [ID HID]. unfold annotation_row. rewrite HID. by eexists. Qed.

Lemma insert_loop_total annotator records : ∀ w,
  Forall (λ a, is_Some (a_ID a)) records →
  Forall (λ f, f = None) (faults w) →
  ∃ w', for_each (insert_record annotator) records w = (Ok tt, w').
Proof.
  induction records as [|a records IH]; intros w Hrec Hf; [by eexists|].
  apply Forall_cons in Hrec as [HID Hrec].
  rewrite for_each_cons, insert_record_unfold.
  destruct (annotation_row_total annotator a HID) as [row ->].
  destruct (insert_annotation_no_fault row w Hf) as (w1 & -> & Hf1).
  by apply IH.
Qed.

Lemma save_annotations_total annotator poem sid records w :
  is_Some (secrets w) →
  Forall (λ f, f = None) (faults w) →
  Forall (λ a, is_Some (a_ID a)) records →
  ∃ w', save_annotations_for_sentence annotator poem sid records w = (Ok tt, w').
Proof.
  intros [sb Hsb] Hf Hrec.
  unfold save_annotations_for_sentence, try_except. rewrite bind_unfold.
  unfold get_supabase at 1. rewrite Hsb. cbn [getitem]. rewrite bind_unfold.
  destruct (delete_annotations_no_fault (annotator, poem, sid) w Hf)
    as (w1 & -> & Hf1).
  destruct (insert_loop_total annotator records _ Hrec Hf1) as [w2 ->].
  by exists w2.
Qed.

(** A completed save whose records carry the saved key leaves under that
    key the rows built from the records, and keeps the rows of other keys. *)
Lemma save_completed_rows annotator poem sid records w w' :
  Forall (carries_key poem sid) records →
  save_annotations_for_sentence annotator poem sid records w = (Ok tt, w') →
  ∃ rows, annotation_rows annotator records = Ok rows ∧
    rows_for (annotator, poem, sid) (annotations_tbl w') = rows ∧
    annotations_tbl w' =
      rows_off (annotator, poem, sid) (annotations_tbl w) ++ rows.
Proof.
  intros Hkey (_ & [(_ & rows & Hrows & Ht)|(? & ? & _)])%save_annotations_inv;
    [|done].
  exists rows. repeat split; [done| |done].
  rewrite Ht, rows_for_app, rows_for_rows_off. simpl.
  apply rows_for_all. by eapply annotation_rows_keys.
Qed.

(** C1 (as amended): when every record carries the saved poem ID and
    sentence ID, a completed [save_annotations_for_sentence] replaces the
    rows of the key wholesale.  Afterwards the rows stored under the key are
    exactly the rows built from the records, in order: the old rows of the
    key are deleted, the new ones appended, and every other row is kept.
    With the secrets in place and no fault scheduled the call completes. *)
Theorem save_replaces_sentence_rows annotator poem sid records w :
  Forall (carries_key poem sid) records →
  (∀ w', save_annotations_for_sentence annotator poem sid records w = (Ok tt, w') →
     ∃ rows, annotation_rows annotator records = Ok rows ∧
       rows_for (annotator, poem, sid) (annotations_tbl w') = rows ∧
       annotations_tbl w' =
         rows_off (annotator, poem, sid) (annotations_tbl w) ++ rows)
  ∧ (is_Some (secrets w) → Forall (λ f, f = None) (faults w) →
     ∃ w', save_annotations_for_sentence annotator poem sid records w = (Ok tt, w')).
Proof.
  intros Hkey. split.
  - intros w'. by apply save_completed_rows.
  - intros Hsb Hf. apply save_annotations_total; [done..|].
    eapply Forall_impl; [exact Hkey|]. intros a [-> _]. by eexists.
Qed.

Lemma save_replaces_sentence_rows_witness :
  ∃ rows,
    annotation_rows "olena" [pronoun_record "p1" 3 "ya"; pronoun_record "p1" 3 "ty"]
      = Ok rows ∧
    rows_for ("olena", "p1", 3)
      (annotations_tbl
         (sample_world [] [pronoun_row "olena" "p1" 2 "my";
                           pronoun_row "olena" "p1" 3 "ya";
                           pronoun_row "olena" "p1" 3 "ty"])) = rows.
Proof.
  destruct (save_replaces_sentence_rows "olena" "p1" 3
              [pronoun_record "p1" 3 "ya"; pronoun_record "p1" 3 "ty"]
              (sample_world [] [pronoun_row "olena" "p1" 2 "my";
                                marker_row "olena" "p1" 3])) as [Hdone _].
  { repeat constructor. }
  destruct (Hdone (sample_world [] [pronoun_row "olena" "p1" 2 "my";
                                    pronoun_row "olena" "p1" 3 "ya";
                                    pronoun_row "olena" "p1" 3 "ty"]))
    as (rows & Hrows & Hfor & _); [reflexivity|].
  by exists rows.
Defined.

(** C1, counterexample: records that name another poem than the one the
    call is made for.  The call completes, yet the key it was made for holds
    no row afterwards, while one row is built from the records (it is
    stored under the key the record names). *)
Lemma save_replaces_counterexample :
  save_annotations_for_sentence "olena" "p1" 3 [pronoun_record "p2" 3 "ya"]
    (sample_world [] [])
  = (Ok tt, sample_world [] [pronoun_row "olena" "p2" 3 "ya"])
  ∧ annotation_rows "olena" [pronoun_record "p2" 3 "ya"]
    = Ok [pronoun_row "olena" "p2" 3 "ya"]
  ∧ rows_for ("olena", "p1", 3)
      (annotations_tbl (sample_world [] [pronoun_row "olena" "p2" 3 "ya"]))
    = []
  ∧ rows_for ("olena", "p1", 3)
      (annotations_tbl (sample_world [] [pronoun_row "olena" "p2" 3 "ya"]))
    ≠ [pronoun_row "olena" "p2" 3 "ya"].
Proof. repeat split. by vm_compute. Qed.

(** C3 (as amended): the save is not atomic.  The delete and each insert
    are requests of their own, and a save that fails raises [RuntimeError]
    and leaves the table either as it was (the failure came before or at the
    delete) or with the old rows of the key deleted and the rows of only the
    first [j] records inserted, for some [j] below the number of records;
    nothing else of the world changes. *)
Theorem failed_save_leaves_prefix annotator poem sid records w e w' :
  save_annotations_for_sentence annotator poem sid records w = (Raise e, w') →
  (∃ msg, e = RuntimeError msg) ∧
  same_surroundings w w' ∧
  (annotations_tbl w' = annotations_tbl w
   ∨ ∃ j rows, (j < length records)%nat ∧
       annotation_rows annotator (take j records) = Ok rows ∧
       annotations_tbl w' =
         rows_off (annotator, poem, sid) (annotations_tbl w) ++ rows).
Proof.
  intros (Hs & [(? & _)|(msg & [= ->] & Ht)])%save_annotations_inv; [done|].
  split; [by exists msg|]. by split.
Qed.

Lemma failed_save_leaves_prefix_witness :
  (∃ msg, RuntimeError "Failed to save annotations: timeout" = RuntimeError msg) ∧
  same_surroundings
    (sample_world [None; None; Some "timeout"] [marker_row "olena" "p1" 3])
    (sample_world [] [pronoun_row "olena" "p1" 3 "ya"]) ∧
  (annotations_tbl (sample_world [] [pronoun_row "olena" "p1" 3 "ya"])
   = annotations_tbl
       (sample_world [None; None; Some "timeout"] [marker_row "olena" "p1" 3])
   ∨ ∃ j rows, (j < 2)%nat ∧
       annotation_rows "olena"
         (take j [pronoun_record "p1" 3 "ya"; pronoun_record "p1" 3 "ty"])
       = Ok rows ∧
       annotations_tbl (sample_world [] [pronoun_row "olena" "p1" 3 "ya"]) =
         rows_off ("olena", "p1", 3)
           (annotations_tbl
              (sample_world [None; None; Some "timeout"]
                            [marker_row "olena" "p1" 3])) ++ rows).
Proof.
  apply (failed_save_leaves_prefix "olena" "p1" 3
           [pronoun_record "p1" 3 "ya"; pronoun_record "p1" 3 "ty"]
           (sample_world [None; None; Some "timeout"] [marker_row "olena" "p1" 3])).
  reflexivity.
Defined.

(** C3, counterexample: the request of the second insert fails.  The save
    raises, and the key is left with one row: neither the marker stored
    before the save nor the two rows of the records. *)
Lemma save_not_atomic_counterexample :
  save_annotations_for_sentence "olena" "p1" 3
    [pronoun_record "p1" 3 "ya"; pronoun_record "p1" 3 "ty"]
    (sample_world [None; None; Some "timeout"] [marker_row "olena" "p1" 3])
  = (Raise (RuntimeError "Failed to save annotations: timeout"),
     sample_world [] [pronoun_row "olena" "p1" 3 "ya"])
  ∧ rows_for ("olena", "p1", 3) [pronoun_row "olena" "p1" 3 "ya"]
    ≠ rows_for ("olena", "p1", 3) [marker_row "olena" "p1" 3]
  ∧ annotation_rows "olena"
      [pronoun_record "p1" 3 "ya"; pronoun_record "p1" 3 "ty"]
    = Ok [pronoun_row "olena" "p1" 3 "ya"; pronoun_row "olena" "p1" 3 "ty"]
  ∧ rows_for ("olena", "p1", 3) [pronoun_row "olena" "p1" 3 "ya"]
    ≠ [pronoun_row "olena" "p1" 3 "ya"; pronoun_row "olena" "p1" 3 "ty"].
Proof. repeat split; by vm_compute. Qed.

(** The same happens without any fault of the store, when a record of the
    list lacks its ["ID"]: the rows of the records before it are already
    inserted when the [KeyError] is raised. *)
Example save_stops_at_record_without_ID :
  save_annotations_for_sentence "olena" "p1" 3
    [pronoun_record "p1" 3 "ya";
     mk_annot None (Some 3) None (Some "ty") None None None None None
              None None None None]
    (sample_world [] [marker_row "olena" "p1" 3])
  = (Raise (RuntimeError "Failed to save annotations: 'ID'"),
     sample_world [] [pronoun_row "olena" "p1" 3 "ya"]).
Proof. reflexivity. Qed.

(** ** [save_poem_perspective] *)

Lemma upsert_perspective_inv annotator poem row w o w' :
  upsert_perspective annotator poem row w = (o, w') →
  annotations_tbl w' = annotations_tbl w ∧
  (perspectives_tbl w' = perspectives_tbl w
   ∨ perspectives_tbl w' = <[(annotator, poem) := row]> (perspectives_tbl w)).
Proof.
  intros [(msg & -> & ? & ? & ?)|(fs & -> & ->)]%execute_inv.
  - by split; [|left].
  - by split; [|right].
Qed.

Lemma save_poem_perspective_inv annotator poem data w o w' :
  save_poem_perspective annotator poem data w = (o, w') →
  annotations_tbl w' = annotations_tbl w ∧
  (perspectives_tbl w' = perspectives_tbl w
   ∨ ∃ row, perspectives_tbl w' = <[(annotator, poem) := row]> (perspectives_tbl w)).
Proof.
  unfold save_poem_perspective.
  intros [(a & Hbody & ->)|[(e & w1 & Hbody & He & Hh)|(e & Hbody & He & ->)]]
    %try_except_inv.
  - apply bind_inv in Hbody as [(sb & w1 & [-> _]%get_supabase_inv & Hbody)|
                                (? & [-> _]%get_supabase_inv & _)]; [|by split; [|left]].
    apply upsert_perspective_inv in Hbody as [? [?|?]]; eauto.
  - unfold raise in Hh. injection Hh as <- <-.
    apply bind_inv in Hbody as [(sb & w2 & [-> _]%get_supabase_inv & Hbody)|
                                (? & [-> _]%get_supabase_inv & _)]; [|by split; [|left]].
    apply upsert_perspective_inv in Hbody as [? [?|?]]; eauto.
  - apply bind_inv in Hbody as [(sb & w2 & [-> _]%get_supabase_inv & Hbody)|
                                (? & [-> _]%get_supabase_inv & _)]; [|by split; [|left]].
    apply upsert_perspective_inv in Hbody as [? [?|?]]; eauto.
Qed.

(** C7 (as amended): saving is keyed by what the records name.
    [save_annotations_for_sentence] never deletes or changes a row stored
    under another key than the saved one: the rows of such a key stay, in
    order, at the head of the rows of that key.  When every record carries
    the saved poem ID and sentence ID, the rows of every other key are the
    same before and after.  [save_poem_perspective] leaves the perspective
    row of every other (annotator, poem) key as it was.  All of this holds
    whether the call completes or raises. *)
Theorem saves_are_keyed :
  (∀ annotator poem sid records w o w',
     save_annotations_for_sentence annotator poem sid records w = (o, w') →
     ∀ k', k' ≠ (annotator, poem, sid) →
       rows_for k' (annotations_tbl w) `prefix_of` rows_for k' (annotations_tbl w')
       ∧ (Forall (carries_key poem sid) records →
          rows_for k' (annotations_tbl w') = rows_for k' (annotations_tbl w)))
  ∧ (∀ annotator poem data w o w',
       save_poem_perspective annotator poem data w = (o, w') →
       ∀ k', k' ≠ (annotator, poem) →
         perspectives_tbl w' !! k' = perspectives_tbl w !! k').
Proof.
  split.
  - intros annotator poem sid records w o w' Hsave k' Hk'.
    assert (∃ j rows, annotation_rows annotator (take j records) = Ok rows ∧
              (annotations_tbl w' = annotations_tbl w ∨
               annotations_tbl w' =
                 rows_off (annotator, poem, sid) (annotations_tbl w) ++ rows))
      as (j & rows & Hrows & Ht).
    { apply save_annotations_inv in Hsave
        as (_ & [(_ & rows & Hrows & Ht)|(msg & _ & [Ht|(j & rows & _ & Hrows & Ht)])]).
      - exists (length records), rows. rewrite firstn_all. by split; [|right].
      - exists 0%nat, []. by split; [|left].
      - exists j, rows. by split; [|right]. }
    destruct Ht as [->| ->]; [done|].
    rewrite rows_for_app, rows_for_rows_off_ne by done. split.
    + by eexists.
    + intros Hkey.
      rewrite (rows_for_none (annotator, poem, sid) k' rows), app_nil_r; [done..|].
      eapply annotation_rows_keys; [|exact Hrows].
      by apply Forall_take.
  - intros annotator poem data w o w' Hsave k' Hk'.
    apply save_poem_perspective_inv in Hsave as (_ & [->|[row ->]]); [done|].
    by rewrite lookup_insert_ne.
Qed.

Lemma saves_are_keyed_witness :
  rows_for ("olena", "p1", 2)
    (annotations_tbl (sample_world [] [pronoun_row "olena" "p1" 2 "my";
                                      pronoun_row "olena" "p1" 3 "ya"]))
  = rows_for ("olena", "p1", 2)
    (annotations_tbl (sample_world [] [pronoun_row "olena" "p1" 2 "my";
                                      marker_row "olena" "p1" 3])).
Proof.
  destruct saves_are_keyed as [Hannot _].
  destruct (Hannot "olena" "p1" 3 [pronoun_record "p1" 3 "ya"]
              (sample_world [] [pronoun_row "olena" "p1" 2 "my";
                                marker_row "olena" "p1" 3])
              (Ok tt)
              (sample_world [] [pronoun_row "olena" "p1" 2 "my";
                                pronoun_row "olena" "p1" 3 "ya"])
              eq_refl ("olena", "p1", 2)) as [_ Hsame].
  { intros [= ?]. }
  apply Hsame. repeat constructor.
Defined.

(** C7, counterexample: a record that names poem [p2] is saved under poem
    [p1].  The rows stored under the key of [p2], which is not the saved
    key, are not the same before and after: a row was added there. *)
Lemma saves_are_keyed_counterexample :
  save_annotations_for_sentence "olena" "p1" 3 [pronoun_record "p2" 3 "vin"]
    (sample_world [] [marker_row "olena" "p1" 3; pronoun_row "olena" "p2" 3 "ya"])
  = (Ok tt, sample_world [] [pronoun_row "olena" "p2" 3 "ya";
                             pronoun_row "olena" "p2" 3 "vin"])
  ∧ ("olena", "p2", 3) ≠ ("olena", "p1", 3)
  ∧ rows_for ("olena", "p2", 3)
      [pronoun_row "olena" "p2" 3 "ya"; pronoun_row "olena" "p2" 3 "vin"]
    ≠ rows_for ("olena", "p2", 3)
        [marker_row "olena" "p1" 3; pronoun_row "olena" "p2" 3 "ya"].
Proof. repeat split; by vm_compute. Qed.

(** ** Loading *)

Lemma select_annotations_raises annotator w e w' :
  select_annotations annotator w = (Raise e, w') → is_Exception e = true.
Proof.
  intros [(msg & [= ->] & _)|(fs & ? & _)]%execute_inv; done.
Qed.

Lemma select_perspectives_raises annotator w e w' :
  select_perspectives annotator w = (Raise e, w') → is_Exception e = true.
Proof.
  intros [(msg & [= ->] & _)|(fs & ? & _)]%execute_inv; done.
Qed.

Lemma load_annotations_body_raises annotator w e w' :
  load_annotations_body annotator w = (Raise e, w') → is_Exception e = true.
Proof.
  unfold load_annotations_body.
  intros [(sb & w1 & _ & Hrest)|(e0 & [_ Hsb]%get_supabase_inv & [= ->])]%bind_inv.
  - apply bind_inv in Hrest as [(rows & w2 & _ & ?)|(e0 & Hsel & [= ->])]; [done|].
    by eapply select_annotations_raises.
  - by destruct Hsb as [(? & ? & _)|[[= ->] _]].
Qed.

Lemma load_poem_perspectives_body_raises annotator w e w' :
  load_poem_perspectives_body annotator w = (Raise e, w') → is_Exception e = true.
Proof.
  unfold load_poem_perspectives_body.
  intros [(sb & w1 & _ & Hrest)|(e0 & [_ Hsb]%get_supabase_inv & [= ->])]%bind_inv.
  - apply bind_inv in Hrest as [(rows & w2 & _ & ?)|(e0 & Hsel & [= ->])]; [done|].
    by eapply select_perspectives_raises.
  - by destruct Hsb as [(? & ? & _)|[[= ->] _]].
Qed.

(** What [load_annotations] returns, by the outcome of its [try] body. *)
Lemma load_annotations_cases annotator w :
  match load_annotations_body annotator w with
  | (Ok out, w') => load_annotations annotator w = (Ok out, w')
  | (Raise e, w') =>
      load_annotations annotator w =
      (Ok [], show (st_error ("Failed to load annotations: " +:+ exn_str e)) w')
  end.
Proof.
  unfold load_annotations, try_except.
  destruct (load_annotations_body annotator w) as [[out|e] w'] eqn:Hbody; [done|].
  by rewrite (load_annotations_body_raises _ _ _ _ Hbody).
Qed.

Lemma load_poem_perspectives_cases annotator w :
  match load_poem_perspectives_body annotator w with
  | (Ok out, w') => load_poem_perspectives annotator w = (Ok out, w')
  | (Raise e, w') =>
      load_poem_perspectives annotator w =
      (Ok ∅, show (st_error ("Failed to load poem perspectives: " +:+ exn_str e)) w')
  end.
Proof.
  unfold load_poem_perspectives, try_except.
  destruct (load_poem_perspectives_body annotator w) as [[out|e] w'] eqn:Hbody;
    [done|].
  by rewrite (load_poem_perspectives_body_raises _ _ _ _ Hbody).
Qed.

(** C9: the load operations never raise.  Each returns a value in every
    world; when its body fails with [e], [load_annotations] puts the error
    message on the page and returns the empty list, and
    [load_poem_perspectives] puts its error message on the page and returns
    the empty dictionary. *)
Theorem loads_never_raise annotator w :
  (∃ out w', load_annotations annotator w = (Ok out, w'))
  ∧ (∀ e w1, load_annotations_body annotator w = (Raise e, w1) →
       load_annotations annotator w =
       (Ok [], show (st_error ("Failed to load annotations: " +:+ exn_str e)) w1))
  ∧ (∃ out w', load_poem_perspectives annotator w = (Ok out, w'))
  ∧ (∀ e w1, load_poem_perspectives_body annotator w = (Raise e, w1) →
       load_poem_perspectives annotator w =
       (Ok ∅, show (st_error ("Failed to load poem perspectives: " +:+ exn_str e)) w1)).
Proof.
  pose proof (load_annotations_cases annotator w) as Ha.
  pose proof (load_poem_perspectives_cases annotator w) as Hp.
  destruct (load_annotations_body annotator w) as [[out|e] w1];
    destruct (load_poem_perspectives_body annotator w) as [[outp|ep] w2];
    repeat split; eauto; intros ?? [= <- <-]; done.
Qed.

Lemma loads_never_raise_witness :
  load_annotations "olena" offline_world =
  (Ok [], show (st_error "Failed to load annotations: 'supabase'") offline_world)
  ∧ load_poem_perspectives "olena" offline_world =
    (Ok ∅, show (st_error "Failed to load poem perspectives: 'supabase'")
                offline_world).
Proof.
  destruct (loads_never_raise "olena" offline_world) as (_ & Ha & _ & Hp).
  split.
  - apply (Ha (KeyError "supabase") offline_world). reflexivity.
  - apply (Hp (KeyError "supabase") offline_world). reflexivity.
Defined.

(** ** Review status *)

Lemma all_reviewed_spec (poem_sents : list sentence) (reviewed : gset sent_key) :
  all_reviewed poem_sents reviewed = true ↔
  ∀ r, r ∈ poem_sents → sentence_key r ∈ reviewed.
Proof.
  induction poem_sents as [|r rest IH]; simpl.
  - split; [|done]. intros _ r Hr. by apply elem_of_nil in Hr.
  - destruct (decide (sentence_key r ∉ reviewed)) as [Hr|Hr].
    + split; [done|]. intros H. destruct Hr. apply H. left.
    + apply dec_stable in Hr. rewrite IH. split.
      * intros H r' [->|?]%elem_of_cons; auto.
      * intros H r' ?. apply H. by right.
Qed.

(** C5 (as amended): [is_poem_fully_annotated] returns [True] exactly when
    the table has at least one sentence of the poem and the key of every
    sentence of the poem (its poem ID with its sentence_id, a missing
    sentence_id counting as 0) is in the reviewed set.  For a poem with no
    sentence in the table it returns [False]. *)
Theorem is_poem_fully_annotated_spec
    (poem_id : string) (display_df : list sentence) (reviewed : gset sent_key) :
  is_poem_fully_annotated poem_id display_df reviewed = true ↔
  (∃ r, r ∈ display_df ∧ s_ID r = poem_id) ∧
  (∀ r, r ∈ display_df → s_ID r = poem_id → sentence_key r ∈ reviewed).
Proof.
  unfold is_poem_fully_annotated.
  destruct (filter (λ r, s_ID r = poem_id) display_df) as [|r0 rest] eqn:Hf.
  - split; [done|]. intros [(r & Hr & HID) _].
    assert (r ∈ filter (λ r, s_ID r = poem_id) display_df) as Hin
      by by apply list_elem_of_filter.
    rewrite Hf in Hin. by apply elem_of_nil in Hin.
  - rewrite all_reviewed_spec, <-Hf. split.
    + intros Hall. split.
      * exists r0. assert (r0 ∈ filter (λ r, s_ID r = poem_id) display_df) as Hin
          by (rewrite Hf; left).
        apply list_elem_of_filter in Hin as [? ?]. by split.
      * intros r Hr HID. apply Hall. by apply list_elem_of_filter.
    + intros [_ Hall] r [HID Hr]%list_elem_of_filter. by apply Hall.
Qed.

(** C5, counterexample: the table holds a sentence of poem [p1] only and
    the question is asked for poem [p9].  Every sentence of [p9] in the
    table is reviewed, there being none, and the function returns [False]. *)
Lemma is_poem_fully_annotated_counterexample :
  is_poem_fully_annotated "p9" [sample_sentence "p1" 1 "first"] ∅ = false
  ∧ (∀ r, r ∈ [sample_sentence "p1" 1 "first"] → s_ID r = "p9" →
          sentence_key r ∈ (∅ : gset sent_key)).
Proof.
  split; [reflexivity|].
  intros r [->|Hr]%elem_of_cons; [done|]. by apply elem_of_nil in Hr.
Qed.

(** The reviewed set holds the keys of the annotations. *)
Lemma elem_of_get_reviewed_sentences
    (annotations : list annot) (reviewed : gset sent_key) (k : sent_key) :
  get_reviewed_sentences annotations = Ok reviewed →
  k ∈ reviewed ↔
  ∃ a, a ∈ annotations ∧ a_ID a = Some k.1 ∧ default 0 (a_sentence_id a) = k.2.
Proof.
  revert reviewed. induction annotations as [|a rest IH]; intros reviewed; simpl.
  - intros [= <-]. split; [set_solver|].
    intros (a & Ha & _). by apply elem_of_nil in Ha.
  - destruct (a_ID a) as [ID|] eqn:HID; [|done]. simpl.
    destruct (get_reviewed_sentences rest) as [rev'|]; [|done]. simpl.
    intros [= <-]. rewrite elem_of_union, elem_of_singleton, (IH rev' eq_refl).
    split.
    + intros [->|(a' & Ha' & H1 & H2)].
      * exists a. split; [left|]. by rewrite HID.
      * exists a'. split; [by right|done].
    + intros (a' & [->|Ha']%elem_of_cons & H1 & H2).
      * left. destruct k as [k1 k2]. simpl in *. congruence.
      * right. by exists a'.
Qed.

(** ** [str.strip] *)

Lemma lstrip_list_head l c l' :
  lstrip_list l = c :: l' → is_space c = false.
Proof.
  induction l as [|x l IH]; simpl; [done|].
  destruct (is_space x) eqn:Hx; [done|]. by intros [= <- _].
Qed.

Lemma lstrip_list_fixed l :
  (∀ c l', l = c :: l' → is_space c = false) → lstrip_list l = l.
Proof.
  destruct l as [|c l]; [done|]. intros H. simpl.
  by rewrite (H c l eq_refl).
Qed.

Lemma lstrip_list_suffix l : ∃ dropped, l = dropped ++ lstrip_list l.
Proof.
  induction l as [|x l [dropped IH]]; simpl; [by exists []|].
  destruct (is_space x).
  - exists (x :: dropped). simpl. by f_equal.
  - by exists [].
Qed.

Lemma rstrip_list_prefix l : ∃ dropped, l = rstrip_list l ++ dropped.
Proof.
  unfold rstrip_list. destruct (lstrip_list_suffix (reverse l)) as [dropped H].
  exists (reverse dropped).
  rewrite <-reverse_app, <-H. by rewrite reverse_involutive.
Qed.

Lemma rstrip_list_fixed l : rstrip_list (rstrip_list l) = rstrip_list l.
Proof.
  unfold rstrip_list. rewrite reverse_involutive. f_equal.
  apply lstrip_list_fixed. intros c l'. apply lstrip_list_head.
Qed.

Lemma strip_list_fixed l :
  let stripped := rstrip_list (lstrip_list l) in
  rstrip_list (lstrip_list stripped) = stripped.
Proof.
  intros stripped. rewrite (lstrip_list_fixed stripped).
  - apply rstrip_list_fixed.
  - intros c l' Hc.
    destruct (rstrip_list_prefix (lstrip_list l)) as [dropped Hd].
    fold stripped in Hd. rewrite Hc in Hd.
    by apply lstrip_list_head in Hd.
Qed.

Lemma strip_idempotent s : strip (strip s) = strip s.
Proof.
  unfold strip. rewrite String.list_ascii_of_string_of_list_ascii.
  f_equal. apply strip_list_fixed.
Qed.

Lemma nonempty_true s : nonempty s = true ↔ s ≠ "".
Proof. by destruct s. Qed.

(** ** The save buttons *)

Lemma update_session_run f w :
  update_session f w = (Ok tt, set_session (f (session w)) w).
Proof. reflexivity. Qed.

Lemma finish_save_run v and_next w :
  ∃ w', finish_save v and_next w = (Raise RerunException, w') ∧
        annotations_tbl w' = annotations_tbl w ∧ page w' = page w.
Proof.
  unfold finish_save, st_rerun, raise. rewrite !bind_unfold.
  rewrite !update_session_run. rewrite !bind_unfold.
  destruct and_next; rewrite ?update_session_run; by eexists.
Qed.

Lemma load_annotations_tbl annotator w o w' :
  load_annotations annotator w = (o, w') →
  annotations_tbl w' = annotations_tbl w.
Proof.
  pose proof (load_annotations_cases annotator w) as Hc.
  destruct (load_annotations_body annotator w) as [[out|e] w1] eqn:Hbody;
    rewrite Hc; intros [= <- <-];
    unfold load_annotations_body in Hbody;
    apply bind_inv in Hbody as [(sb & w2 & [-> _]%get_supabase_inv & Hbody)|
                                (? & [-> _]%get_supabase_inv & _)]; try done;
    apply bind_inv in Hbody as [(rows & w2 & Hsel & Hret)|(? & Hsel & _)];
    try (injection Hret as <- <-);
    by apply execute_inv in Hsel as [(? & _ & _ & ? & _)|(? & _ & ->)].
Qed.

(** What a save through [_save_sentence_and_reload] followed by
    [finish_save] does to the table: the effect of
    [save_annotations_for_sentence], and a rerun exactly when it completed. *)
Lemma save_and_finish_inv v records and_next w o w' :
  (_save_sentence_and_reload v records;; finish_save v and_next) w = (o, w') →
  ∃ o1 w1,
    save_annotations_for_sentence
      (annotator_id v) (s_ID (row v)) (sentence_id_of (row v)) records w = (o1, w1)
    ∧ annotations_tbl w' = annotations_tbl w1
    ∧ (o = Raise RerunException ↔ o1 = Ok tt).
Proof.
  unfold _save_sentence_and_reload.
  intros [([] & w3 & Hsr & Hfin)|(e & Hsr & ->)]%bind_inv.
  - apply bind_inv in Hsr as [([] & w1 & Hsave & Hrest)|(? & _ & ?)]; [|done].
    apply bind_inv in Hrest as [(loaded & w2 & Hload & Hup)|(? & _ & ?)]; [|done].
    rewrite update_session_run in Hup. injection Hup as <-.
    destruct (finish_save_run v and_next (set_session (set_annotations loaded (session w2)) w2))
      as (w4 & Hfin' & Ht & _).
    rewrite Hfin' in Hfin. injection Hfin as <- <-.
    exists (Ok tt), w1. split; [done|]. split; [|done].
    rewrite Ht. simpl. by eapply load_annotations_tbl.
  - apply bind_inv in Hsr as [([] & w1 & Hsave & Hrest)|(e0 & Hsave & [= ->])].
    + exfalso.
      apply bind_inv in Hrest as [(loaded & w2 & Hload & Hup)|(e0 & Hload & [= ->])].
      * by rewrite update_session_run in Hup.
      * pose proof (load_annotations_cases (annotator_id v) w1) as Hc.
        destruct (load_annotations_body (annotator_id v) w1) as [[?|?] ?];
          congruence.
    + exists (Raise e0), w'. split; [done|]. split; [done|].
      apply save_annotations_inv in Hsave as (_ & [(? & _)|(msg & [= ->] & _)]); [done|].
      by split.
Qed.

Lemma annotation_rows_Forall annotator (P : annot → Prop) (Q : arow → Prop)
    records rows :
  (∀ a row, P a → annotation_row annotator a = Ok row → Q row) →
  Forall P records →
  annotation_rows annotator records = Ok rows →
  Forall Q rows.
Proof.
  intros HPQ Hall. revert rows.
  induction Hall as [|a records Ha _ IH]; intros rows; simpl.
  - by intros [= <-].
  - destruct (annotation_row annotator a) as [row|] eqn:Hrow; [|done]. simpl.
    destruct (annotation_rows annotator records) as [rows'|]; [|done]. simpl.
    intros [= <-]. constructor; [by eapply HPQ|by apply IH].
Qed.

Lemma sentence_state_pronouns rows :
  Forall (λ r, r_no_pronoun r = false) rows → sentence_state rows.
Proof.
  destruct rows as [|r rows]; [by left|].
  intros H. right. right. by split.
Qed.

(** A save whose records carry the saved key, and of which every prefix
    builds rows in an allowed state, keeps every sentence in an allowed
    state, also when it fails half way. *)
Lemma save_keeps_states annotator poem sid records w o w' :
  Forall (carries_key poem sid) records →
  (∀ j rows, annotation_rows annotator (take j records) = Ok rows →
             sentence_state rows) →
  save_annotations_for_sentence annotator poem sid records w = (o, w') →
  (o = Ok tt →
   sentence_state (rows_for (annotator, poem, sid) (annotations_tbl w')))
  ∧ ((∀ k, sentence_state (rows_for k (annotations_tbl w))) →
     ∀ k, sentence_state (rows_for k (annotations_tbl w'))).
Proof.
  intros Hkey Hstates Hsave.
  assert (∀ j rows k,
            annotation_rows annotator (take j records) = Ok rows →
            (∀ k, sentence_state (rows_for k (annotations_tbl w))) ∨
              k = (annotator, poem, sid) →
            sentence_state
              (rows_for k (rows_off (annotator, poem, sid) (annotations_tbl w) ++ rows)))
    as Hafter.
  { intros j rows k Hrows Hbefore. rewrite rows_for_app.
    assert (Forall (λ r, key_of r = (annotator, poem, sid)) rows) as Hkeys.
    { eapply annotation_rows_keys; [|exact Hrows]. by apply Forall_take. }
    destruct (decide (k = (annotator, poem, sid))) as [->|Hk].
    - rewrite rows_for_rows_off. rewrite rows_for_all by done.
      simpl. by eapply Hstates.
    - destruct Hbefore as [Hbefore|?]; [|done].
      rewrite rows_for_rows_off_ne by done.
      rewrite (rows_for_none (annotator, poem, sid) k rows) by done.
      rewrite app_nil_r. apply Hbefore. }
  apply save_annotations_inv in Hsave
    as (_ & [(-> & rows & Hrows & ->)|(msg & -> & [->|(j & rows & _ & Hrows & ->)])]).
  - rewrite <-(firstn_all records) in Hrows. split.
    + intros _. eapply Hafter; [exact Hrows|by right].
    + intros Hbefore k. eapply Hafter; [exact Hrows|by left].
  - by split.
  - split; [done|]. intros Hbefore k. eapply Hafter; [exact Hrows|by left].
Qed.

Lemma strip_empty : strip "" = "".
Proof. reflexivity. Qed.

Lemma has_pronoun_text_Some p :
  has_pronoun_text p = true → ∃ s, a_pronoun p = Some s.
Proof.
  unfold has_pronoun_text. destruct (a_pronoun p) as [s|]; [by exists s|].
  by vm_compute.
Qed.

(** [_do_save] skips the entries without pronoun text and turns each of the
    others into a record. *)
Lemma entry_records_spec v pronouns :
  entry_records v pronouns =
  Ok (saved_entry v <$> List.filter has_pronoun_text pronouns).
Proof.
  induction pronouns as [|p rest IH]; [done|]. simpl.
  destruct (has_pronoun_text p) eqn:Hp; [|done].
  destruct (has_pronoun_text_Some p Hp) as [s Hs].
  unfold entry_record. rewrite Hs. simpl. rewrite IH. simpl.
  unfold saved_entry. by rewrite Hs.
Qed.

Lemma saved_entry_row v p row :
  has_pronoun_text p = true →
  annotation_row (annotator_id v) (saved_entry v p) = Ok row →
  key_of row = view_key v ∧ has_stripped_pronoun row.
Proof.
  intros Hp [= <-]. split; [done|]. split; [done|]. simpl.
  eexists. split; [done|]. simpl. split.
  - by apply nonempty_true.
  - apply strip_idempotent.
Qed.

Lemma saved_entries_carry_key v pronouns :
  Forall (carries_key (s_ID (row v)) (sentence_id_of (row v)))
         (saved_entry v <$> pronouns).
Proof. apply Forall_fmap, Forall_true. by intros p. Qed.

Lemma filter_has_pronoun_text pronouns :
  Forall (λ p, has_pronoun_text p = true) (List.filter has_pronoun_text pronouns).
Proof.
  apply List.Forall_forall. intros p [_ Hp]%List.filter_In. done.
Qed.

Lemma saved_entries_rows v pronouns j rows :
  annotation_rows (annotator_id v)
    (take j (saved_entry v <$> List.filter has_pronoun_text pronouns)) = Ok rows →
  Forall has_stripped_pronoun rows.
Proof.
  rewrite <-fmap_take.
  assert (Forall (λ p, has_pronoun_text p = true)
            (take j (List.filter has_pronoun_text pronouns))) as Hall
    by apply Forall_take, filter_has_pronoun_text.
  revert Hall. generalize (take j (List.filter has_pronoun_text pronouns)).
  intros l Hl Hrows.
  eapply (annotation_rows_Forall _ (λ a, ∃ p, has_pronoun_text p = true ∧
                                            a = saved_entry v p));
    [| |exact Hrows].
  - intros a row (p & Hp & ->) Hrow.
    by destruct (saved_entry_row v p row Hp Hrow).
  - apply Forall_fmap. eapply Forall_impl; [exact Hl|]. intros p Hp. by exists p.
Qed.

(** The two ways through [_do_save]: the warning, or the save. *)
Lemma do_save_inv v and_next w o w' :
  _do_save v and_next w = (o, w') →
  let pronouns := current_pronouns (session w) in
  (pronouns ≠ [] ∧ existsb has_pronoun_text pronouns = false ∧ o = Ok tt ∧
   w' = show (st_warning "Enter at least one pronoun or select 'No'") w)
  ∨ ((pronouns = [] ∨ existsb has_pronoun_text pronouns = true) ∧
     (_save_sentence_and_reload v
        (saved_entry v <$> List.filter has_pronoun_text pronouns);;
      finish_save v and_next) w = (o, w')).
Proof.
  unfold _do_save. rewrite bind_unfold. unfold gets at 1. simpl.
  destruct (existsb has_pronoun_text (current_pronouns (session w))) eqn:Hvalid;
    simpl.
  - rewrite bind_unfold. unfold lift at 1. rewrite entry_records_spec.
    intros H. right. split; [by right|done].
  - destruct (bool_decide (current_pronouns (session w) = [])) eqn:Hnil; simpl.
    + apply bool_decide_eq_true in Hnil.
      rewrite bind_unfold. unfold lift at 1. rewrite entry_records_spec.
      intros H. right. split; [by left|done].
    + apply bool_decide_eq_false in Hnil.
      unfold modify. intros [= <- <-]. by left.
Qed.

(** A click shows the failure of a save on the page and lets only the
    rerun through. *)
Lemma on_click_raises save w e w' :
  on_click save w = (Raise e, w') → e = RerunException.
Proof.
  unfold on_click.
  intros [(? & _ & ?)|[(e0 & w1 & _ & _ & Hh)|(e0 & _ & He & [= ->])]]
    %try_except_inv; [done|done|].
  by destruct e0.
Qed.

Lemma has_stripped_pronoun_rows rows :
  Forall has_stripped_pronoun rows → Forall (λ r, r_no_pronoun r = false) rows.
Proof. intros H. eapply Forall_impl; [exact H|]. by intros r [? _]. Qed.

(** A save through [_save_sentence_and_reload] and [finish_save], with
    records that carry the key of the view and build allowed states. *)
Lemma save_and_finish_states v records and_next w o w' :
  (_save_sentence_and_reload v records;; finish_save v and_next) w = (o, w') →
  Forall (carries_key (s_ID (row v)) (sentence_id_of (row v))) records →
  (∀ j rows, annotation_rows (annotator_id v) (take j records) = Ok rows →
             sentence_state rows) →
  (o = Raise RerunException →
   sentence_state (rows_for (view_key v) (annotations_tbl w')))
  ∧ ((∀ k, sentence_state (rows_for k (annotations_tbl w))) →
     ∀ k, sentence_state (rows_for k (annotations_tbl w'))).
Proof.
  intros (o1 & w1 & Hsave & -> & Ho)%save_and_finish_inv Hkey Hstates.
  destruct (save_keeps_states _ _ _ _ _ _ _ Hkey Hstates Hsave) as [H1 H2].
  split; [|done]. intros Hrerun. by apply H1, Ho.
Qed.

Lemma do_save_states v and_next w o w' :
  _do_save v and_next w = (o, w') →
  (o = Raise RerunException →
   sentence_state (rows_for (view_key v) (annotations_tbl w')))
  ∧ ((∀ k, sentence_state (rows_for k (annotations_tbl w))) →
     ∀ k, sentence_state (rows_for k (annotations_tbl w'))).
Proof.
  intros [(_ & _ & -> & ->)|[_ Hyes]]%do_save_inv; [by split|].
  apply (save_and_finish_states _ _ _ _ _ _ Hyes);
    [apply saved_entries_carry_key|].
  intros j rows Hrows.
  by eapply sentence_state_pronouns, has_stripped_pronoun_rows,
    saved_entries_rows.
Qed.

Lemma do_save_no_pronoun_states v and_next w o w' :
  _do_save_no_pronoun v and_next w = (o, w') →
  (o = Raise RerunException →
   sentence_state (rows_for (view_key v) (annotations_tbl w')))
  ∧ ((∀ k, sentence_state (rows_for k (annotations_tbl w))) →
     ∀ k, sentence_state (rows_for k (annotations_tbl w'))).
Proof.
  unfold _do_save_no_pronoun. intros Hno.
  apply (save_and_finish_states _ _ _ _ _ _ Hno).
  - by repeat constructor.
  - intros [|j] rows; simpl.
    + intros [= <-]. by left.
    + rewrite take_nil. intros [= <-]. right. left. by eexists.
Qed.

(** The states of the sentences are an invariant of the sessions that
    start from an empty table. *)
Lemma session_step_states w w' :
  session_step w w' →
  (∀ k, sentence_state (rows_for k (annotations_tbl w))) →
  ∀ k, sentence_state (rows_for k (annotations_tbl w')).
Proof.
  destruct 1 as [v and_next w|v and_next w|w w' Ht].
  - destruct (_do_save v and_next w) as [o w'] eqn:Hsave.
    by apply (do_save_states _ _ _ _ _ Hsave).
  - destruct (_do_save_no_pronoun v and_next w) as [o w'] eqn:Hsave.
    by apply (do_save_no_pronoun_states _ _ _ _ _ Hsave).
  - by rewrite Ht.
Qed.

Lemma sessions_keep_sentences_unmixed w0 w :
  annotations_tbl w0 = [] →
  rtc session_step w0 w →
  ∀ k, sentence_state (rows_for k (annotations_tbl w)).
Proof.
  intros Hempty Hsteps.
  assert (∀ k, sentence_state (rows_for k (annotations_tbl w0))) as Hstart
    by (intros k; rewrite Hempty; by left).
  clear Hempty. induction Hsteps as [w|w1 w2 w3 Hstep _ IH]; [done|].
  apply IH. by eapply session_step_states.
Qed.

(** C2: the rows stored for a sentence are never a mix.  When a click on
    a save button completes (the closure ends in [st.rerun()]), the rows of
    the saved key are no row, one marker row, or one or more pronoun rows.
    If every key of the table was in such a state before a click, every key
    is in such a state after it, whether the save completed, was rejected
    or failed.  Hence in a session that starts from an empty table the rows
    of every key are in such a state at every moment. *)
Theorem saved_sentences_unmixed :
  (∀ v and_next w o w',
     _do_save v and_next w = (o, w') ∨
     _do_save_no_pronoun v and_next w = (o, w') →
     o = Raise RerunException →
     sentence_state (rows_for (view_key v) (annotations_tbl w')))
  ∧ (∀ v and_next w o w',
       _do_save v and_next w = (o, w') ∨
       _do_save_no_pronoun v and_next w = (o, w') →
       (∀ k, sentence_state (rows_for k (annotations_tbl w))) →
       ∀ k, sentence_state (rows_for k (annotations_tbl w')))
  ∧ (∀ w0 w,
       annotations_tbl w0 = [] →
       rtc session_step w0 w →
       ∀ k, sentence_state (rows_for k (annotations_tbl w))).
Proof.
  split; [|split].
  - intros v and_next w o w' [Hyes|Hno].
    + by apply (do_save_states v and_next w).
    + by apply (do_save_no_pronoun_states v and_next w).
  - intros v and_next w o w' [Hyes|Hno].
    + by apply (do_save_states v and_next w o).
    + by apply (do_save_no_pronoun_states v and_next w o).
  - apply sessions_keep_sentences_unmixed.
Qed.

Lemma saved_sentences_unmixed_witness :
  sentence_state
    (rows_for (view_key sample_view)
       (annotations_tbl
          (_do_save sample_view true
             (editing_world [sample_entry " ya "; sample_entry "  "]
                            [marker_row "olena" "p1" 3])).2)).
Proof.
  destruct saved_sentences_unmixed as [Hdone _].
  apply (Hdone sample_view true
           (editing_world [sample_entry " ya "; sample_entry "  "]
                          [marker_row "olena" "p1" 3])
           (Raise RerunException)).
  - left. vm_compute. reflexivity.
  - reflexivity.
Defined.

(** The invariant rests on what the two closures pass on:
    [save_annotations_for_sentence] stores whatever records it is given, a
    marker next to a pronoun row included. *)
Example save_stores_what_it_is_given :
  save_annotations_for_sentence "olena" "p1" 3
    [marker_record "p1" 3; pronoun_record "p1" 3 "ya"] (sample_world [] [])
  = (Ok tt, sample_world [] [marker_row "olena" "p1" 3;
                             pronoun_row "olena" "p1" 3 "ya"]).
Proof. reflexivity. Qed.

(** C8 (as amended): every row in the table after [_do_save] was there
    before or is a pronoun row whose surface text is stripped and not empty.
    Entries without pronoun text are skipped: a completed save leaves under
    the key of the sentence the rows built from the entries that have text.
    If the form holds at least one entry and none of them has pronoun text,
    the save is rejected: the warning is shown and nothing else changes. *)
Theorem do_save_persists_stripped_pronouns v and_next w o w' :
  _do_save v and_next w = (o, w') →
  (∀ r, r ∈ annotations_tbl w' → r ∈ annotations_tbl w ∨ has_stripped_pronoun r)
  ∧ (o = Raise RerunException →
     ∃ rows,
       annotation_rows (annotator_id v)
         (saved_entry v <$> List.filter has_pronoun_text
                              (current_pronouns (session w))) = Ok rows ∧
       rows_for (view_key v) (annotations_tbl w') = rows)
  ∧ (current_pronouns (session w) ≠ [] →
     existsb has_pronoun_text (current_pronouns (session w)) = false →
     o = Ok tt ∧
     w' = show (st_warning "Enter at least one pronoun or select 'No'") w).
Proof.
  intros [(Hne & Hnone & -> & ->)|[Hsome Hsave]]%do_save_inv.
  - split; [by left|]. by split.
  - apply save_and_finish_inv in Hsave as (o1 & w1 & Hsave & Ht & Ho).
    split; [|split].
    + rewrite Ht. intros r Hr.
      apply save_annotations_inv in Hsave
        as (_ & [(_ & rows & Hrows & Hw1)|(msg & _ & [Hw1|(j & rows & _ & Hrows & Hw1)])]);
        rewrite Hw1 in Hr; [|by left|].
      * apply elem_of_app in Hr as [[_ ?]%list_elem_of_filter|Hr]; [by left|].
        right. rewrite <-(firstn_all (_ <$> _)) in Hrows.
        apply saved_entries_rows in Hrows.
        by eapply Forall_forall in Hrows.
      * apply elem_of_app in Hr as [[_ ?]%list_elem_of_filter|Hr]; [by left|].
        right. apply saved_entries_rows in Hrows.
        by eapply Forall_forall in Hrows.
    + intros ->%Ho.
      apply save_completed_rows in Hsave as (rows & Hrows & Hfor & _);
        [|apply saved_entries_carry_key].
      exists rows. by rewrite Ht.
    + intros Hne Hnone. by destruct Hsome as [?|?]; [|congruence].
Qed.

Lemma do_save_persists_stripped_pronouns_witness :
  (_do_save sample_view false
     (editing_world [sample_entry "  "; sample_entry ""]
                    [pronoun_row "olena" "p1" 3 "ya"])).1 = Ok tt
  ∧ (_do_save sample_view false
       (editing_world [sample_entry "  "; sample_entry ""]
                      [pronoun_row "olena" "p1" 3 "ya"])).2
    = show (st_warning "Enter at least one pronoun or select 'No'")
        (editing_world [sample_entry "  "; sample_entry ""]
                       [pronoun_row "olena" "p1" 3 "ya"]).
Proof.
  apply (do_save_persists_stripped_pronouns sample_view false
           (editing_world [sample_entry "  "; sample_entry ""]
                          [pronoun_row "olena" "p1" 3 "ya"])).
  - apply surjective_pairing.
  - simpl. discriminate.
  - vm_compute. reflexivity.
Defined.

(** C8, counterexample: the form holds no entry at all, so no entry has
    pronoun text.  The save is not rejected: no warning is shown and the row
    stored for the sentence is deleted. *)
Lemma do_save_empty_form_counterexample :
  existsb has_pronoun_text
    (current_pronouns
       (session (editing_world [] [pronoun_row "olena" "p1" 3 "ya"]))) = false
  ∧ _do_save sample_view false
      (editing_world [] [pronoun_row "olena" "p1" 3 "ya"])
    = (Raise RerunException,
       mk_world (Some ("https://project.supabase.co", "anon-key")) [] [] ∅
                (mk_session [] ∅ [] None None) []).
Proof. split; by vm_compute. Qed.

(** ** Export *)

Lemma pronoun_row_to_output_keys a s d :
  pronoun_row_to_output a s = Ok d → d.*1 = OUTPUT_COLUMNS.
Proof.
  unfold pronoun_row_to_output. destruct (a_pronoun a); [|done].
  by intros [= <-].
Qed.

Lemma pronoun_row_to_output_total a s :
  is_Some (a_pronoun a) → ∃ d, pronoun_row_to_output a s = Ok d.
Proof.
  intros [p Hp]. unfold pronoun_row_to_output. rewrite Hp. by eexists.
Qed.

(** The loop of [build_export_csv] collects one row per annotation that
    has a sentence in the table, in order, and passes over the others. *)
Lemma export_rows_matched df l rows :
  export_rows l df = Ok rows →
  Forall2 (λ m d, pronoun_row_to_output m.1 m.2 = Ok d) (matched df l) rows.
Proof.
  revert rows. induction l as [|a l IH]; intros rows; simpl.
  - intros [= <-]. constructor.
  - unfold matched. simpl. fold (matched df l).
    unfold first_match at 1.
    destruct (a_ID a) as [ID|]; [|done]. simpl.
    destruct (a_sentence_id a) as [sid|]; [|done]. simpl.
    destruct (List.filter (sentence_matches ID sid) df) as [|s0 ?]; simpl.
    + apply IH.
    + destruct (pronoun_row_to_output a s0) as [d|] eqn:Hd; [|done]. simpl.
      destruct (export_rows l df) as [rows'|]; [|done]. simpl.
      intros [= <-]. constructor; [done|]. by apply IH.
Qed.

Lemma export_rows_total df l :
  Forall (λ a, is_Some (a_ID a) ∧ is_Some (a_sentence_id a) ∧
               is_Some (a_pronoun a)) l →
  ∃ rows, export_rows l df = Ok rows.
Proof.
  induction 1 as [|a l ([ID HID] & [sid Hsid] & Hp) _ [rows IH]];
    [by exists []|].
  simpl. rewrite HID, Hsid. simpl.
  destruct (List.filter (sentence_matches ID sid) df) as [|s0 ?]; [by exists rows|].
  destruct (pronoun_row_to_output_total a s0 Hp) as [d ->]. simpl.
  rewrite IH. by eexists.
Qed.

Lemma export_rows_keys df l rows :
  export_rows l df = Ok rows → Forall (λ d, d.*1 = OUTPUT_COLUMNS) rows.
Proof.
  intros H%export_rows_matched.
  induction H as [|[a s] d ms rows Hd _ IH]; constructor; [|done].
  by eapply pronoun_row_to_output_keys.
Qed.

Lemma frame_of_dicts_columns rows :
  Forall (λ d, d.*1 = OUTPUT_COLUMNS) rows →
  frame_of_dicts rows =
  {| columns := match rows with [] => [] | _ => OUTPUT_COLUMNS end;
     frame_rows := rows |}.
Proof.
  unfold frame_of_dicts. intros Hrows. f_equal.
  destruct Hrows as [|d rows Hd Hrows]; [done|].
  simpl. rewrite Hd. change (filter _ OUTPUT_COLUMNS) with OUTPUT_COLUMNS.
  induction Hrows as [|d' rows Hd' _ IH]; [done|].
  simpl. rewrite Hd'. exact IH.
Qed.

(** The frame that [build_export_csv] writes: the fixed columns, in order,
    over the collected rows. *)
Lemma export_frame rows :
  Forall (λ d, d.*1 = OUTPUT_COLUMNS) rows →
  select_columns OUTPUT_COLUMNS (fill_missing_columns (frame_of_dicts rows))
  = Ok {| columns := OUTPUT_COLUMNS; frame_rows := rows |}.
Proof.
  intros Hkeys. rewrite (frame_of_dicts_columns rows Hkeys).
  destruct rows; by vm_compute.
Qed.

Lemma to_csv_export rows :
  to_csv {| columns := OUTPUT_COLUMNS; frame_rows := rows |}
  = header_line +:+ String.concat "" (export_line <$> rows).
Proof. reflexivity. Qed.

Lemma build_export_csv_unfold annotations df :
  build_export_csv annotations df =
  match List.filter is_pronoun_annot annotations with
  | [] => Ok ""
  | _ =>
      match export_rows (List.filter is_pronoun_annot annotations) df with
      | Ok rows =>
          match select_columns OUTPUT_COLUMNS
                  (fill_missing_columns (frame_of_dicts rows)) with
          | Ok df => Ok (to_csv df)
          | Raise e => Raise e
          end
      | Raise e => Raise e
      end
  end.
Proof. reflexivity. Qed.

Lemma build_export_csv_inv annotations df csv :
  build_export_csv annotations df = Ok csv →
  (List.filter is_pronoun_annot annotations = [] ∧ csv = "")
  ∨ (List.filter is_pronoun_annot annotations ≠ [] ∧
     ∃ rows, export_rows (List.filter is_pronoun_annot annotations) df = Ok rows ∧
             csv = header_line +:+ String.concat "" (export_line <$> rows)).
Proof.
  rewrite build_export_csv_unfold.
  destruct (List.filter is_pronoun_annot annotations) as [|a l] eqn:Hf.
  - intros [= <-]. by left.
  - destruct (export_rows (a :: l) df) as [rows|] eqn:Hrows; [|done].
    rewrite (export_frame rows) by by eapply export_rows_keys.
    rewrite to_csv_export.
    intros [= <-]. right. split; [done|]. by exists rows.
Qed.

Lemma header_line_text :
  header_line =
  "ID,author,date,Language,text,Theme,pronoun,lemma,uk_match_pos,position,context,person,number,gender,case,is_dropped,en_reference,shakespeare_text,gpt_annotations"
  +:+ String LF "".
Proof. reflexivity. Qed.

Lemma filter_is_pronoun_annot_nil annotations :
  List.filter is_pronoun_annot annotations = [] ↔
  Forall (λ a, default false (a_no_pronoun a) = true) annotations.
Proof.
  induction annotations as [|a l IH]; simpl; [by split|].
  unfold is_pronoun_annot at 1.
  destruct (default false (a_no_pronoun a)) eqn:Ha; simpl.
  - rewrite IH. split; [by constructor|]. by intros [_ ?]%Forall_cons.
  - split; [done|]. intros [? _]%Forall_cons. congruence.
Qed.

Lemma elem_of_filter_is_pronoun_annot a annotations :
  a ∈ List.filter is_pronoun_annot annotations ↔
  a ∈ annotations ∧ default false (a_no_pronoun a) = false.
Proof.
  rewrite !list_elem_of_In, List.filter_In. unfold is_pronoun_annot.
  by rewrite negb_true_iff.
Qed.

Lemma first_match_Some df a s :
  first_match df a = Some s →
  s ∈ df ∧ ∃ ID sid, a_ID a = Some ID ∧ a_sentence_id a = Some sid ∧
                     s_ID s = ID ∧ s_sentence_id s = Some sid.
Proof.
  unfold first_match. destruct (a_ID a) as [ID|]; [|done]. simpl.
  destruct (a_sentence_id a) as [sid|]; [|done]. simpl.
  destruct (List.filter (sentence_matches ID sid) df) as [|s0 l] eqn:Hf; [done|].
  intros [= <-].
  assert (List.In s0 (List.filter (sentence_matches ID sid) df)) as Hin
    by (rewrite Hf; by left).
  apply List.filter_In in Hin as [Hin Hm]. unfold sentence_matches in Hm.
  apply andb_true_iff in Hm as [H1%bool_decide_eq_true H2%bool_decide_eq_true].
  split; [by apply list_elem_of_In|]. by exists ID, sid.
Qed.

Lemma first_match_None df a ID sid :
  a_ID a = Some ID → a_sentence_id a = Some sid →
  (∀ s, s ∈ df → ¬ (s_ID s = ID ∧ s_sentence_id s = Some sid)) →
  first_match df a = None.
Proof.
  intros HID Hsid Hnone. unfold first_match. rewrite HID, Hsid. simpl.
  destruct (List.filter (sentence_matches ID sid) df) as [|s0 l] eqn:Hf; [done|].
  assert (List.In s0 (List.filter (sentence_matches ID sid) df)) as Hin
    by (rewrite Hf; by left).
  apply List.filter_In in Hin as [Hin Hm]. unfold sentence_matches in Hm.
  apply andb_true_iff in Hm as [H1%bool_decide_eq_true H2%bool_decide_eq_true].
  destruct (Hnone s0); [by apply list_elem_of_In|by split].
Qed.

Lemma elem_of_matched df l a s :
  (a, s) ∈ matched df l ↔ a ∈ l ∧ first_match df a = Some s.
Proof.
  unfold matched. rewrite list_elem_of_omap. split.
  - intros (a' & Ha' & Hm). destruct (first_match df a') as [s'|] eqn:Hs; [|done].
    simpl in Hm. by simplify_eq.
  - intros [Ha Hs]. exists a. split; [done|]. by rewrite Hs.
Qed.

(** C4 (as amended): when the list holds at least one pronoun annotation
    and [build_export_csv] returns, the text starts with the header line,
    which is the fixed [OUTPUT_COLUMNS] in their order, and every line after
    it is the output row of an annotation of the list whose [no_pronoun] is
    not true: no line comes from a NoPronounMarker. *)
Theorem build_export_csv_header_and_rows annotations df csv :
  (∃ a, a ∈ annotations ∧ default false (a_no_pronoun a) = false) →
  build_export_csv annotations df = Ok csv →
  ∃ rows,
    csv = header_line +:+ String.concat "" (export_line <$> rows)
    ∧ header_line = join "," OUTPUT_COLUMNS +:+ String LF ""
    ∧ Forall (λ d, ∃ a s, a ∈ annotations ∧
                          default false (a_no_pronoun a) = false ∧
                          s ∈ df ∧ pronoun_row_to_output a s = Ok d) rows.
Proof.
  intros (a0 & Ha0 & Hp0) [[Hnil _]|(_ & rows & Hrows & ->)]%build_export_csv_inv.
  - apply filter_is_pronoun_annot_nil in Hnil.
    eapply Forall_forall in Hnil; [|exact Ha0]. congruence.
  - exists rows. split; [done|]. split; [reflexivity|].
    apply export_rows_matched in Hrows.
    eapply Forall2_Forall_r; [exact Hrows|].
    apply Forall_forall. intros [a s] Hm d Hd.
    apply elem_of_matched in Hm
      as [[Ha Hp]%elem_of_filter_is_pronoun_annot [Hs _]%first_match_Some].
    by exists a, s.
Qed.

Lemma build_export_csv_header_and_rows_witness :
  ∃ rows,
    text_of (build_export_csv
               [pronoun_record "p1" 3 "ya"; marker_record "p1" 4]
               [sample_sentence "p1" 3 "third"; sample_sentence "p1" 4 "fourth"])
    = header_line +:+ String.concat "" (export_line <$> rows)
    ∧ header_line = join "," OUTPUT_COLUMNS +:+ String LF ""
    ∧ Forall (λ d, ∃ a s,
                a ∈ [pronoun_record "p1" 3 "ya"; marker_record "p1" 4] ∧
                default false (a_no_pronoun a) = false ∧
                s ∈ [sample_sentence "p1" 3 "third"; sample_sentence "p1" 4 "fourth"] ∧
                pronoun_row_to_output a s = Ok d) rows.
Proof.
  apply (build_export_csv_header_and_rows
           [pronoun_record "p1" 3 "ya"; marker_record "p1" 4]
           [sample_sentence "p1" 3 "third"; sample_sentence "p1" 4 "fourth"]).
  - exists (pronoun_record "p1" 3 "ya"). split; [left|reflexivity].
  - vm_compute. reflexivity.
Defined.

(** C4, counterexample: a list with a marker and no pronoun annotation.
    The result is the empty text, which does not start with the header
    line. *)
Lemma build_export_csv_header_counterexample :
  build_export_csv [marker_record "p1" 4] [sample_sentence "p1" 4 "fourth"]
  = Ok ""
  ∧ ¬ ∃ body, "" = header_line +:+ body.
Proof. split; [reflexivity|]. by intros [body ?]. Qed.

(** An export, as the download button offers it. *)
Example build_export_csv_sample :
  build_export_csv
    [pronoun_record "p1" 3 "ya"; marker_record "p1" 4; pronoun_record "p7" 1 "ty"]
    [sample_sentence "p1" 3 "third, and last"; sample_sentence "p1" 4 "fourth"]
  = Ok (header_line +:+
        "p1,Lesya Ukrainka,1893,Ukrainian,Contra spem spero,hope,ya,ya,,3," +:+
        String quote_char "third, and last" +:+ String quote_char
        ",1st,Singular,,,True,,," +:+ String LF "").
Proof. by vm_compute. Qed.

(** C10: [build_export_csv] returns the empty text when no annotation of
    the list is a pronoun annotation.  Otherwise, when it returns, the text
    is the header line followed by the lines of the pronoun annotations that
    have a sentence with their poem ID and sentence_id in the table, in
    order, each exported with the first such sentence; a pronoun annotation
    with no such sentence gets no line and raises nothing.  The call
    returns whenever every pronoun annotation has its ID, sentence_id and
    pronoun. *)
Theorem build_export_csv_empty_and_omits annotations df :
  (Forall (λ a, default false (a_no_pronoun a) = true) annotations →
   build_export_csv annotations df = Ok "")
  ∧ (∀ csv,
       (∃ a, a ∈ annotations ∧ default false (a_no_pronoun a) = false) →
       build_export_csv annotations df = Ok csv →
       ∃ rows,
         Forall2 (λ m d, pronoun_row_to_output m.1 m.2 = Ok d)
                 (matched df (List.filter is_pronoun_annot annotations)) rows
         ∧ csv = header_line +:+ String.concat "" (export_line <$> rows))
  ∧ (∀ a ID sid,
       a_ID a = Some ID → a_sentence_id a = Some sid →
       (∀ s, s ∈ df → ¬ (s_ID s = ID ∧ s_sentence_id s = Some sid)) →
       ∀ s, (a, s) ∉ matched df (List.filter is_pronoun_annot annotations))
  ∧ (Forall (λ a, is_Some (a_ID a) ∧ is_Some (a_sentence_id a) ∧
                  is_Some (a_pronoun a))
            (List.filter is_pronoun_annot annotations) →
     ∃ csv, build_export_csv annotations df = Ok csv).
Proof.
  split; [|split; [|split]].
  - intros Hnil%filter_is_pronoun_annot_nil.
    by rewrite build_export_csv_unfold, Hnil.
  - intros csv (a0 & Ha0 & Hp0)
      [[Hnil _]|(_ & rows & Hrows & ->)]%build_export_csv_inv.
    + apply filter_is_pronoun_annot_nil in Hnil.
      eapply Forall_forall in Hnil; [|exact Ha0]. congruence.
    + exists rows. split; [by apply export_rows_matched|done].
  - intros a ID sid HID Hsid Hnone s [_ Hs]%elem_of_matched.
    by rewrite (first_match_None df a ID sid) in Hs.
  - intros Hall. rewrite build_export_csv_unfold.
    destruct (List.filter is_pronoun_annot annotations) as [|a l] eqn:Hf;
      [by eexists|].
    destruct (export_rows_total df _ Hall) as [rows Hrows]. rewrite Hrows.
    rewrite (export_frame rows) by by eapply export_rows_keys.
    by eexists.
Qed.

Lemma build_export_csv_empty_and_omits_witness :
  build_export_csv [marker_record "p1" 4] [sample_sentence "p1" 4 "fourth"]
  = Ok ""
  ∧ ∀ s, (pronoun_record "p7" 1 "ty", s) ∉
         matched [sample_sentence "p1" 3 "third"]
           (List.filter is_pronoun_annot
              [pronoun_record "p1" 3 "ya"; pronoun_record "p7" 1 "ty"]).
Proof.
  split.
  - apply (build_export_csv_empty_and_omits
             [marker_record "p1" 4] [sample_sentence "p1" 4 "fourth"]).
    repeat constructor.
  - destruct (build_export_csv_empty_and_omits
                [pronoun_record "p1" 3 "ya"; pronoun_record "p7" 1 "ty"]
                [sample_sentence "p1" 3 "third"]) as (_ & _ & Homit & _).
    apply (Homit (pronoun_record "p7" 1 "ty") "p7" 1); [reflexivity..|].
    intros s [->|Hs]%elem_of_cons [HID _]; [discriminate|].
    by apply elem_of_nil in Hs.
Defined.

(** * Further properties *)

(** ** Requests that go through *)

Lemma set_faults_same w : set_faults (faults w) w = w.
Proof. by destruct w. Qed.

Lemma execute_run {A} (request : world → A * world) w :
  Forall (λ f, f = None) (faults w) →
  ∃ fs, Forall (λ f, f = None) fs ∧
        execute request w =
        (Ok (request (set_faults fs w)).1, (request (set_faults fs w)).2).
Proof.
  intros Hf. unfold execute. destruct (faults w) as [|f fs] eqn:E.
  - exists []. split; [done|]. rewrite <-E, set_faults_same.
    by destruct (request w).
  - apply Forall_cons in Hf as [-> Hfs]. exists fs. split; [done|].
    by destruct (request (set_faults fs w)).
Qed.

Lemma insert_loop_run annotator records : ∀ w,
  Forall (λ a, is_Some (a_ID a)) records →
  Forall (λ f, f = None) (faults w) →
  ∃ w', for_each (insert_record annotator) records w = (Ok tt, w') ∧
        Forall (λ f, f = None) (faults w').
Proof.
  induction records as [|a records IH]; intros w Hrec Hf; [by eexists|].
  apply Forall_cons in Hrec as [HID Hrec].
  rewrite for_each_cons, insert_record_unfold.
  destruct (annotation_row_total annotator a HID) as [row ->].
  destruct (insert_annotation_no_fault row w Hf) as (w1 & -> & Hf1).
  by apply IH.
Qed.

Lemma carries_key_ID poem sid records :
  Forall (carries_key poem sid) records →
  Forall (λ a, is_Some (a_ID a)) records.
Proof. intros H. eapply Forall_impl; [exact H|]. intros a [-> _]. by eexists. Qed.

(** In a world whose requests go through, a save completes and leaves such
    a world. *)
Lemma save_annotations_run annotator poem sid records w :
  store_reachable w →
  Forall (λ a, is_Some (a_ID a)) records →
  ∃ w', save_annotations_for_sentence annotator poem sid records w = (Ok tt, w')
        ∧ store_reachable w'.
Proof.
  intros [[sb Hsb] Hf] Hrec.
  assert (∃ w', save_annotations_for_sentence annotator poem sid records w
                = (Ok tt, w') ∧ Forall (λ f, f = None) (faults w'))
    as (w' & Hsave & Hf').
  { unfold save_annotations_for_sentence, try_except. rewrite bind_unfold.
    unfold get_supabase at 1. rewrite Hsb. cbn [getitem]. rewrite bind_unfold.
    destruct (delete_annotations_no_fault (annotator, poem, sid) w Hf)
      as (w1 & -> & Hf1).
    destruct (insert_loop_run annotator records _ Hrec Hf1) as (w2 & -> & Hf2).
    by exists w2. }
  exists w'. split; [done|]. split; [|done].
  apply save_annotations_inv in Hsave as ((-> & _) & _). by exists sb.
Qed.

Lemma load_annotations_run annotator w :
  store_reachable w →
  ∃ fs, Forall (λ f, f = None) fs ∧
    load_annotations annotator w =
    (Ok (loaded_record <$>
           filter (λ r, r_annotator_id r = annotator) (annotations_tbl w)),
     set_faults fs w).
Proof.
  intros [[sb Hsb] Hf].
  destruct (execute_run
    (λ w, (filter (λ r, r_annotator_id r = annotator) (annotations_tbl w), w))
    w Hf) as (fs & Hfs & Hex).
  exists fs. split; [done|].
  pose proof (load_annotations_cases annotator w) as Hc.
  unfold load_annotations_body in Hc. rewrite bind_unfold in Hc.
  unfold get_supabase at 1 in Hc. rewrite Hsb in Hc. cbn [getitem] in Hc.
  rewrite bind_unfold in Hc. unfold select_annotations in Hc.
  rewrite Hex in Hc. exact Hc.
Qed.

(** ** Saving and loading back *)

Lemma loaded_record_annotation_row annotator a row :
  annotation_row annotator a = Ok row → loaded_record row = reloaded a.
Proof.
  unfold annotation_row. destruct (a_ID a) as [ID|] eqn:HID; [|done].
  intros [= <-]. unfold loaded_record, reloaded. simpl. rewrite HID.
  by destruct (default false (a_no_pronoun a)).
Qed.

Lemma loaded_records_annotation_rows annotator records rows :
  annotation_rows annotator records = Ok rows →
  loaded_record <$> rows = reloaded <$> records.
Proof.
  revert rows. induction records as [|a records IH]; intros rows; simpl.
  - by intros [= <-].
  - destruct (annotation_row annotator a) as [row|] eqn:Hrow; [|done]. simpl.
    destruct (annotation_rows annotator records) as [rows'|]; [|done]. simpl.
    intros [= <-]. rewrite !fmap_cons.
    by rewrite (loaded_record_annotation_row _ _ _ Hrow), (IH rows' eq_refl).
Qed.

Lemma carries_key_loaded_record poem sid r :
  carries_key poem sid (loaded_record r) ↔
  r_poem_id r = poem ∧ r_sentence_id r = sid.
Proof.
  unfold carries_key, loaded_record.
  destruct (r_no_pronoun r); simpl;
    (split; [by intros [[= ?] ?]|by intros [-> ->]]).
Qed.

(** The loaded records of one sentence are those of the rows of its key. *)
Lemma filter_loaded_records annotator poem sid tbl :
  filter (carries_key poem sid)
    (loaded_record <$> filter (λ r, r_annotator_id r = annotator) tbl)
  = loaded_record <$> rows_for (annotator, poem, sid) tbl.
Proof.
  unfold rows_for. induction tbl as [|r tbl IH]; [done|].
  rewrite (filter_cons (λ r, r_annotator_id r = annotator)).
  rewrite (filter_cons (λ r, key_of r = (annotator, poem, sid))).
  destruct (decide (r_annotator_id r = annotator)) as [Ha|Ha].
  - rewrite fmap_cons, filter_cons, IH.
    destruct (decide (carries_key poem sid (loaded_record r))) as [Hk|Hk];
      destruct (decide (key_of r = (annotator, poem, sid))) as [Hr|Hr];
      try done.
    + destruct Hr. apply carries_key_loaded_record in Hk as [? ?].
      unfold key_of. congruence.
    + destruct Hk. apply carries_key_loaded_record.
      unfold key_of in Hr. by simplify_eq.
  - rewrite IH. destruct (decide (key_of r = (annotator, poem, sid))) as [Hr|Hr];
      [|done].
    destruct Ha. unfold key_of in Hr. by simplify_eq.
Qed.

(** X1: what is saved for a sentence is what loading gives back for it.  In
    a world whose requests go through, saving records that carry the key and
    then loading the annotations of the annotator returns, for that poem ID
    and sentence_id, the saved records in order, each with the defaults of
    the save filled in ([no_pronoun] set, [lemma] defaulting to the pronoun,
    [position] to the sentence_id). *)
Theorem save_then_load_round_trip annotator poem sid records w :
  store_reachable w →
  Forall (carries_key poem sid) records →
  ∃ w1 w2 loaded,
    save_annotations_for_sentence annotator poem sid records w = (Ok tt, w1)
    ∧ load_annotations annotator w1 = (Ok loaded, w2)
    ∧ filter (carries_key poem sid) loaded = reloaded <$> records
    ∧ annotations_tbl w2 = annotations_tbl w1.
Proof.
  intros Hw Hkey.
  destruct (save_annotations_run annotator poem sid records w Hw)
    as (w1 & Hsave & Hw1); [by eapply carries_key_ID|].
  destruct (load_annotations_run annotator w1 Hw1) as (fs & _ & Hload).
  exists w1, (set_faults fs w1). eexists. split; [done|]. split; [done|].
  split; [|done].
  rewrite filter_loaded_records.
  apply save_completed_rows in Hsave as (rows & Hrows & -> & _); [|done].
  by eapply loaded_records_annotation_rows.
Qed.

Lemma save_then_load_round_trip_witness :
  ∃ w1 w2 loaded,
    save_annotations_for_sentence "olena" "p1" 3
      [pronoun_record "p1" 3 "ya"; pronoun_record "p1" 3 "ty"]
      (sample_world [] [marker_row "olena" "p1" 3; pronoun_row "taras" "p1" 3 "vin"])
    = (Ok tt, w1)
    ∧ load_annotations "olena" w1 = (Ok loaded, w2)
    ∧ filter (carries_key "p1" 3) loaded
      = reloaded <$> [pronoun_record "p1" 3 "ya"; pronoun_record "p1" 3 "ty"]
    ∧ annotations_tbl w2 = annotations_tbl w1.
Proof.
  apply (save_then_load_round_trip "olena" "p1" 3
           [pronoun_record "p1" 3 "ya"; pronoun_record "p1" 3 "ty"]
           (sample_world [] [marker_row "olena" "p1" 3;
                             pronoun_row "taras" "p1" 3 "vin"])).
  - split; [by eexists|constructor].
  - repeat constructor.
Defined.

Lemma bind_ok {A B} (m : M A) (f : A → M B) w a w1 :
  m w = (Ok a, w1) → (m ≫= f) w = f a w1.
Proof. intros H. by rewrite bind_unfold, H. Qed.

Lemma bind_raise {A B} (m : M A) (f : A → M B) w e w1 :
  m w = (Raise e, w1) → (m ≫= f) w = (Raise e, w1).
Proof. intros H. by rewrite bind_unfold, H. Qed.

Lemma select_annotations_inv annotator w o w' :
  select_annotations annotator w = (o, w') →
  annotations_tbl w' = annotations_tbl w ∧ same_surroundings w w' ∧
  ((∃ msg, o = Raise (APIError msg))
   ∨ o = Ok (filter (λ r, r_annotator_id r = annotator) (annotations_tbl w))).
Proof.
  intros [(msg & -> & ? & ? & ?)|(fs & -> & ->)]%execute_inv.
  - split; [done|]. split; [done|]. left. by exists msg.
  - split; [done|]. split; [by repeat split|]. by right.
Qed.

(** What [load_annotations] does, by cases. *)
Lemma load_annotations_inv annotator w o w' :
  load_annotations annotator w = (o, w') →
  annotations_tbl w' = annotations_tbl w ∧
  perspectives_tbl w' = perspectives_tbl w ∧
  session w' = session w ∧
  ((o = Ok (loaded_record <$>
              filter (λ r, r_annotator_id r = annotator) (annotations_tbl w))
    ∧ page w' = page w)
   ∨ (o = Ok [] ∧ ∃ msg, page w' = page w ++ [st_error msg])).
Proof.
  pose proof (load_annotations_cases annotator w) as Hc.
  destruct (load_annotations_body annotator w) as [[out|e] w1] eqn:Hbody;
    rewrite Hc; intros [= <- <-]; unfold load_annotations_body in Hbody.
  - apply bind_inv in Hbody as [(sb & w2 & [-> _]%get_supabase_inv & Hbody)|
                                (? & _ & ?)]; [|done].
    apply bind_inv in Hbody as [(rows & w2 & Hsel & [= <- <-])|(? & _ & ?)];
      [|done].
    apply select_annotations_inv in Hsel
      as (Ht & (_ & Hp & Hs & Hpage) & [(? & ?)|[= ->]]); [done|].
    repeat split; [done..|]. by left.
  - assert (annotations_tbl w1 = annotations_tbl w ∧ same_surroundings w w1)
      as (Ht & _ & Hp & Hs & Hpage).
    { apply bind_inv in Hbody as [(sb & w2 & [-> _]%get_supabase_inv & Hbody)|
                                  (? & [-> _]%get_supabase_inv & _)].
      - apply bind_inv in Hbody as [(rows & w3 & _ & ?)|(? & Hsel & _)];
          [done|].
        by apply select_annotations_inv in Hsel as (? & ? & _).
      - split; [done|apply same_surroundings_refl]. }
    repeat split; [done..|]. right. split; [done|].
    eexists. simpl. by rewrite Hpage.
Qed.

(** X2: [load_annotations] only reads.  It never raises and leaves both
    tables and the session as they are; it returns the records of the rows
    of the annotator, in the order of the table, and no row of another
    annotator, or else, when the load failed, the empty list with one error
    message added to the page. *)
Theorem load_annotations_reads_own_rows annotator w o w' :
  load_annotations annotator w = (o, w') →
  annotations_tbl w' = annotations_tbl w ∧
  perspectives_tbl w' = perspectives_tbl w ∧
  session w' = session w ∧
  ((o = Ok (loaded_record <$>
              filter (λ r, r_annotator_id r = annotator) (annotations_tbl w))
    ∧ page w' = page w)
   ∨ (o = Ok [] ∧ ∃ msg, page w' = page w ++ [st_error msg])).
Proof. apply load_annotations_inv. Qed.

Lemma load_annotations_reads_own_rows_witness :
  (load_annotations "olena"
     (sample_world [] [pronoun_row "olena" "p1" 3 "ya";
                       pronoun_row "taras" "p1" 3 "vin"])).1
  = Ok (loaded_record <$> [pronoun_row "olena" "p1" 3 "ya"]).
Proof.
  destruct (load_annotations_reads_own_rows "olena"
              (sample_world [] [pronoun_row "olena" "p1" 3 "ya";
                                pronoun_row "taras" "p1" 3 "vin"])
              (load_annotations "olena"
                 (sample_world [] [pronoun_row "olena" "p1" 3 "ya";
                                   pronoun_row "taras" "p1" 3 "vin"])).1
              (load_annotations "olena"
                 (sample_world [] [pronoun_row "olena" "p1" 3 "ya";
                                   pronoun_row "taras" "p1" 3 "vin"])).2)
    as (_ & _ & _ & [[Hout _]|[Hout _]]).
  - apply surjective_pairing.
  - exact Hout.
  - discriminate Hout.
Defined.

(** ** The reviewed set *)

Lemma get_reviewed_sentences_total annotations :
  Forall (λ a, is_Some (a_ID a)) annotations →
  ∃ reviewed, get_reviewed_sentences annotations = Ok reviewed.
Proof.
  induction 1 as [|a l [ID HID] _ [reviewed IH]]; [by eexists|].
  simpl. rewrite HID, IH. by eexists.
Qed.

Lemma get_reviewed_sentences_raises annotations :
  ¬ Forall (λ a, is_Some (a_ID a)) annotations →
  get_reviewed_sentences annotations = Raise (KeyError "ID").
Proof.
  induction annotations as [|a l IH]; intros Hnot.
  - by destruct Hnot.
  - simpl. destruct (a_ID a) as [ID|] eqn:HID; [|done]. simpl.
    rewrite IH; [done|]. intros Hl. apply Hnot. constructor; [by eexists|done].
Qed.

(** X3: [get_reviewed_sentences] returns a set exactly when every
    annotation has its ["ID"], and raises [KeyError] for ["ID"] otherwise
    (a missing ["sentence_id"] is no error).  The set holds a key exactly
    when some annotation, marker or pronoun, names that poem and that
    sentence, a missing sentence_id counting as sentence 0. *)
Theorem get_reviewed_sentences_spec (annotations : list annot) :
  (Forall (λ a, is_Some (a_ID a)) annotations →
   ∃ reviewed : gset sent_key,
     get_reviewed_sentences annotations = Ok reviewed ∧
     ∀ k, k ∈ reviewed ↔
          ∃ a, a ∈ annotations ∧ a_ID a = Some k.1 ∧
               default 0 (a_sentence_id a) = k.2)
  ∧ (¬ Forall (λ a, is_Some (a_ID a)) annotations →
     get_reviewed_sentences annotations = Raise (KeyError "ID")).
Proof.
  split; [|apply get_reviewed_sentences_raises].
  intros [reviewed Hr]%get_reviewed_sentences_total.
  exists reviewed. split; [done|]. intros k.
  by apply elem_of_get_reviewed_sentences.
Qed.

Lemma get_reviewed_sentences_spec_witness :
  ∃ reviewed : gset sent_key,
    get_reviewed_sentences
      [marker_record "p1" 4;
       mk_annot (Some "p1") None None (Some "ya") None None None None None
                None None None None]
    = Ok reviewed ∧ ("p1", 0) ∈ reviewed ∧ ("p1", 4) ∈ reviewed.
Proof.
  destruct (get_reviewed_sentences_spec
              [marker_record "p1" 4;
               mk_annot (Some "p1") None None (Some "ya") None None None None None
                        None None None None]) as [Hok _].
  destruct Hok as (reviewed & Hr & Hin).
  { repeat constructor; by eexists. }
  exists reviewed. split; [done|]. split; apply Hin; eexists.
  - split; [right; left|done].
  - split; [left|done].
Defined.

(** X4: whatever [load_annotations] returns can be reviewed and exported:
    [get_reviewed_sentences] and [build_export_csv] never raise on it, for
    any state of the table and any sentence table. *)
Theorem loaded_annotations_never_raise annotator w o w' df :
  load_annotations annotator w = (o, w') →
  ∃ loaded reviewed csv,
    o = Ok loaded ∧
    get_reviewed_sentences loaded = Ok reviewed ∧
    build_export_csv loaded df = Ok csv.
Proof.
  intros Hload.
  assert (∃ rows, o = Ok (loaded_record <$> rows)) as [rows ->].
  { apply load_annotations_inv in Hload
      as (_ & _ & _ & [[-> _]|[-> _]]); [by eexists|by exists []]. }
  assert (Forall (λ a, is_Some (a_ID a) ∧ is_Some (a_sentence_id a) ∧
                       (is_pronoun_annot a = true → is_Some (a_pronoun a)))
                 (loaded_record <$> rows)) as Hwf.
  { apply Forall_fmap, Forall_true. intros r. unfold loaded_record.
    unfold is_pronoun_annot.
    destruct (r_no_pronoun r) eqn:Hr; simpl; rewrite ?Hr;
      (split; [by eexists|split; [by eexists|]]); [done|by eexists]. }
  destruct (get_reviewed_sentences_total (loaded_record <$> rows))
    as [reviewed Hreviewed].
  { eapply Forall_impl; [exact Hwf|]. by intros a (? & _). }
  exists (loaded_record <$> rows), reviewed.
  rewrite build_export_csv_unfold.
  destruct (List.filter is_pronoun_annot (loaded_record <$> rows))
    as [|a l] eqn:Hf; [by eexists|].
  destruct (export_rows_total df (a :: l)) as [out Hout].
  { rewrite <-Hf. apply List.Forall_forall. intros a' [Hin Hp]%List.filter_In.
    apply list_elem_of_In in Hin.
    eapply Forall_forall in Hwf as (? & ? & Hpron); [|exact Hin]. auto. }
  rewrite Hout, (export_frame out) by by eapply export_rows_keys.
  by eexists.
Qed.

Lemma loaded_annotations_never_raise_witness :
  ∃ loaded reviewed csv,
    (load_annotations "olena"
       (sample_world [] [pronoun_row "olena" "p1" 3 "ya";
                         marker_row "olena" "p1" 4])).1 = Ok loaded ∧
    get_reviewed_sentences loaded = Ok reviewed ∧
    build_export_csv loaded [sample_sentence "p1" 3 "third"] = Ok csv.
Proof.
  apply (loaded_annotations_never_raise "olena"
           (sample_world [] [pronoun_row "olena" "p1" 3 "ya";
                             marker_row "olena" "p1" 4])
           _
           (load_annotations "olena"
              (sample_world [] [pronoun_row "olena" "p1" 3 "ya";
                                marker_row "olena" "p1" 4])).2).
  apply surjective_pairing.
Defined.

(** ** Completed saves, seen from the session *)

Lemma finish_save_result v and_next w :
  finish_save v and_next w =
  (Raise RerunException,
   set_session
     {| annotations := annotations (session w);
        poem_perspectives := poem_perspectives (session w);
        current_pronouns := [];
        current_sent_key := None;
        force_nav_idx :=
          if and_next then Some (Z.min (idx v + 1) (total v - 1))
          else force_nav_idx (session w) |} w).
Proof. by destruct and_next. Qed.

(** In a world whose requests go through, the save of a view completes:
    the rows of the key are replaced, the session holds what the table
    holds for the annotator, and the form is emptied. *)
Lemma save_and_finish_run v records and_next w :
  store_reachable w →
  Forall (carries_key (s_ID (row v)) (sentence_id_of (row v))) records →
  ∃ w' rows,
    (_save_sentence_and_reload v records;; finish_save v and_next) w
    = (Raise RerunException, w')
    ∧ annotation_rows (annotator_id v) records = Ok rows
    ∧ annotations_tbl w' = rows_off (view_key v) (annotations_tbl w) ++ rows
    ∧ perspectives_tbl w' = perspectives_tbl w
    ∧ page w' = page w
    ∧ session w' =
      session_after_save v and_next
        (loaded_record <$>
           filter (λ r, r_annotator_id r = annotator_id v) (annotations_tbl w'))
        (session w).
Proof.
  intros Hw Hkey.
  destruct (save_annotations_run (annotator_id v) (s_ID (row v))
              (sentence_id_of (row v)) records w Hw)
    as (w1 & Hsave & Hw1); [by eapply carries_key_ID|].
  destruct (load_annotations_run (annotator_id v) w1 Hw1) as (fs & _ & Hload).
  pose proof Hsave as Hinv.
  apply save_annotations_inv in Hinv as ((_ & Hp & Hs & Hpage) & _).
  destruct (save_completed_rows _ _ _ _ _ _ Hkey Hsave) as (rows & Hrows & _ & Ht).
  eexists _, rows.
  unfold _save_sentence_and_reload.
  erewrite bind_ok; cycle 1.
  { erewrite bind_ok by exact Hsave.
    erewrite bind_ok by exact Hload.
    apply update_session_run. }
  rewrite finish_save_result.
  split; [done|]. split; [done|]. cbn.
  rewrite Ht, Hp, Hpage, Hs. by repeat split.
Qed.

Lemma saved_entry_reloaded v p :
  reloaded (saved_entry v p) = with_no_pronoun false (saved_entry v p).
Proof. reflexivity. Qed.

Lemma do_save_run v and_next w :
  store_reachable w →
  current_pronouns (session w) = [] ∨
    existsb has_pronoun_text (current_pronouns (session w)) = true →
  _do_save v and_next w =
  (_save_sentence_and_reload v
     (saved_entry v <$> List.filter has_pronoun_text (current_pronouns (session w)));;
   finish_save v and_next) w.
Proof.
  intros _ Hgo. unfold _do_save. rewrite bind_unfold. unfold gets at 1.
  cbv beta iota.
  assert (negb (existsb has_pronoun_text (current_pronouns (session w))) &&
          negb (bool_decide (current_pronouns (session w) = [])) = false) as ->.
  { destruct Hgo as [->| ->]; [|done]. by rewrite bool_decide_eq_true_2. }
  rewrite bind_unfold. unfold lift at 1. by rewrite entry_records_spec.
Qed.

Lemma filter_session_after_save v tbl records rows :
  Forall (carries_key (s_ID (row v)) (sentence_id_of (row v))) records →
  annotation_rows (annotator_id v) records = Ok rows →
  filter (carries_key (s_ID (row v)) (sentence_id_of (row v)))
    (loaded_record <$>
       filter (λ r, r_annotator_id r = annotator_id v)
              (rows_off (view_key v) tbl ++ rows))
  = reloaded <$> records.
Proof.
  intros Hkey Hrows. rewrite filter_loaded_records.
  fold (view_key v). rewrite rows_for_app, rows_for_rows_off. simpl.
  rewrite rows_for_all by by eapply annotation_rows_keys.
  by eapply loaded_records_annotation_rows.
Qed.

(** X5: what the Yes form saves is what it finds again.  In a world whose
    requests go through, a click that is not rejected completes with a
    rerun; afterwards the annotations of the session for the sentence are
    the entries that had pronoun text, in order, stripped and marked as
    pronoun annotations, the form is empty and its sentence key is cleared;
    rows of other keys and the page are as before. *)
Theorem do_save_round_trip v and_next w :
  store_reachable w →
  current_pronouns (session w) = [] ∨
    existsb has_pronoun_text (current_pronouns (session w)) = true →
  ∃ w',
    _do_save v and_next w = (Raise RerunException, w')
    ∧ filter (carries_key (s_ID (row v)) (sentence_id_of (row v)))
             (annotations (session w'))
      = (λ p, with_no_pronoun false (saved_entry v p))
          <$> List.filter has_pronoun_text (current_pronouns (session w))
    ∧ current_pronouns (session w') = []
    ∧ current_sent_key (session w') = None
    ∧ rows_off (view_key v) (annotations_tbl w')
      = rows_off (view_key v) (annotations_tbl w)
    ∧ page w' = page w.
Proof.
  intros Hw Hgo. rewrite (do_save_run v and_next w Hw Hgo).
  destruct (save_and_finish_run v
              (saved_entry v <$> List.filter has_pronoun_text
                                   (current_pronouns (session w)))
              and_next w Hw (saved_entries_carry_key _ _))
    as (w' & rows & -> & Hrows & Ht & _ & Hpage & Hs).
  exists w'. split; [done|]. rewrite Hs. cbn [session_after_save annotations
    current_pronouns current_sent_key].
  split; [|split; [done|split; [done|split; [|done]]]].
  - rewrite Ht.
    rewrite (filter_session_after_save v (annotations_tbl w)
               (saved_entry v <$> List.filter has_pronoun_text
                                    (current_pronouns (session w))) rows);
      [|apply saved_entries_carry_key|done].
    by rewrite <-list_fmap_compose.
  - rewrite Ht. unfold rows_off at 1. rewrite filter_app.
    fold (rows_off (view_key v) (rows_off (view_key v) (annotations_tbl w))).
    assert (filter (λ r, key_of r ≠ view_key v) rows = []) as ->.
    { assert (Forall (λ r, key_of r = view_key v) rows) as Hk
        by (eapply annotation_rows_keys; [apply saved_entries_carry_key|done]).
      clear -Hk. induction Hk as [|r rows Hr _ IH]; [done|].
      by rewrite filter_cons_False by (by intros []). }
    rewrite app_nil_r. unfold rows_off. rewrite list_filter_filter.
    apply list_filter_iff. intros r. split; [by intros [? _]|by split].
Qed.

Lemma do_save_round_trip_witness :
  ∃ w',
    _do_save sample_view true
      (editing_world [sample_entry " ya "; sample_entry "  "]
                     [marker_row "olena" "p1" 3]) = (Raise RerunException, w')
    ∧ filter (carries_key "p1" 3) (annotations (session w'))
      = [with_no_pronoun false (saved_entry sample_view (sample_entry " ya "))]
    ∧ current_pronouns (session w') = []
    ∧ current_sent_key (session w') = None
    ∧ rows_off (view_key sample_view) (annotations_tbl w')
      = rows_off (view_key sample_view) [marker_row "olena" "p1" 3]
    ∧ page w' = [].
Proof.
  apply (do_save_round_trip sample_view true
           (editing_world [sample_entry " ya "; sample_entry "  "]
                          [marker_row "olena" "p1" 3])).
  - split; [by eexists|constructor].
  - right. reflexivity.
Defined.

Lemma do_save_no_pronoun_run v and_next w :
  _do_save_no_pronoun v and_next w =
  (_save_sentence_and_reload v [no_pronoun_record v];; finish_save v and_next) w.
Proof. reflexivity. Qed.

Lemma no_pronoun_record_carries_key v :
  Forall (carries_key (s_ID (row v)) (sentence_id_of (row v)))
         [no_pronoun_record v].
Proof. by repeat constructor. Qed.

Lemma loaded_record_ID r : a_ID (loaded_record r) = Some (r_poem_id r).
Proof. unfold loaded_record. by destruct (r_no_pronoun r). Qed.

Lemma loaded_records_have_ID (rows : list arow) :
  Forall (λ a, is_Some (a_ID a)) (loaded_record <$> rows).
Proof.
  apply Forall_fmap, Forall_true. intros r. simpl.
  rewrite loaded_record_ID. by eexists.
Qed.

(** The key of a sentence is reviewed, after a completed save, exactly when
    the save had records. *)
Lemma reviewed_after_save (v : view) (records : list annot) (rows tbl : list arow)
    (reviewed : gset sent_key) :
  Forall (carries_key (s_ID (row v)) (sentence_id_of (row v))) records →
  annotation_rows (annotator_id v) records = Ok rows →
  get_reviewed_sentences
    (loaded_record <$>
       filter (λ r, r_annotator_id r = annotator_id v)
              (rows_off (view_key v) tbl ++ rows)) = Ok reviewed →
  sentence_key (row v) ∈ reviewed ↔ records ≠ [].
Proof.
  intros Hkey Hrows Hreviewed.
  rewrite (elem_of_get_reviewed_sentences _ _ _ Hreviewed).
  pose proof (filter_session_after_save v tbl records rows Hkey Hrows) as Hf.
  split.
  - intros (a & Ha & HID & Hsid) ->.
    assert (a ∈ filter (carries_key (s_ID (row v)) (sentence_id_of (row v)))
                (loaded_record <$>
                   filter (λ r, r_annotator_id r = annotator_id v)
                          (rows_off (view_key v) tbl ++ rows))) as Hin
      by (apply list_elem_of_filter; by split).
    rewrite Hf in Hin. by apply elem_of_nil in Hin.
  - intros Hne. destruct records as [|a records]; [done|].
    assert (reloaded a ∈ filter (carries_key (s_ID (row v)) (sentence_id_of (row v)))
                (loaded_record <$>
                   filter (λ r, r_annotator_id r = annotator_id v)
                          (rows_off (view_key v) tbl ++ rows))) as Hin
      by (rewrite Hf; left).
    apply list_elem_of_filter in Hin as [[HID Hsid] Hin].
    by exists (reloaded a).
Qed.

(** X6: the review status after a click.  In a world whose requests go
    through, a click on a No button completes and leaves the sentence in
    the reviewed set of the session; a click on a Yes button that is not
    rejected completes and leaves the sentence in the reviewed set exactly
    when the form held an entry: saved from an empty form, the sentence is
    unreviewed again, whatever was stored for it. *)
Theorem click_sets_review_status v and_next w :
  store_reachable w →
  (∃ w' reviewed,
     _do_save_no_pronoun v and_next w = (Raise RerunException, w') ∧
     get_reviewed_sentences (annotations (session w')) = Ok reviewed ∧
     sentence_key (row v) ∈ reviewed)
  ∧ (current_pronouns (session w) = [] ∨
       existsb has_pronoun_text (current_pronouns (session w)) = true →
     ∃ w' reviewed,
       _do_save v and_next w = (Raise RerunException, w') ∧
       get_reviewed_sentences (annotations (session w')) = Ok reviewed ∧
       (sentence_key (row v) ∈ reviewed ↔ current_pronouns (session w) ≠ [])).
Proof.
  intros Hw.
  assert (∀ records,
    Forall (carries_key (s_ID (row v)) (sentence_id_of (row v))) records →
    ∃ w' reviewed,
      (_save_sentence_and_reload v records;; finish_save v and_next) w
      = (Raise RerunException, w') ∧
      get_reviewed_sentences (annotations (session w')) = Ok reviewed ∧
      (sentence_key (row v) ∈ reviewed ↔ records ≠ [])) as Hany.
  { intros records Hkey.
    destruct (save_and_finish_run v records and_next w Hw Hkey)
      as (w' & rows & Hrun & Hrows & Ht & _ & _ & Hs).
    destruct (get_reviewed_sentences_total (annotations (session w')))
      as [reviewed Hreviewed].
    { rewrite Hs. cbn [session_after_save annotations].
      apply loaded_records_have_ID. }
    exists w', reviewed. split; [done|]. split; [done|].
    rewrite Hs, Ht in Hreviewed. cbn [session_after_save annotations] in Hreviewed.
    by eapply reviewed_after_save. }
  split.
  - destruct (Hany _ (no_pronoun_record_carries_key v))
      as (w' & reviewed & Hrun & Hreviewed & Hin).
    exists w', reviewed. rewrite do_save_no_pronoun_run.
    split; [done|]. split; [done|]. by apply Hin.
  - intros Hgo.
    destruct (Hany _ (saved_entries_carry_key v
                        (List.filter has_pronoun_text
                                     (current_pronouns (session w)))))
      as (w' & reviewed & Hrun & Hreviewed & Hin).
    exists w', reviewed. rewrite (do_save_run v and_next w Hw Hgo).
    split; [done|]. split; [done|]. rewrite Hin.
    destruct Hgo as [Hnil|Hsome].
    + rewrite Hnil. simpl. by split.
    + split; [intros _ Hnil; by rewrite Hnil in Hsome|]. intros _.
      apply existsb_exists in Hsome as (p & Hp & Htext).
      intros Hempty%fmap_nil_inv.
      assert (List.In p (List.filter has_pronoun_text
                                     (current_pronouns (session w)))) as Hin'
        by (apply List.filter_In; by split).
      by rewrite Hempty in Hin'.
Qed.

Lemma click_sets_review_status_witness :
  ∃ w' reviewed,
    _do_save sample_view false
      (editing_world [] [pronoun_row "olena" "p1" 3 "ya"])
    = (Raise RerunException, w') ∧
    get_reviewed_sentences (annotations (session w')) = Ok reviewed ∧
    (sentence_key (row sample_view) ∈ reviewed ↔
     current_pronouns
       (session (editing_world [] [pronoun_row "olena" "p1" 3 "ya"])) ≠ []).
Proof.
  destruct (click_sets_review_status sample_view false
              (editing_world [] [pronoun_row "olena" "p1" 3 "ya"]))
    as [_ Hyes].
  - split; [by eexists|constructor].
  - apply Hyes. by left.
Defined.

(** ** The cursor *)

(** X7: the index that "Next →" and "Save and next" force.  A click on
    "Next →" reruns the script with the forced index
    [min (idx + 1) (total - 1)] and changes nothing else.  On a view with
    sentences, with the cursor on one of them, that index is again on a
    sentence, one step on or, from the last sentence, the last sentence
    itself.  On a view without sentences, where the cursor is 0, it is -1. *)
Theorem forced_index_bounds v w :
  next_click v w =
  (Raise RerunException,
   set_session
     (set_force_nav_idx (Some (Z.min (idx v + 1) (total v - 1))) (session w)) w)
  ∧ (0 ≤ idx v < total v →
     0 ≤ Z.min (idx v + 1) (total v - 1) < total v ∧
     idx v ≤ Z.min (idx v + 1) (total v - 1) ≤ idx v + 1 ∧
     (Z.min (idx v + 1) (total v - 1) = idx v ↔ idx v = total v - 1))
  ∧ (total v = 0 → idx v = 0 → Z.min (idx v + 1) (total v - 1) = -1).
Proof.
  split; [reflexivity|]. split; [|lia].
  intros [Hlo Hhi]. repeat split; lia.
Qed.

Lemma forced_index_bounds_witness :
  0 ≤ Z.min (idx sample_view + 1) (total sample_view - 1) < total sample_view ∧
  idx sample_view ≤ Z.min (idx sample_view + 1) (total sample_view - 1)
    ≤ idx sample_view + 1 ∧
  (Z.min (idx sample_view + 1) (total sample_view - 1) = idx sample_view ↔
   idx sample_view = total sample_view - 1).
Proof.
  destruct (forced_index_bounds sample_view (sample_world [] []))
    as (_ & Hbounds & _).
  apply Hbounds. simpl. lia.
Defined.

(** ** Clicks that do not complete *)

(** A save of a view that does not end in the rerun failed in
    [save_annotations_for_sentence], before the session was touched. *)
Lemma save_and_finish_failed v records and_next w o w' :
  (_save_sentence_and_reload v records;; finish_save v and_next) w = (o, w') →
  o = Raise RerunException
  ∨ (∃ msg, o = Raise (RuntimeError msg)) ∧
    save_annotations_for_sentence
      (annotator_id v) (s_ID (row v)) (sentence_id_of (row v)) records w
    = (o, w').
Proof.
  unfold _save_sentence_and_reload.
  intros [([] & w3 & Hsr & Hfin)|(e & Hsr & ->)]%bind_inv.
  - rewrite finish_save_result in Hfin. injection Hfin as <- _. by left.
  - right.
    apply bind_inv in Hsr as [([] & w1 & Hsave & Hrest)|(e0 & Hsave & [= ->])].
    + exfalso.
      apply bind_inv in Hrest as [(loaded & w2 & Hload & Hup)|(e0 & Hload & [= ->])].
      * by rewrite update_session_run in Hup.
      * by apply load_annotations_inv in Hload as (_ & _ & _ & [[? _]|[? _]]).
    + split; [|done].
      apply save_annotations_inv in Hsave as (_ & [(? & _)|(msg & [= ->] & _)]);
        [done|]. by exists msg.
Qed.

(** X8: a click on a save button never lets an error escape, and a click
    that does not complete costs the annotator nothing of the form.  The
    click either reruns the script (the save completed) or returns; when it
    returns, the session, with the entries of the form, is as before, and
    the page has one message more: the warning of the rejected save, or
    "Save failed: " with the error of the failed save. *)
Theorem aborted_click_keeps_form v and_next w o w' :
  on_click (_do_save v and_next) w = (o, w') ∨
  on_click (_do_save_no_pronoun v and_next) w = (o, w') →
  o = Raise RerunException
  ∨ (o = Ok tt ∧ session w' = session w ∧
     (page w' =
        page w ++ [st_warning "Enter at least one pronoun or select 'No'"]
      ∨ ∃ msg, page w' = page w ++ [st_error ("Save failed: " +:+ msg)])).
Proof.
  assert (∀ records,
    on_click (_save_sentence_and_reload v records;; finish_save v and_next) w
    = (o, w') →
    o = Raise RerunException
    ∨ (o = Ok tt ∧ session w' = session w ∧
       ∃ msg, page w' = page w ++ [st_error ("Save failed: " +:+ msg)]))
    as Hsave.
  { intros records. unfold on_click.
    intros [([] & Hrun & ->)|[(e & w1 & Hrun & He & Hh)|(e & Hrun & He & ->)]]
      %try_except_inv.
    - by apply save_and_finish_failed in Hrun as [?|[[? ?] _]].
    - apply save_and_finish_failed in Hrun as [[= ->]|[[msg [= ->]] Hrun]];
        [done|].
      apply save_annotations_inv in Hrun as ((_ & _ & Hs & Hpage) & _).
      unfold modify in Hh. injection Hh as <- <-.
      right. split; [done|]. split; [done|]. eexists. simpl. by rewrite Hpage.
    - left. apply save_and_finish_failed in Hrun as [?|[[msg [= ->]] _]]; done. }
  intros [Hyes|Hno].
  - destruct (_do_save v and_next w) as [o1 w1] eqn:Hdo.
    pose proof Hdo as [(_ & _ & -> & ->)|[_ Hrun]]%do_save_inv.
    + unfold on_click, try_except in Hyes. rewrite Hdo in Hyes.
      injection Hyes as <- <-. right. split; [done|]. split; [done|]. by left.
    + assert (on_click (_save_sentence_and_reload v
                 (saved_entry v <$> List.filter has_pronoun_text
                                      (current_pronouns (session w)));;
               finish_save v and_next) w = (o, w')) as Hclick.
      { rewrite <-Hyes. unfold on_click, try_except. by rewrite Hdo, Hrun. }
      apply Hsave in Hclick as [?|(? & ? & ?)]; [by left|].
      right. split; [done|]. split; [done|]. by right.
  - assert (on_click (_save_sentence_and_reload v [no_pronoun_record v];;
                      finish_save v and_next) w = (o, w')) as Hclick
      by exact Hno.
    apply Hsave in Hclick as [?|(? & ? & ?)]; [by left|].
    right. split; [done|]. split; [done|]. by right.
Qed.

Lemma aborted_click_keeps_form_witness :
  (on_click (_do_save sample_view false)
     (mk_world None [] [] ∅
        (mk_session [] ∅ [sample_entry "ya"] (Some ("p1", 3)) None) [])).1
  = Raise RerunException
  ∨ ((on_click (_do_save sample_view false)
        (mk_world None [] [] ∅
           (mk_session [] ∅ [sample_entry "ya"] (Some ("p1", 3)) None) [])).1
     = Ok tt ∧
     session
       (on_click (_do_save sample_view false)
          (mk_world None [] [] ∅
             (mk_session [] ∅ [sample_entry "ya"] (Some ("p1", 3)) None) [])).2
     = mk_session [] ∅ [sample_entry "ya"] (Some ("p1", 3)) None ∧
     (page
        (on_click (_do_save sample_view false)
           (mk_world None [] [] ∅
              (mk_session [] ∅ [sample_entry "ya"] (Some ("p1", 3)) None) [])).2
      = [] ++ [st_warning "Enter at least one pronoun or select 'No'"]
      ∨ ∃ msg,
          page
            (on_click (_do_save sample_view false)
               (mk_world None [] [] ∅
                  (mk_session [] ∅ [sample_entry "ya"] (Some ("p1", 3)) None) [])).2
          = [] ++ [st_error ("Save failed: " +:+ msg)])).
Proof.
  apply (aborted_click_keeps_form sample_view false
           (mk_world None [] [] ∅
              (mk_session [] ∅ [sample_entry "ya"] (Some ("p1", 3)) None) [])).
  left. apply surjective_pairing.
Defined.

(** ** Perspectives *)

Lemma upsert_perspective_cases annotator poem prow0 w o w' :
  upsert_perspective annotator poem prow0 w = (o, w') →
  same_surroundings_but_perspectives w w' ∧
  ((o = Ok tt ∧
    perspectives_tbl w' = <[(annotator, poem) := prow0]> (perspectives_tbl w))
   ∨ (∃ msg, o = Raise (APIError msg) ∧ perspectives_tbl w' = perspectives_tbl w)).
Proof.
  intros [(msg & -> & (? & ? & ? & ?) & ? & ?)|(fs & -> & ->)]%execute_inv.
  - split; [by repeat split|]. right. by exists msg.
  - split; [by repeat split|]. by left.
Qed.

(** What [save_poem_perspective] does, by cases. *)
Lemma save_poem_perspective_cases annotator poem data w o w' :
  save_poem_perspective annotator poem data w = (o, w') →
  same_surroundings_but_perspectives w w' ∧
  ((o = Ok tt ∧
    perspectives_tbl w' =
      <[(annotator, poem) := stored_perspective data]> (perspectives_tbl w))
   ∨ (∃ msg, o = Raise (RuntimeError msg) ∧
             perspectives_tbl w' = perspectives_tbl w)).
Proof.
  unfold save_poem_perspective.
  intros [(a & Hbody & ->)|[(e & w1 & Hbody & He & Hh)|(e & Hbody & He & ->)]]
    %try_except_inv.
  - apply bind_inv in Hbody as [(sb & w1 & [-> _]%get_supabase_inv & Hbody)|
                                (? & _ & ?)]; [|done].
    apply upsert_perspective_cases in Hbody as (? & [[_ ?]|(? & ? & _)]); [|done].
    split; [done|]. left. by destruct a.
  - unfold raise in Hh. injection Hh as <- <-.
    apply bind_inv in Hbody as [(sb & w2 & [-> _]%get_supabase_inv & Hbody)|
                                (? & [-> _]%get_supabase_inv & _)].
    + apply upsert_perspective_cases in Hbody as (? & [[? _]|(? & _ & ?)]);
        [done|].
      split; [done|]. right. by eexists.
    + split; [by repeat split|]. right. by eexists.
  - exfalso.
    apply bind_inv in Hbody as [(sb & w2 & [-> _]%get_supabase_inv & Hbody)|
                                (e0 & [-> Hsb]%get_supabase_inv & [= ->])].
    + by apply upsert_perspective_cases in Hbody
        as (_ & [[? _]|(? & [= ->] & _)]).
    + by destruct Hsb as [(? & ? & _)|[[= ->] _]].
Qed.

(** X9: saving a perspective is all or nothing.  A completed
    [save_poem_perspective] binds the (annotator, poem) key to the row built
    from the data, absent fields stored as empty text, whatever the key held
    before; a failed one raises [RuntimeError] and leaves the table as it
    was.  In both cases the annotations table, the session and the page are
    untouched. *)
Theorem save_poem_perspective_all_or_nothing annotator poem data w o w' :
  save_poem_perspective annotator poem data w = (o, w') →
  annotations_tbl w' = annotations_tbl w ∧
  session w' = session w ∧
  page w' = page w ∧
  ((o = Ok tt ∧
    perspectives_tbl w' =
      <[(annotator, poem) := stored_perspective data]> (perspectives_tbl w))
   ∨ (∃ msg, o = Raise (RuntimeError msg) ∧
             perspectives_tbl w' = perspectives_tbl w)).
Proof.
  intros ((_ & Ht & Hs & Hpage) & Hcases)%save_poem_perspective_cases.
  by repeat split.
Qed.

Lemma save_poem_perspective_all_or_nothing_witness :
  (∃ msg, Raise (RuntimeError "Failed to save poem perspective: timeout")
          = Raise (A:=unit) (RuntimeError msg)) ∧
  perspectives_tbl
    (save_poem_perspective "olena" "p1"
       (mk_persp (Some "Mixed") None None None)
       (mk_world (Some ("u", "k")) [Some "timeout"] []
                 {[ ("olena", "p1") := mk_prow "Other" "" "" "" ]}
                 sample_session [])).2
  = {[ ("olena", "p1") := mk_prow "Other" "" "" "" ]}.
Proof.
  destruct (save_poem_perspective_all_or_nothing "olena" "p1"
              (mk_persp (Some "Mixed") None None None)
              (mk_world (Some ("u", "k")) [Some "timeout"] []
                        {[ ("olena", "p1") := mk_prow "Other" "" "" "" ]}
                        sample_session [])
              (Raise (RuntimeError "Failed to save poem perspective: timeout"))
              (save_poem_perspective "olena" "p1"
                 (mk_persp (Some "Mixed") None None None)
                 (mk_world (Some ("u", "k")) [Some "timeout"] []
                           {[ ("olena", "p1") := mk_prow "Other" "" "" "" ]}
                           sample_session [])).2)
    as (_ & _ & _ & [[Hok _]|(msg & Hmsg & Htbl)]).
  - reflexivity.
  - discriminate Hok.
  - split; [by exists msg|exact Htbl].
Defined.

(** The dict that the loop of [load_poem_perspectives] fills. *)
Lemma foldl_insert_not_in (rows : list (string * prow))
    (acc : gmap string persp) (p : string) :
  p ∉ rows.*1 →
  foldl (λ out row, <[row.1 := loaded_perspective row.2]> out) acc rows !! p
  = acc !! p.
Proof.
  revert acc. induction rows as [|[q x] rows IH]; intros acc Hp; [done|].
  simpl in *. apply not_elem_of_cons in Hp as [Hpq Hp].
  rewrite IH by done. by rewrite lookup_insert_ne.
Qed.

Lemma foldl_insert_in (rows : list (string * prow))
    (acc : gmap string persp) (p : string) (x : prow) :
  NoDup rows.*1 → (p, x) ∈ rows →
  foldl (λ out row, <[row.1 := loaded_perspective row.2]> out) acc rows !! p
  = Some (loaded_perspective x).
Proof.
  revert acc. induction rows as [|[q y] rows IH]; intros acc Hnd Hin.
  - by apply elem_of_nil in Hin.
  - simpl in *. apply NoDup_cons in Hnd as [Hq Hnd].
    apply elem_of_cons in Hin as [[= -> ->]|Hin].
    + rewrite foldl_insert_not_in by done. by rewrite lookup_insert_eq.
    + by apply IH.
Qed.

Lemma own_perspectives_elem (annotator : string)
    (tbl : gmap (string * string) prow) (p : string) (x : prow) :
  (p, x) ∈ omap (λ kv : string * string * prow,
                   if decide (kv.1.1 = annotator) then Some (kv.1.2, kv.2)
                   else None) (map_to_list tbl)
  ↔ tbl !! (annotator, p) = Some x.
Proof.
  rewrite list_elem_of_omap. split.
  - intros ([[a q] y] & Hin & Hf). simpl in Hf.
    destruct (decide (a = annotator)) as [->|]; [|done].
    injection Hf as -> ->. by apply elem_of_map_to_list in Hin.
  - intros Hl. exists ((annotator, p), x). split.
    + by apply elem_of_map_to_list.
    + simpl. by rewrite decide_True.
Qed.

Lemma own_perspectives_NoDup (annotator : string)
    (tbl : gmap (string * string) prow) :
  NoDup (omap (λ kv : string * string * prow,
                 if decide (kv.1.1 = annotator) then Some (kv.1.2, kv.2)
                 else None) (map_to_list tbl)).*1.
Proof.
  pose proof (NoDup_fst_map_to_list tbl) as Hnd.
  induction (map_to_list tbl) as [|[[a q] y] l IH]; [constructor|].
  simpl in *. apply NoDup_cons in Hnd as [Hq Hnd].
  destruct (decide (a = annotator)) as [->|]; [|by apply IH].
  simpl. apply NoDup_cons. split; [|by apply IH].
  intros Hin. apply Hq.
  apply list_elem_of_fmap in Hin as ([q' y'] & -> & Hin).
  apply list_elem_of_omap in Hin as ([[a' q''] y''] & Hin & Hf).
  simpl in Hf. destruct (decide (a' = annotator)) as [->|]; [|done].
  injection Hf as -> ->.
  apply list_elem_of_fmap. by exists ((annotator, q'), y').
Qed.

Lemma loaded_perspectives_lookup (annotator : string)
    (tbl : gmap (string * string) prow) (p : string) :
  foldl (λ out row, <[row.1 := loaded_perspective row.2]> out)
    (∅ : gmap string persp)
    (omap (λ kv : string * string * prow,
             if decide (kv.1.1 = annotator) then Some (kv.1.2, kv.2)
             else None) (map_to_list tbl)) !! p
  = loaded_perspective <$> tbl !! (annotator, p).
Proof.
  destruct (tbl !! (annotator, p)) as [x|] eqn:Hl; simpl.
  - apply foldl_insert_in; [apply own_perspectives_NoDup|].
    by apply own_perspectives_elem.
  - rewrite foldl_insert_not_in; [done|].
    intros ([q y] & -> & Hin)%list_elem_of_fmap.
    apply own_perspectives_elem in Hin. simpl in Hl. congruence.
Qed.

Lemma select_perspectives_inv (annotator : string) w o w' :
  select_perspectives annotator w = (o, w') →
  perspectives_tbl w' = perspectives_tbl w ∧ same_surroundings w w' ∧
  annotations_tbl w' = annotations_tbl w ∧
  ((∃ msg, o = Raise (APIError msg))
   ∨ o = Ok (omap (λ kv : string * string * prow,
                     if decide (kv.1.1 = annotator) then Some (kv.1.2, kv.2)
                     else None) (map_to_list (perspectives_tbl w)))).
Proof.
  intros [(msg & -> & ? & ? & ?)|(fs & -> & ->)]%execute_inv.
  - split; [done|]. split; [done|]. split; [done|]. left. by exists msg.
  - split; [done|]. split; [by repeat split|]. split; [done|]. by right.
Qed.

(** What [load_poem_perspectives] does, by cases. *)
Lemma load_poem_perspectives_inv (annotator : string) w o w' :
  load_poem_perspectives annotator w = (o, w') →
  annotations_tbl w' = annotations_tbl w ∧
  perspectives_tbl w' = perspectives_tbl w ∧
  session w' = session w ∧
  ((∃ out : gmap string persp,
      o = Ok out ∧ page w' = page w ∧
      ∀ p, out !! p = loaded_perspective <$> perspectives_tbl w !! (annotator, p))
   ∨ (o = Ok ∅ ∧ ∃ msg, page w' = page w ++ [st_error msg])).
Proof.
  pose proof (load_poem_perspectives_cases annotator w) as Hc.
  destruct (load_poem_perspectives_body annotator w) as [[out|e] w1] eqn:Hbody;
    rewrite Hc; intros [= <- <-]; unfold load_poem_perspectives_body in Hbody.
  - apply bind_inv in Hbody as [(sb & w2 & [-> _]%get_supabase_inv & Hbody)|
                                (? & _ & ?)]; [|done].
    apply bind_inv in Hbody as [(rows & w2 & Hsel & [= <- <-])|(? & _ & ?)];
      [|done].
    apply select_perspectives_inv in Hsel
      as (Hp & (_ & _ & Hs & Hpage) & Ht & [(? & ?)|[= ->]]); [done|].
    repeat split; [done..|]. left. eexists. split; [done|]. split; [done|].
    intros p. apply loaded_perspectives_lookup.
  - assert (annotations_tbl w1 = annotations_tbl w ∧
            perspectives_tbl w1 = perspectives_tbl w ∧ same_surroundings w w1)
      as (Ht & Hp & _ & _ & Hs & Hpage).
    { apply bind_inv in Hbody as [(sb & w2 & [-> _]%get_supabase_inv & Hbody)|
                                  (? & [-> _]%get_supabase_inv & _)].
      - apply bind_inv in Hbody as [(rows & w3 & _ & ?)|(? & Hsel & _)];
          [done|].
        by apply select_perspectives_inv in Hsel as (? & ? & ? & _).
      - repeat split. }
    repeat split; [done..|]. right. split; [done|].
    eexists. simpl. by rewrite Hpage.
Qed.

(** X10: [load_poem_perspectives] only reads.  It never raises and leaves
    both tables and the session as they are.  It returns a dict that binds
    a poem ID exactly when the annotator has a perspective row for that
    poem, to the four fields of that row, and binds nothing of another
    annotator; or else, when the load failed, the empty dict with one error
    message added to the page. *)
Theorem load_poem_perspectives_reads_own_rows (annotator : string) w o w' :
  load_poem_perspectives annotator w = (o, w') →
  annotations_tbl w' = annotations_tbl w ∧
  perspectives_tbl w' = perspectives_tbl w ∧
  session w' = session w ∧
  ((∃ out : gmap string persp,
      o = Ok out ∧ page w' = page w ∧
      ∀ p, out !! p = loaded_perspective <$> perspectives_tbl w !! (annotator, p))
   ∨ (o = Ok ∅ ∧ ∃ msg, page w' = page w ++ [st_error msg])).
Proof. apply load_poem_perspectives_inv. Qed.

Lemma load_poem_perspectives_reads_own_rows_witness :
  perspectives_tbl
    (load_poem_perspectives "olena" (perspective_world sample_perspectives)).2
  = sample_perspectives
  ∧ session
      (load_poem_perspectives "olena" (perspective_world sample_perspectives)).2
    = sample_session.
Proof.
  destruct (load_poem_perspectives_reads_own_rows "olena"
              (perspective_world sample_perspectives)
              (load_poem_perspectives "olena"
                 (perspective_world sample_perspectives)).1
              (load_poem_perspectives "olena"
                 (perspective_world sample_perspectives)).2)
    as (_ & Hp & Hs & _).
  - apply surjective_pairing.
  - by split.
Defined.

Lemma save_poem_perspective_run (annotator poem : string) data w :
  store_reachable w →
  ∃ w', save_poem_perspective annotator poem data w = (Ok tt, w') ∧
        store_reachable w'.
Proof.
  intros [[sb Hsb] Hf].
  destruct (execute_run
    (λ w, (tt, set_perspectives_tbl
                 (<[(annotator, poem) := stored_perspective data]>
                    (perspectives_tbl w)) w)) w Hf) as (fs & Hfs & Hex).
  eexists. split.
  - unfold save_poem_perspective, try_except. rewrite bind_unfold.
    unfold get_supabase at 1. rewrite Hsb. cbn [getitem].
    unfold upsert_perspective. fold (stored_perspective data).
    rewrite Hex. reflexivity.
  - split; [by exists sb|done].
Qed.

Lemma load_poem_perspectives_run (annotator : string) w :
  store_reachable w →
  ∃ (out : gmap string persp) w',
    load_poem_perspectives annotator w = (Ok out, w') ∧
    ∀ p, out !! p = loaded_perspective <$> perspectives_tbl w !! (annotator, p).
Proof.
  intros [[sb Hsb] Hf].
  destruct (execute_run
    (λ w, (omap (λ kv : string * string * prow,
                   if decide (kv.1.1 = annotator) then Some (kv.1.2, kv.2)
                   else None) (map_to_list (perspectives_tbl w)), w))
    w Hf) as (fs & Hfs & Hex).
  pose proof (load_poem_perspectives_cases annotator w) as Hc.
  unfold load_poem_perspectives_body in Hc. rewrite bind_unfold in Hc.
  unfold get_supabase at 1 in Hc. rewrite Hsb in Hc. cbn [getitem] in Hc.
  rewrite bind_unfold in Hc. unfold select_perspectives in Hc.
  rewrite Hex in Hc. cbn in Hc.
  eexists _, _. split; [exact Hc|].
  intros p. apply loaded_perspectives_lookup.
Qed.

(** X11: a saved perspective is what loading gives back.  In a world whose
    requests go through, saving a perspective for a poem and loading the
    perspectives of the annotator binds that poem to the saved data, absent
    fields read back as empty text, and every other poem to what the table
    held for the annotator before. *)
Theorem perspective_round_trip (annotator poem : string) data w :
  store_reachable w →
  ∃ w1 w2 (loaded : gmap string persp),
    save_poem_perspective annotator poem data w = (Ok tt, w1)
    ∧ load_poem_perspectives annotator w1 = (Ok loaded, w2)
    ∧ loaded !! poem = Some (loaded_perspective (stored_perspective data))
    ∧ ∀ p, p ≠ poem →
           loaded !! p =
           loaded_perspective <$> perspectives_tbl w !! (annotator, p).
Proof.
  intros Hw.
  destruct (save_poem_perspective_run annotator poem data w Hw)
    as (w1 & Hsave & Hw1).
  destruct (load_poem_perspectives_run annotator w1 Hw1)
    as (loaded & w2 & Hload & Hlookup).
  exists w1, w2, loaded. split; [done|]. split; [done|].
  apply save_poem_perspective_cases in Hsave as (_ & [[_ Ht]|(? & ? & _)]);
    [|done].
  split.
  - by rewrite Hlookup, Ht, lookup_insert_eq.
  - intros p Hp. rewrite Hlookup, Ht, lookup_insert_ne; [done|]. congruence.
Qed.

Lemma perspective_round_trip_witness :
  ∃ w1 w2 (loaded : gmap string persp),
    save_poem_perspective "olena" "p1" (mk_persp (Some "1st person") None None None)
      (perspective_world sample_perspectives) = (Ok tt, w1)
    ∧ load_poem_perspectives "olena" w1 = (Ok loaded, w2)
    ∧ loaded !! "p1" =
      Some (loaded_perspective
              (stored_perspective (mk_persp (Some "1st person") None None None)))
    ∧ ∀ p, p ≠ "p1" →
           loaded !! p =
           loaded_perspective <$>
             perspectives_tbl (perspective_world sample_perspectives)
               !! ("olena", p).
Proof.
  apply (perspective_round_trip "olena" "p1"
           (mk_persp (Some "1st person") None None None)
           (perspective_world sample_perspectives)).
  split; [by eexists|constructor].
Defined.

(** X12: the button "Save poem perspective" keeps the session in step with
    the store.  The click never raises.  Either the row of the (annotator,
    poem) key is stored, the session binds the poem to the same data and
    "Saved" is shown; or the table and the session are as before and the
    failure is shown.  The data hold both select boxes, the author and the
    date of the sentence, with the secondary choice "None" as empty text,
    so what the session holds is what a load would return for the poem. *)
Theorem save_perspective_click_in_step v new_primary new_secondary w o w' :
  save_perspective_click v new_primary new_secondary w = (o, w') →
  let data := perspective_data v new_primary new_secondary in
  o = Ok tt ∧
  annotations_tbl w' = annotations_tbl w ∧
  loaded_perspective (stored_perspective data) = data ∧
  ((perspectives_tbl w' =
      <[(annotator_id v, s_ID (row v)) := stored_perspective data]>
        (perspectives_tbl w) ∧
    session w' =
      set_poem_perspectives
        (<[s_ID (row v) := data]> (poem_perspectives (session w))) (session w) ∧
    page w' = page w ++ [st_success "Saved"])
   ∨ (perspectives_tbl w' = perspectives_tbl w ∧
      session w' = session w ∧
      ∃ msg, page w' = page w ++ [st_error ("Save failed: " +:+ msg)])).
Proof.
  intros Hclick data. unfold save_perspective_click in Hclick.
  fold data in Hclick.
  apply try_except_inv in Hclick
    as [([] & Hbody & ->)|[(e & w1 & Hbody & He & Hh)|(e & Hbody & He & ->)]].
  - apply bind_inv in Hbody as [([] & w1 & Hsave & Hrest)|(? & _ & ?)]; [|done].
    apply bind_inv in Hrest as [([] & w2 & Hup & Hshow)|(? & _ & ?)]; [|done].
    rewrite update_session_run in Hup. injection Hup as <-.
    unfold modify in Hshow. injection Hshow as <-.
    apply save_poem_perspective_cases in Hsave
      as ((_ & Ht & Hs & Hpage) & [[_ Hp]|(? & ? & _)]); [|done].
    split; [done|]. split; [done|]. split; [done|]. left. simpl.
    by rewrite Hp, Hs, Hpage.
  - unfold modify in Hh. injection Hh as <- <-.
    apply bind_inv in Hbody as [([] & w2 & Hsave & Hrest)|(e0 & Hsave & [= ->])].
    + apply bind_inv in Hrest as [([] & w3 & Hup & Hshow)|(e0 & Hup & _)];
        [done|by rewrite update_session_run in Hup].
    + apply save_poem_perspective_cases in Hsave
        as ((_ & Ht & Hs & Hpage) & [[? _]|(msg & _ & Hp)]); [done|].
      split; [done|]. split; [done|]. split; [done|]. right. simpl.
      split; [done|]. split; [done|]. eexists. by rewrite Hpage.
  - exfalso.
    apply bind_inv in Hbody as [([] & w2 & Hsave & Hrest)|(e0 & Hsave & [= ->])].
    + apply bind_inv in Hrest as [([] & w3 & Hup & Hshow)|(e0 & Hup & _)];
        [done|by rewrite update_session_run in Hup].
    + by apply save_poem_perspective_cases in Hsave
        as (_ & [[? _]|(msg & [= ->] & _)]).
Qed.

Lemma save_perspective_click_in_step_witness :
  (save_perspective_click sample_view "Mixed" "None"
     (perspective_world sample_perspectives)).1 = Ok tt
  ∧ loaded_perspective
      (stored_perspective (perspective_data sample_view "Mixed" "None"))
    = perspective_data sample_view "Mixed" "None".
Proof.
  destruct (save_perspective_click_in_step sample_view "Mixed" "None"
              (perspective_world sample_perspectives)
              (save_perspective_click sample_view "Mixed" "None"
                 (perspective_world sample_perspectives)).1
              (save_perspective_click sample_view "Mixed" "None"
                 (perspective_world sample_perspectives)).2)
    as (Ho & _ & Hdata & _).
  - apply surjective_pairing.
  - by split.
Defined.

(** ** How saves compose *)

Lemma rows_off_app k tbl1 tbl2 :
  rows_off k (tbl1 ++ tbl2) = rows_off k tbl1 ++ rows_off k tbl2.
Proof. apply filter_app. Qed.

Lemma rows_off_rows_off k tbl : rows_off k (rows_off k tbl) = rows_off k tbl.
Proof.
  unfold rows_off. rewrite list_filter_filter. apply list_filter_iff.
  intros r. split; [by intros [? _]|by split].
Qed.

Lemma rows_off_comm k1 k2 tbl :
  rows_off k1 (rows_off k2 tbl) = rows_off k2 (rows_off k1 tbl).
Proof.
  unfold rows_off. rewrite !list_filter_filter. apply list_filter_iff.
  intros r. split; intros [? ?]; by split.
Qed.

Lemma rows_off_all k rows :
  Forall (λ r, key_of r = k) rows → rows_off k rows = [].
Proof.
  unfold rows_off. induction 1 as [|r rows Hr _ IH]; [done|].
  by rewrite filter_cons_False by (by intros []).
Qed.

Lemma rows_off_none k k' rows :
  k' ≠ k → Forall (λ r, key_of r = k) rows → rows_off k' rows = rows.
Proof.
  intros Hne. unfold rows_off. induction 1 as [|r rows Hr _ IH]; [done|].
  rewrite filter_cons_True by congruence. by rewrite IH.
Qed.

(** X13: on one key the last completed save wins.  When two completed
    saves for the same (annotator, poem, sentence) key follow each other,
    with records that carry the key, the table is the one that the second
    save alone would have left: nothing of the first save remains, and
    saving the same records twice is the same as saving them once. *)
Theorem save_last_writer_wins annotator poem sid records1 records2 w w1 w2 w2' :
  Forall (carries_key poem sid) records1 →
  Forall (carries_key poem sid) records2 →
  save_annotations_for_sentence annotator poem sid records1 w = (Ok tt, w1) →
  save_annotations_for_sentence annotator poem sid records2 w1 = (Ok tt, w2) →
  save_annotations_for_sentence annotator poem sid records2 w = (Ok tt, w2') →
  annotations_tbl w2 = annotations_tbl w2'.
Proof.
  intros Hk1 Hk2 Hs1 Hs2 Hs2'.
  apply save_completed_rows in Hs1 as (rows1 & Hrows1 & _ & Ht1); [|done].
  apply save_completed_rows in Hs2 as (rows2 & Hrows2 & _ & Ht2); [|done].
  apply save_completed_rows in Hs2' as (rows2' & Hrows2' & _ & Ht2'); [|done].
  assert (rows2' = rows2) as -> by congruence.
  rewrite Ht2, Ht2', Ht1, rows_off_app, rows_off_rows_off.
  rewrite (rows_off_all _ rows1)
    by exact (annotation_rows_keys _ _ _ _ _ Hk1 Hrows1).
  by rewrite app_nil_r.
Qed.

Lemma save_last_writer_wins_witness :
  annotations_tbl
    (sample_world [] [pronoun_row "taras" "p1" 3 "vin";
                      pronoun_row "olena" "p1" 3 "ya"])
  = annotations_tbl
      (sample_world [] [pronoun_row "taras" "p1" 3 "vin";
                        pronoun_row "olena" "p1" 3 "ya"]).
Proof.
  apply (save_last_writer_wins "olena" "p1" 3
           [marker_record "p1" 3] [pronoun_record "p1" 3 "ya"]
           (sample_world [] [pronoun_row "taras" "p1" 3 "vin"])
           (sample_world [] [pronoun_row "taras" "p1" 3 "vin";
                             marker_row "olena" "p1" 3])).
  - repeat constructor.
  - repeat constructor.
  - reflexivity.
  - reflexivity.
  - reflexivity.
Defined.

(** X14: completed saves for two different keys do not interfere.  In
    either order they leave, under every key, the same rows in the same
    order (the table as a whole may list the two groups of rows in another
    order). *)
Theorem saves_of_other_keys_commute
    annotator1 poem1 sid1 records1 annotator2 poem2 sid2 records2
    w wa wab wb wba :
  (annotator1, poem1, sid1) ≠ (annotator2, poem2, sid2) →
  Forall (carries_key poem1 sid1) records1 →
  Forall (carries_key poem2 sid2) records2 →
  save_annotations_for_sentence annotator1 poem1 sid1 records1 w = (Ok tt, wa) →
  save_annotations_for_sentence annotator2 poem2 sid2 records2 wa = (Ok tt, wab) →
  save_annotations_for_sentence annotator2 poem2 sid2 records2 w = (Ok tt, wb) →
  save_annotations_for_sentence annotator1 poem1 sid1 records1 wb = (Ok tt, wba) →
  ∀ k, rows_for k (annotations_tbl wab) = rows_for k (annotations_tbl wba).
Proof.
  intros Hne Hk1 Hk2 Ha Hab Hb Hba k.
  apply save_completed_rows in Ha as (rows1 & Hrows1 & _ & Hta); [|done].
  apply save_completed_rows in Hab as (rows2 & Hrows2 & _ & Htab); [|done].
  apply save_completed_rows in Hb as (rows2' & Hrows2' & _ & Htb); [|done].
  apply save_completed_rows in Hba as (rows1' & Hrows1' & _ & Htba); [|done].
  assert (rows2' = rows2) as -> by congruence.
  assert (rows1' = rows1) as -> by congruence.
  pose proof (annotation_rows_keys _ _ _ _ _ Hk1 Hrows1) as Hkeys1.
  pose proof (annotation_rows_keys _ _ _ _ _ Hk2 Hrows2) as Hkeys2.
  rewrite Htab, Htba, Hta, Htb, !rows_off_app.
  rewrite (rows_off_none _ _ rows1) by done.
  rewrite (rows_off_none _ _ rows2) by done.
  rewrite !rows_for_app, (rows_off_comm (annotator2, poem2, sid2)).
  rewrite <-!app_assoc. f_equal.
  destruct (decide (k = (annotator1, poem1, sid1))) as [->|Hk].
  - rewrite (rows_for_none _ _ rows2) by done. by rewrite app_nil_r.
  - rewrite (rows_for_none _ _ rows1) by done. by rewrite app_nil_r.
Qed.

Lemma saves_of_other_keys_commute_witness :
  rows_for ("olena", "p1", 3)
    (annotations_tbl
       (sample_world [] [pronoun_row "olena" "p1" 3 "ya";
                         marker_row "olena" "p1" 4]))
  = rows_for ("olena", "p1", 3)
      (annotations_tbl
         (sample_world [] [marker_row "olena" "p1" 4;
                           pronoun_row "olena" "p1" 3 "ya"])).
Proof.
  apply (saves_of_other_keys_commute
           "olena" "p1" 3 [pronoun_record "p1" 3 "ya"]
           "olena" "p1" 4 [marker_record "p1" 4]
           (sample_world [] [])
           (sample_world [] [pronoun_row "olena" "p1" 3 "ya"])
           (sample_world [] [pronoun_row "olena" "p1" 3 "ya";
                             marker_row "olena" "p1" 4])
           (sample_world [] [marker_row "olena" "p1" 4])
           (sample_world [] [marker_row "olena" "p1" 4;
                             pronoun_row "olena" "p1" 3 "ya"])).
  - intros [= ?].
  - repeat constructor.
  - repeat constructor.
  - reflexivity.
  - reflexivity.
  - reflexivity.
  - reflexivity.
Defined.

(** ** The rows of the Yes form *)

Lemma saved_entry_row_shape v p row0 :
  annotation_row (annotator_id v) (saved_entry v p) = Ok row0 →
  key_of row0 = view_key v ∧ r_no_pronoun row0 = false ∧
  ∃ c, r_cols row0 = Some c ∧ c_position c = r_sentence_id row0.
Proof.
  intros [= <-]. split; [done|]. split; [done|]. by eexists.
Qed.

(** X15: the rows that the Yes form adds.  Every row in the table after
    [_do_save], completed or not, was there before or is a pronoun row of
    the annotator and the sentence on display whose [position] is the
    sentence_id of that sentence: the form records no position of its
    own. *)
Theorem do_save_rows_of_the_sentence v and_next w o w' :
  _do_save v and_next w = (o, w') →
  ∀ r, r ∈ annotations_tbl w' →
       r ∈ annotations_tbl w
       ∨ (key_of r = view_key v ∧ r_no_pronoun r = false ∧
          ∃ c, r_cols r = Some c ∧ c_position c = r_sentence_id r).
Proof.
  intros [(_ & _ & -> & ->)|[_ Hsave]]%do_save_inv r Hr; [by left|].
  apply save_and_finish_inv in Hsave as (o1 & w1 & Hsave & Ht & _).
  rewrite Ht in Hr.
  assert (∀ j rows,
    annotation_rows (annotator_id v)
      (take j (saved_entry v <$> List.filter has_pronoun_text
                                   (current_pronouns (session w)))) = Ok rows →
    Forall (λ r, key_of r = view_key v ∧ r_no_pronoun r = false ∧
                 ∃ c, r_cols r = Some c ∧ c_position c = r_sentence_id r) rows)
    as Hshape.
  { intros j rows Hrows.
    eapply (annotation_rows_Forall _ (λ a, ∃ p, a = saved_entry v p));
      [| |exact Hrows].
    - intros a row0 [p ->]. apply saved_entry_row_shape.
    - apply Forall_take, Forall_fmap, Forall_true. intros p. by exists p. }
  apply save_annotations_inv in Hsave
    as (_ & [(_ & rows & Hrows & Hw1)|(msg & _ & [Hw1|(j & rows & _ & Hrows & Hw1)])]);
    rewrite Hw1 in Hr; [|by left|].
  - apply elem_of_app in Hr as [[_ ?]%list_elem_of_filter|Hr]; [by left|].
    right. rewrite <-(firstn_all (_ <$> _)) in Hrows.
    apply Hshape in Hrows. by eapply Forall_forall in Hrows.
  - apply elem_of_app in Hr as [[_ ?]%list_elem_of_filter|Hr]; [by left|].
    right. apply Hshape in Hrows. by eapply Forall_forall in Hrows.
Qed.

Lemma do_save_rows_of_the_sentence_witness :
  pronoun_row "olena" "p1" 3 "ya"
    ∈ annotations_tbl
        (editing_world [sample_entry "ya"] [marker_row "olena" "p1" 3])
  ∨ (key_of (pronoun_row "olena" "p1" 3 "ya") = view_key sample_view ∧
     r_no_pronoun (pronoun_row "olena" "p1" 3 "ya") = false ∧
     ∃ c, r_cols (pronoun_row "olena" "p1" 3 "ya") = Some c ∧
          c_position c = r_sentence_id (pronoun_row "olena" "p1" 3 "ya")).
Proof.
  apply (do_save_rows_of_the_sentence sample_view true
           (editing_world [sample_entry "ya"] [marker_row "olena" "p1" 3])
           (_do_save sample_view true
              (editing_world [sample_entry "ya"] [marker_row "olena" "p1" 3])).1
           (_do_save sample_view true
              (editing_world [sample_entry "ya"] [marker_row "olena" "p1" 3])).2).
  - apply surjective_pairing.
  - vm_compute. left.
Defined.

(** ** Errors of the export *)

Lemma export_rows_raises df l e :
  export_rows l df = Raise e →
  ∃ a, a ∈ l ∧
    ((e = KeyError "ID" ∧ a_ID a = None)
     ∨ (e = KeyError "sentence_id" ∧ a_sentence_id a = None)
     ∨ (e = KeyError "pronoun" ∧ a_pronoun a = None ∧
        is_Some (first_match df a))).
Proof.
  induction l as [|a l IH]; [done|]. simpl.
  destruct (a_ID a) as [ID|] eqn:HID; simpl.
  2:{ intros [= <-]. exists a. split; [left|]. by left. }
  destruct (a_sentence_id a) as [sid|] eqn:Hsid; simpl.
  2:{ intros [= <-]. exists a. split; [left|]. right. by left. }
  destruct (List.filter (sentence_matches ID sid) df) as [|s0 ?] eqn:Hm.
  - intros (a' & Ha' & Hcase)%IH. exists a'. split; [by right|done].
  - unfold pronoun_row_to_output.
    destruct (a_pronoun a) as [pronoun|] eqn:Hp; simpl.
    + destruct (export_rows l df) as [rows|e'] eqn:Hrest; simpl; [done|].
      intros [= <-]. destruct (IH eq_refl) as (a' & Ha' & Hcase).
      exists a'. split; [by right|done].
    + intros [= <-]. exists a. split; [left|]. right. right.
      split; [done|]. split; [done|].
      unfold first_match. rewrite HID, Hsid. simpl. rewrite Hm. by eexists.
Qed.

Lemma filter_is_pronoun_annot_idemp annotations :
  List.filter is_pronoun_annot (List.filter is_pronoun_annot annotations)
  = List.filter is_pronoun_annot annotations.
Proof.
  induction annotations as [|a l IH]; [done|]. simpl.
  destruct (is_pronoun_annot a) eqn:Ha; [|done]. simpl. by rewrite Ha, IH.
Qed.

(** X16: when and how [build_export_csv] fails.  The only error is a
    [KeyError], and only a pronoun annotation causes it: one without ["ID"],
    one without ["sentence_id"], or one without ["pronoun"] that has a
    sentence in the table (without such a sentence it is passed over before
    its pronoun is read).  Markers never matter, even malformed ones: the
    result is the same with all markers removed from the list. *)
Theorem build_export_csv_errors annotations df :
  build_export_csv annotations df
  = build_export_csv (List.filter is_pronoun_annot annotations) df
  ∧ ∀ e, build_export_csv annotations df = Raise e →
      ∃ a, a ∈ annotations ∧ default false (a_no_pronoun a) = false ∧
        ((e = KeyError "ID" ∧ a_ID a = None)
         ∨ (e = KeyError "sentence_id" ∧ a_sentence_id a = None)
         ∨ (e = KeyError "pronoun" ∧ a_pronoun a = None ∧
            is_Some (first_match df a))).
Proof.
  split.
  - by rewrite !build_export_csv_unfold, filter_is_pronoun_annot_idemp.
  - intros e. rewrite build_export_csv_unfold.
    destruct (List.filter is_pronoun_annot annotations) as [|a0 l] eqn:Hf;
      [done|].
    destruct (export_rows (a0 :: l) df) as [rows|e'] eqn:Hrows.
    + by rewrite (export_frame rows) by by eapply export_rows_keys.
    + intros [= <-]. apply export_rows_raises in Hrows as (a & Ha & Hcase).
      rewrite <-Hf in Ha.
      apply elem_of_filter_is_pronoun_annot in Ha as [Ha Hp].
      by exists a.
Qed.

Lemma build_export_csv_errors_witness :
  ∃ a,
    a ∈ [marker_record "p1" 4;
         mk_annot (Some "p1") (Some 3) None None None None None None None
                  None None None None] ∧
    default false (a_no_pronoun a) = false ∧
    ((KeyError "pronoun" = KeyError "ID" ∧ a_ID a = None)
     ∨ (KeyError "pronoun" = KeyError "sentence_id" ∧ a_sentence_id a = None)
     ∨ (KeyError "pronoun" = KeyError "pronoun" ∧ a_pronoun a = None ∧
        is_Some (first_match [sample_sentence "p1" 3 "third"] a))).
Proof.
  destruct (build_export_csv_errors
              [marker_record "p1" 4;
               mk_annot (Some "p1") (Some 3) None None None None None None None
                        None None None None]
              [sample_sentence "p1" 3 "third"]) as [_ Hraise].
  apply Hraise. reflexivity.
Defined.

(** ** The perspective export *)

Lemma filter_all_in {A} (P : A → Prop) `{!∀ x, Decision (P x)} (l : list A) :
  Forall P l → filter P l = l.
Proof.
  induction 1 as [|x l Hx _ IH]; [done|]. by rewrite filter_cons_True, IH.
Qed.

Lemma filter_none_in {A} (P : A → Prop) `{!∀ x, Decision (P x)} (l : list A) :
  Forall (λ x, ¬ P x) l → filter P l = [].
Proof.
  induction 1 as [|x l Hx _ IH]; [done|]. by rewrite filter_cons_False.
Qed.

(** A frame made of dicts that all have the keys [cols]. *)
Lemma frame_of_dicts_same_keys (cols : list string) (rows : list dict) :
  Forall (λ d, d.*1 = cols) rows →
  frame_of_dicts rows =
  {| columns := match rows with [] => [] | _ => cols end;
     frame_rows := rows |}.
Proof.
  unfold frame_of_dicts. intros Hrows. f_equal.
  destruct Hrows as [|d rows Hd Hrows]; [done|].
  simpl. rewrite Hd.
  rewrite (filter_all_in (λ k, k ∉ [])) by (apply Forall_true; set_solver).
  induction Hrows as [|d' rows Hd' _ IH]; [done|].
  simpl. rewrite Hd'.
  rewrite (filter_none_in (λ k, k ∉ cols)), app_nil_r; [exact IH|].
  apply Forall_forall. intros k Hk Hnot. by apply Hnot.
Qed.

Lemma csv_line_nonempty fields : csv_line fields ≠ "".
Proof.
  unfold csv_line. by destruct (join "," (csv_field <$> fields)).
Qed.

Lemma append_nonempty s1 s2 : s1 ≠ "" → s1 +:+ s2 ≠ "".
Proof. by destruct s1. Qed.

(** X17: the perspective export.  [build_perspectives_csv] returns the
    empty text exactly when the dict is empty.  Otherwise the text is the
    header [ID,author,date,perspective_primary,perspective_secondary,text]
    followed by one line for every perspective, in the order of the dict:
    unlike the pronoun export it passes over nothing, and a poem with no
    sentence in the table is written with an empty [text]. *)
Theorem build_perspectives_csv_spec (perspectives : persp_items) df :
  (build_perspectives_csv perspectives df = "" ↔ perspectives = [])
  ∧ (perspectives ≠ [] →
     build_perspectives_csv perspectives df =
     csv_line PERSPECTIVE_COLUMNS +:+
     String.concat ""
       ((λ item, perspective_line (perspective_row df item.1 item.2))
          <$> perspectives))
  ∧ (∀ poem data, (∀ s, s ∈ df → s_ID s ≠ poem) →
       dict_get (perspective_row df poem data) "text" = Some (CStr "")).
Proof.
  assert (perspectives ≠ [] →
     build_perspectives_csv perspectives df =
     csv_line PERSPECTIVE_COLUMNS +:+
     String.concat ""
       ((λ item, perspective_line (perspective_row df item.1 item.2))
          <$> perspectives)) as Hlines.
  { intros Hne. unfold build_perspectives_csv.
    destruct perspectives as [|item items]; [done|].
    rewrite (frame_of_dicts_same_keys PERSPECTIVE_COLUMNS)
      by (apply Forall_fmap, Forall_true; by intros []).
    unfold to_csv. cbn [columns frame_rows].
    by rewrite <-list_fmap_compose. }
  split; [|split; [done|]].
  - split; [|by intros ->].
    destruct perspectives as [|item items]; [done|]. intros Hempty.
    rewrite Hlines in Hempty by done.
    by apply append_nonempty in Hempty; [|apply csv_line_nonempty].
  - intros poem data Hnone. unfold perspective_row.
    destruct (List.filter (λ s, bool_decide (s_ID s = poem)) df)
      as [|s0 ?] eqn:Hf; [reflexivity|].
    assert (List.In s0 (List.filter (λ s, bool_decide (s_ID s = poem)) df))
      as [Hin Hs0%bool_decide_eq_true]%List.filter_In by (rewrite Hf; by left).
    by destruct (Hnone s0); [apply list_elem_of_In|].
Qed.

Lemma build_perspectives_csv_spec_witness :
  build_perspectives_csv
    [("p9", mk_persp (Some "Mixed") (Some "") (Some "Lesya Ukrainka") (Some "1893"))]
    [sample_sentence "p1" 3 "third"]
  = csv_line PERSPECTIVE_COLUMNS +:+
    String.concat ""
      ((λ item, perspective_line
                  (perspective_row [sample_sentence "p1" 3 "third"] item.1 item.2))
         <$> [("p9", mk_persp (Some "Mixed") (Some "") (Some "Lesya Ukrainka")
                              (Some "1893"))]).
Proof.
  destruct (build_perspectives_csv_spec
              [("p9", mk_persp (Some "Mixed") (Some "") (Some "Lesya Ukrainka")
                               (Some "1893"))]
              [sample_sentence "p1" 3 "third"]) as (_ & Hlines & _).
  apply Hlines. discriminate.
Defined.

(** The text of a small perspective export. *)
Example build_perspectives_csv_sample :
  build_perspectives_csv
    [("p9", mk_persp (Some "Mixed") (Some "") (Some "Lesya Ukrainka") (Some "1893"))]
    [sample_sentence "p1" 3 "third"]
  = "ID,author,date,perspective_primary,perspective_secondary,text"
    +:+ String LF "p9,Lesya Ukrainka,1893,Mixed,," +:+ String LF "".
Proof. by vm_compute. Qed.

(** ** Review status and the numbers of the sidebar *)

Lemma poem_fully_annotated_iff
    (poem_id : string) (display_df : list sentence) (reviewed : gset sent_key) :
  is_poem_fully_annotated poem_id display_df reviewed = true ↔
  (∃ r, r ∈ display_df ∧ s_ID r = poem_id) ∧
  (∀ r, r ∈ display_df → s_ID r = poem_id → sentence_key r ∈ reviewed).
Proof.
  unfold is_poem_fully_annotated.
  destruct (filter (λ r, s_ID r = poem_id) display_df) as [|r0 rest] eqn:Hf.
  - split; [done|]. intros [(r & Hr & HID) _].
    assert (r ∈ filter (λ r, s_ID r = poem_id) display_df) as Hin
      by by apply list_elem_of_filter.
    rewrite Hf in Hin. by apply elem_of_nil in Hin.
  - rewrite all_reviewed_spec, <-Hf. split.
    + intros Hall. split.
      * exists r0. assert (r0 ∈ filter (λ r, s_ID r = poem_id) display_df) as Hin
          by (rewrite Hf; left).
        apply list_elem_of_filter in Hin as [? ?]. by split.
      * intros r Hr HID. apply Hall. by apply list_elem_of_filter.
    + intros [_ Hall] r [HID Hr]%list_elem_of_filter. by apply Hall.
Qed.

(** X18: the status of a poem only grows with the reviewed set and only
    depends on the sentences of the poem.  If a poem is fully annotated for
    a reviewed set, it is for every larger one; and rows of other poems in
    the table, before, between or after its own, change nothing. *)
Theorem is_poem_fully_annotated_monotone
    (poem_id : string) (display_df : list sentence)
    (reviewed reviewed' : gset sent_key) :
  (reviewed ⊆ reviewed' →
   is_poem_fully_annotated poem_id display_df reviewed = true →
   is_poem_fully_annotated poem_id display_df reviewed' = true)
  ∧ is_poem_fully_annotated poem_id display_df reviewed
    = is_poem_fully_annotated poem_id
        (filter (λ r, s_ID r = poem_id) display_df) reviewed.
Proof.
  split.
  - intros Hsub [Hex Hall]%poem_fully_annotated_iff.
    apply poem_fully_annotated_iff. split; [done|].
    intros r Hr HID. by apply Hsub, Hall.
  - apply eq_true_iff_eq. rewrite !poem_fully_annotated_iff. split.
    + intros [(r & Hr & HID) Hall]. split.
      * exists r. split; [by apply list_elem_of_filter|done].
      * intros r' [_ Hr']%list_elem_of_filter HID'. by apply Hall.
    + intros [(r & [_ Hr]%list_elem_of_filter & HID) Hall]. split.
      * by exists r.
      * intros r' Hr' HID'. apply Hall; [by apply list_elem_of_filter|done].
Qed.

Lemma is_poem_fully_annotated_monotone_witness :
  is_poem_fully_annotated "p1"
    [sample_sentence "p1" 3 "third"; sample_sentence "p2" 1 "first"]
    {[ ("p1", 3); ("p2", 1) ]} = true.
Proof.
  destruct (is_poem_fully_annotated_monotone "p1"
              [sample_sentence "p1" 3 "third"; sample_sentence "p2" 1 "first"]
              {[ ("p1", 3) ]} {[ ("p1", 3); ("p2", 1) ]}) as [Hmono _].
  apply Hmono; [set_solver|reflexivity].
Defined.

Lemma unique_from_elem seen l x : x ∈ unique_from seen l → x ∈ l.
Proof.
  revert seen. induction l as [|y l IH]; intros seen; simpl; [done|].
  destruct (decide (y ∈ seen)).
  - intros ?%IH. by right.
  - intros [->|?%IH]%elem_of_cons; [left|by right].
Qed.

Lemma unique_from_length seen l : (length (unique_from seen l) ≤ length l)%nat.
Proof.
  revert seen. induction l as [|y l IH]; intros seen; simpl; [done|].
  destruct (decide (y ∈ seen)); simpl.
  - specialize (IH seen). lia.
  - specialize (IH (y :: seen)). lia.
Qed.

Lemma filter_length_le {A} (f : A → bool) l :
  (length (List.filter f l) ≤ length l)%nat.
Proof. induction l as [|x l IH]; simpl; [done|]. destruct (f x); simpl; lia. Qed.

Lemma filter_length_all {A} (f : A → bool) l :
  length (List.filter f l) = length l → Forall (λ x, f x = true) l.
Proof.
  induction l as [|x l IH]; simpl; [done|].
  pose proof (filter_length_le f l).
  destruct (f x) eqn:Hx; simpl; [|lia].
  intros [= Hlen]. constructor; [done|by apply IH].
Qed.

Lemma filter_all_length {A} (f : A → bool) l :
  Forall (λ x, f x = true) l → List.filter f l = l.
Proof.
  induction 1 as [|x l Hx _ IH]; simpl; [done|]. by rewrite Hx, IH.
Qed.

Lemma counts_as_done_key reviewed r :
  counts_as_done reviewed r = true → sentence_key r ∈ reviewed.
Proof.
  unfold counts_as_done, sentence_key.
  destruct (s_sentence_id r) as [i|]; [|done]. by intros ?%bool_decide_eq_true.
Qed.

(** X19: the numbers of the sidebar agree with each other.  "Annotated"
    never exceeds the number of sentences and the number of poems done never
    exceeds the number of poems in view, which never exceeds the number of
    sentences; and when every sentence in view counts as annotated, every
    poem in view counts as fully annotated. *)
Theorem sidebar_counts_agree (display_df : list sentence)
    (reviewed : gset sent_key) :
  (done_count display_df reviewed ≤ total_count display_df)%nat
  ∧ (poems_done display_df reviewed ≤ poems_in_view display_df)%nat
  ∧ (poems_in_view display_df ≤ total_count display_df)%nat
  ∧ (done_count display_df reviewed = total_count display_df →
     poems_done display_df reviewed = poems_in_view display_df).
Proof.
  unfold done_count, total_count, poems_done, poems_in_view, unique.
  split; [apply filter_length_le|]. split; [apply filter_length_le|]. split.
  - etrans; [apply unique_from_length|]. by rewrite length_fmap.
  - intros Hall%filter_length_all. f_equal. apply filter_all_length.
    apply Forall_forall. intros pid Hpid%unique_from_elem.
    apply list_elem_of_fmap in Hpid as (r0 & -> & Hr0).
    apply poem_fully_annotated_iff. split; [by exists r0|].
    intros r Hr _. apply counts_as_done_key.
    by eapply Forall_forall in Hall.
Qed.

Lemma sidebar_counts_agree_witness :
  poems_done [sample_sentence "p1" 3 "third"; sample_sentence "p1" 4 "fourth"]
             {[ ("p1", 3); ("p1", 4) ]}
  = poems_in_view [sample_sentence "p1" 3 "third"; sample_sentence "p1" 4 "fourth"].
Proof.
  destruct (sidebar_counts_agree
              [sample_sentence "p1" 3 "third"; sample_sentence "p1" 4 "fourth"]
              {[ ("p1", 3); ("p1", 4) ]}) as (_ & _ & _ & Hall).
  apply Hall. reflexivity.
Defined.

(** The converse fails on a sentence whose sentence_id is missing: saved
    under sentence 0 it completes its poem, and "Annotated" does not count
    it. *)
Example poem_done_sentence_not_counted :
  let df := [mk_sentence "p1" "Lesya Ukrainka" "1893" None "" None None "only"] in
  poems_done df {[ ("p1", 0) ]} = poems_in_view df
  ∧ done_count df {[ ("p1", 0) ]} = 0%nat
  ∧ total_count df = 1%nat.
Proof. by vm_compute. Qed.

(** ** The annotator *)

(** X20: the annotator of a run.  A name that is empty or only white space
    gives no annotator (the script stops); any other name gives its stripped
    form, which is not empty, has no white space at either end, and gives
    itself when typed again: names that differ in surrounding white space
    are one annotator. *)
Theorem annotator_of_name_spec annotator_name :
  (annotator_of_name annotator_name = None ↔ strip annotator_name = "")
  ∧ (∀ a, annotator_of_name annotator_name = Some a →
       a = strip annotator_name ∧ a ≠ "" ∧ strip a = a ∧
       annotator_of_name a = Some a)
  ∧ annotator_of_name (strip annotator_name) = annotator_of_name annotator_name.
Proof.
  assert (strip annotator_name ≠ "" →
          annotator_of_name annotator_name = Some (strip annotator_name)) as Hsome.
  { intros Hne. unfold annotator_of_name.
    assert (nonempty annotator_name = true) as ->.
    { apply nonempty_true. by intros ->. }
    apply nonempty_true in Hne. by rewrite Hne. }
  assert (strip annotator_name = "" → annotator_of_name annotator_name = None)
    as Hnone.
  { intros He. unfold annotator_of_name. rewrite He. simpl.
    by rewrite orb_true_r. }
  destruct (decide (strip annotator_name = "")) as [He|Hne].
  - split; [by split|]. split.
    + intros a. by rewrite Hnone.
    + rewrite He, Hnone by done. reflexivity.
  - split; [split; [by rewrite Hsome|done]|]. split.
    + intros a. rewrite Hsome by done. intros [= <-].
      split; [done|]. split; [done|]. split; [apply strip_idempotent|].
      unfold annotator_of_name. rewrite strip_idempotent.
      apply nonempty_true in Hne. by rewrite Hne.
    + rewrite Hsome by done. unfold annotator_of_name.
      rewrite strip_idempotent. apply nonempty_true in Hne. by rewrite Hne.
Qed.

Lemma annotator_of_name_spec_witness :
  "olena" = strip "  olena " ∧ "olena" ≠ "" ∧ strip "olena" = "olena" ∧
  annotator_of_name "olena" = Some "olena".
Proof.
  destruct (annotator_of_name_spec "  olena ") as (_ & Hsome & _).
  apply Hsome. reflexivity.
Defined.

(** ** The No button *)

(** X21: a completed No save leaves exactly one row for the sentence.
    Whatever was stored for the sentence of the view, pronoun rows included,
    is deleted, and the rows of the key are the one marker row of the
    annotator, with the six pronoun columns left out; the rows of all other
    keys are as before. *)
Theorem no_pronoun_save_leaves_one_marker v and_next w w' :
  _do_save_no_pronoun v and_next w = (Raise RerunException, w') →
  rows_for (view_key v) (annotations_tbl w') =
    [ {| r_annotator_id := annotator_id v; r_poem_id := s_ID (row v);
         r_sentence_id := sentence_id_of (row v); r_no_pronoun := true;
         r_cols := None |} ]
  ∧ rows_off (view_key v) (annotations_tbl w')
    = rows_off (view_key v) (annotations_tbl w).
Proof.
  rewrite do_save_no_pronoun_run.
  intros (o1 & w1 & Hsave & Ht & Ho)%save_and_finish_inv.
  destruct Ho as [Ho _]. rewrite (Ho eq_refl) in Hsave. rewrite Ht.
  apply save_completed_rows in Hsave as (rows & Hrows & Hfor & Htbl);
    [|apply no_pronoun_record_carries_key].
  pose proof (annotation_rows_keys _ _ _ _ _
                (no_pronoun_record_carries_key v) Hrows) as Hkeys.
  unfold view_key. split.
  - rewrite Hfor. by injection Hrows as <-.
  - rewrite Htbl, rows_off_app, rows_off_rows_off.
    rewrite (rows_off_all _ _ Hkeys). by rewrite app_nil_r.
Qed.

Lemma no_pronoun_save_leaves_one_marker_witness :
  rows_for (view_key sample_view)
    (annotations_tbl
       (_do_save_no_pronoun sample_view false
          (editing_world [] [pronoun_row "olena" "p1" 3 "ya";
                             pronoun_row "olena" "p1" 3 "ty";
                             pronoun_row "olena" "p1" 4 "vin"])).2)
  = [marker_row "olena" "p1" 3].
Proof.
  apply (no_pronoun_save_leaves_one_marker sample_view false
           (editing_world [] [pronoun_row "olena" "p1" 3 "ya";
                              pronoun_row "olena" "p1" 3 "ty";
                              pronoun_row "olena" "p1" 4 "vin"])).
  reflexivity.
Defined.
